(** * AC server log watcher: lap-time codec, track identity, session reconciler

    A shallow embedding of [ac_server_log_watch.py] (the log watcher) and of
    [format_laptime] from [app/main.py], with the properties of the
    specification stated over it.

    Modelling conventions.
    - A Python [str] is a Rocq [string]; a character is a code point in
      U+0000..U+00FF.  The character predicates below ([isspace], [isdecimal],
      [isdigit_char], [lower_char]) are the Python ones on that range.
    - Python integers are [Z]; the interpreter's configurable limit on the
      length of a decimal literal given to [int()] (4300 digits by default)
      is not modelled.
    - A dict is a [gmap]; a list is a [list]; [None] is [None] of an [option].
    - A computation that can raise is a [result]: [Ok] with its value or
      [Raised] with the exception.  The only [except] clause around the poll
      loop catches [KeyboardInterrupt], so an exception that leaves the body
      of the loop ends the run.
    - The SQLite store is a record of four tables; its calls always succeed:
      the 64-bit range of an SQLite integer, past which [sqlite3] raises, is
      not modelled, and a new row gets the largest id plus one.
    - A log file is a string, one character per byte: the model is that of
      ASCII logs, on which UTF-8 decoding changes nothing.  In the same way
      [unquote] keeps the byte of an escape from [%80] on, where Python
      decodes UTF-8. *)

From Stdlib Require Import ZArith NArith Ascii String List Lia Bool.
From stdpp Require Import base option list gmap strings.

Local Open Scope Z_scope.
Local Open Scope list_scope.

(** ** Python string primitives *)

Module Py.

Definition code (c : ascii) : N := N_of_ascii c.

Definition in_range (lo hi : N) (c : ascii) : bool :=
  ((lo <=? code c) && (code c <=? hi))%N.

(** [str.isspace] on one character; also what [\s] matches and what
    [str.strip()] removes. *)
Definition isspace (c : ascii) : bool :=
  in_range 9 13 c || in_range 28 32 c || (code c =? 133)%N || (code c =? 160)%N.

(** Unicode category Nd: what [\d] matches and what [int()] reads. *)
Definition isdecimal (c : ascii) : bool := in_range 48 57 c.

(** [str.isdigit] on one character: decimals and the superscripts 1, 2, 3. *)
Definition isdigit_char (c : ascii) : bool :=
  isdecimal c || (code c =? 178)%N || (code c =? 179)%N || (code c =? 185)%N.

Definition lower_char (c : ascii) : ascii :=
  if in_range 65 90 c || (in_range 192 222 c && negb (code c =? 215)%N)
  then ascii_of_N (code c + 32) else c.

Fixpoint lower (s : string) : string :=
  match s with
  | EmptyString => EmptyString
  | String c s' => String (lower_char c) (lower s')
  end.

Fixpoint all_chars (p : ascii -> bool) (s : string) : bool :=
  match s with
  | EmptyString => true
  | String c s' => p c && all_chars p s'
  end.

Fixpoint has_char (p : ascii -> bool) (s : string) : bool :=
  match s with
  | EmptyString => false
  | String c s' => p c || has_char p s'
  end.

Definition is_char (a : ascii) (c : ascii) : bool := Ascii.eqb a c.

(** [c in s] for a one-character [c]. *)
Definition contains_char (a : ascii) (s : string) : bool := has_char (is_char a) s.

(** Truth value of a string: [bool(s)]. *)
Definition truthy (s : string) : bool :=
  match s with EmptyString => false | _ => true end.

(** Truth value of [None]-or-string. *)
Definition truthy_opt (o : option string) : bool :=
  match o with Some s => truthy s | None => false end.

(** [str.isdigit]: non-empty and every character a digit. *)
Definition isdigit (s : string) : bool := truthy s && all_chars isdigit_char s.

Fixpoint lstrip_by (p : ascii -> bool) (s : string) : string :=
  match s with
  | EmptyString => EmptyString
  | String c s' => if p c then lstrip_by p s' else s
  end.

(** Drops the trailing characters satisfying [p]. *)
Fixpoint rstrip_by (p : ascii -> bool) (s : string) : string :=
  match s with
  | EmptyString => EmptyString
  | String c s' =>
      match rstrip_by p s' with
      | EmptyString => if p c then EmptyString else String c EmptyString
      | r => String c r
      end
  end.

(** [s.strip()] *)
Definition strip (s : string) : string := rstrip_by isspace (lstrip_by isspace s).

(** [s.rstrip('*')] *)
Definition rstrip_star (s : string) : string := rstrip_by (is_char "*") s.

(** [s.split(sep)] for a one-character separator: always at least one field. *)
Fixpoint split_char (sep : ascii) (s : string) : list string :=
  match s with
  | EmptyString => [EmptyString]
  | String c s' =>
      if Ascii.eqb c sep then EmptyString :: split_char sep s'
      else match split_char sep s' with
           | f :: fs => String c f :: fs
           | [] => [String c EmptyString]
           end
  end.

(** [s.replace(a, b)] for one-character [a] and [b]. *)
Fixpoint replace_char (a b : ascii) (s : string) : string :=
  match s with
  | EmptyString => EmptyString
  | String c s' => String (if Ascii.eqb c a then b else c) (replace_char a b s')
  end.

(** [s.startswith(p)], returning the rest. *)
Fixpoint drop_prefix (p s : string) : option string :=
  match p, s with
  | EmptyString, _ => Some s
  | String a p', String c s' => if Ascii.eqb a c then drop_prefix p' s' else None
  | String _ _, EmptyString => None
  end.

(** [s.find(p)]: index of the first occurrence. *)
Fixpoint find (p s : string) : option nat :=
  match drop_prefix p s with
  | Some _ => Some 0%nat
  | None =>
      match s with
      | EmptyString => None
      | String _ s' => option_map S (find p s')
      end
  end.

(** [s[n:]] *)
Fixpoint drop (n : nat) (s : string) : string :=
  match n, s with
  | O, _ => s
  | S n', String _ s' => drop n' s'
  | S _, EmptyString => EmptyString
  end.

(** [s[:n]] *)
Fixpoint take (n : nat) (s : string) : string :=
  match n, s with
  | S n', String c s' => String c (take n' s')
  | _, _ => EmptyString
  end.

(** The part of [s] before its first character satisfying [p]
    ([re.split(class, s, maxsplit=1)[0]]). *)
Fixpoint take_until (p : ascii -> bool) (s : string) : string :=
  match s with
  | EmptyString => EmptyString
  | String c s' => if p c then EmptyString else String c (take_until p s')
  end.

End Py.

(** ** Regular expressions

    The patterns of the script only repeat character classes, so a pattern is a
    sequence of atoms; the matcher is the backtracking one of [re]: a greedy
    repetition tries the longest run first, a lazy one the shortest. *)

Module Re.

Inductive atom : Type :=
| Lit (icase : bool) (s : string)              (* literal text *)
| Rep (greedy : bool) (min : nat) (cls : ascii -> bool)  (* cls* , cls+ , cls+? *)
| Chr (cls : ascii -> bool)                    (* one character of a class *)
| Opt (cls : ascii -> bool)                    (* (cls)? , greedy *)
| Open (name : string)                         (* (?P<name> *)
| Close (name : string)                        (* ) *)
| Eol.                                         (* $ *)

Definition pattern := list atom.

(** The groups closed so far, and for each open group the input left when it
    was opened. *)
Record groups := { closed : list (string * string); opened : list (string * string) }.

Definition no_groups : groups := {| closed := []; opened := [] |}.

Fixpoint assoc (k : string) (l : list (string * string)) : option string :=
  match l with
  | [] => None
  | (k', v) :: l' => if String.eqb k k' then Some v else assoc k l'
  end.

Definition open_group (name s : string) (g : groups) : groups :=
  {| closed := closed g; opened := (name, s) :: opened g |}.

Definition close_group (name s : string) (g : groups) : groups :=
  match assoc name (opened g) with
  | Some s0 =>
      {| closed := (name, Py.take (String.length s0 - String.length s) s0) :: closed g;
         opened := opened g |}
  | None => g
  end.

Fixpoint drop_lit (icase : bool) (p s : string) : option string :=
  match p, s with
  | EmptyString, _ => Some s
  | String a p', String c s' =>
      if (if icase then Ascii.eqb (Py.lower_char a) (Py.lower_char c) else Ascii.eqb a c)
      then drop_lit icase p' s' else None
  | String _ _, EmptyString => None
  end.

(** [$] without [re.MULTILINE]: the end, or just before a final newline. *)
Definition at_eol (s : string) : bool :=
  match s with
  | EmptyString => true
  | String c EmptyString => Ascii.eqb c "010"
  | _ => false
  end.

Definition or_else {A} (x : option A) (y : option A) : option A :=
  match x with Some _ => x | None => y end.

(** A repetition of a character class, with [k] the rest of the pattern and
    [n] the number of characters already taken. *)
Fixpoint rep_loop (greedy : bool) (min : nat) (cls : ascii -> bool)
    (k : string -> option groups) (n : nat) (s : string) : option groups :=
  let stop := if (min <=? n)%nat then k s else None in
  let more :=
    match s with
    | String c s' => if cls c then rep_loop greedy min cls k (S n) s' else None
    | EmptyString => None
    end in
  if greedy then or_else more stop else or_else stop more.

(** Match pattern [r] at the head of [s]. *)
Fixpoint exec (r : pattern) (s : string) (g : groups) : option groups :=
  match r with
  | [] => Some g
  | Lit ic l :: r' =>
      match drop_lit ic l s with
      | Some s' => exec r' s' g
      | None => None
      end
  | Rep greedy min cls :: r' =>
      rep_loop greedy min cls (fun s' => exec r' s' g) O s
  | Chr cls :: r' =>
      match s with
      | String c s' => if cls c then exec r' s' g else None
      | EmptyString => None
      end
  | Opt cls :: r' =>
      or_else
        (match s with
         | String c s' => if cls c then exec r' s' g else None
         | EmptyString => None
         end)
        (exec r' s g)
  | Open name :: r' => exec r' s (open_group name s g)
  | Close name :: r' => exec r' s (close_group name s g)
  | Eol :: r' => if at_eol s then exec r' s g else None
  end.

(** [pattern.match(s)] *)
Definition re_match (r : pattern) (s : string) : option groups := exec r s no_groups.

(** [pattern.search(s)]: the leftmost position where the pattern matches. *)
Fixpoint re_search (r : pattern) (s : string) : option groups :=
  match exec r s no_groups with
  | Some g => Some g
  | None =>
      match s with
      | EmptyString => None
      | String _ s' => re_search r s'
      end
  end.

(** [m.group(name)] *)
Definition group (g : groups) (name : string) : string :=
  match assoc name (closed g) with Some v => v | None => EmptyString end.

Definition any_but_newline (c : ascii) : bool := negb (Ascii.eqb c "010").
Definition not_quote (c : ascii) : bool := negb (Ascii.eqb c "034").

End Re.

(** ** The patterns of the script

    [match] anchors at the start of the line, so the leading [^] of a pattern
    is not written. *)

Definition dquote : string := String "034" EmptyString.

Definition lap_class (c : ascii) : bool :=
  Py.isdecimal c || Py.is_char ":" c || Py.is_char "." c.

Definition lap_re : Re.pattern :=
  [Re.Lit false "LAP"; Re.Rep true 1 Py.isspace;
   Re.Open "player"; Re.Rep false 1 Re.any_but_newline; Re.Close "player";
   Re.Rep true 1 Py.isspace;
   Re.Open "laptime"; Re.Rep true 1 lap_class; Re.Close "laptime"; Re.Eol].

Definition requested_car_re : Re.pattern :=
  [Re.Lit false "REQUESTED CAR:"; Re.Rep true 0 Py.isspace;
   Re.Open "car"; Re.Rep false 1 Re.any_but_newline; Re.Close "car";
   Re.Opt (Py.is_char "*"); Re.Eol].

Definition driver_accepted_re : Re.pattern :=
  [Re.Lit false "DRIVER ACCEPTED FOR CAR"; Re.Rep true 1 Py.isspace;
   Re.Open "player"; Re.Rep true 1 Re.any_but_newline; Re.Close "player"; Re.Eol].

Definition cuts_re : Re.pattern :=
  [Re.Lit true "Cuts:"; Re.Rep true 0 Py.isspace;
   Re.Open "1"; Re.Rep true 1 Py.isdecimal; Re.Close "1"].

Definition track_line_re : Re.pattern :=
  [Re.Lit true "TRACK=";
   Re.Open "track"; Re.Rep true 1 Re.any_but_newline; Re.Close "track"; Re.Eol].

Definition config_line_re : Re.pattern :=
  [Re.Lit true "CONFIG=";
   Re.Open "config"; Re.Rep true 1 Re.any_but_newline; Re.Close "config"; Re.Eol].

Definition info_track_re : Re.pattern :=
  [Re.Lit true (dquote +:+ "TRACK" +:+ dquote); Re.Rep true 0 Py.isspace;
   Re.Lit true ":"; Re.Rep true 0 Py.isspace; Re.Lit true dquote;
   Re.Open "track"; Re.Rep true 1 Re.not_quote; Re.Close "track";
   Re.Lit true dquote].

Definition info_config_re : Re.pattern :=
  [Re.Lit true (dquote +:+ "CONFIG" +:+ dquote); Re.Rep true 0 Py.isspace;
   Re.Lit true ":"; Re.Rep true 0 Py.isspace; Re.Lit true dquote;
   Re.Open "config"; Re.Rep true 0 Re.not_quote; Re.Close "config";
   Re.Lit true dquote].

Definition slash_or_backslash (c : ascii) : bool :=
  Py.is_char "/" c || Py.is_char "\" c.

Definition content_path_re : Re.pattern :=
  [Re.Lit true "content/tracks"; Re.Chr slash_or_backslash;
   Re.Open "rest"; Re.Rep true 1 Re.any_but_newline; Re.Close "rest"].

(** ** Lap-time codec *)

Inductive exn : Type := ValueError.

Inductive result (A : Type) : Type :=
| Ok (a : A)
| Raised (e : exn).
Arguments Ok {A} a.
Arguments Raised {A} e.

#[global] Instance result_bind : MBind result :=
  fun A B f x => match x with Ok a => f a | Raised e => Raised e end.

(** The white space [int()] skips around a literal. *)
Definition int_space (c : ascii) : bool :=
  Py.in_range 9 13 c || (Py.code c =? 32)%N || (Py.code c =? 133)%N || (Py.code c =? 160)%N.

Definition digit_value (c : ascii) : Z := Z.of_N (Py.code c) - 48.

(** Decimal digits with single underscores between them; [prev] tells that the
    previous character was a digit. *)
Fixpoint parse_digits (acc : Z) (prev : bool) (s : string) : option Z :=
  match s with
  | EmptyString => if prev then Some acc else None
  | String c s' =>
      if Py.isdecimal c then parse_digits (acc * 10 + digit_value c) true s'
      else if Py.is_char "_" c && prev then parse_digits acc false s'
      else None
  end.

(** [int(s)] for a string [s], base ten. *)
Definition py_int (s : string) : result Z :=
  let t := Py.rstrip_by int_space (Py.lstrip_by int_space s) in
  let '(neg, body) :=
    match t with
    | String c t' =>
        if Py.is_char "-" c then (true, t')
        else if Py.is_char "+" c then (false, t')
        else (false, t)
    | EmptyString => (false, t)
    end in
  match parse_digits 0 false body with
  | Some n => Ok (if neg : bool then - n else n)
  | None => Raised ValueError
  end.

Definition lap_to_ms (lap_str : string) : result Z :=
  match Py.split_char ":" lap_str with
  | [m; s; ms] =>
      m' ← py_int m; s' ← py_int s; ms' ← py_int ms;
      Ok (m' * 60000 + s' * 1000 + ms')
  | [m; s] =>
      m' ← py_int m; s' ← py_int s;
      Ok (m' * 60000 + s' * 1000)
  | p0 :: _ => py_int p0
  | [] => Raised ValueError
  end.

(** Decimal rendering of a natural number, most significant digit first. *)
Definition digit_char (d : Z) : ascii := ascii_of_N (Z.to_N (48 + d)).

Fixpoint digits_from (fuel : nat) (n : Z) (acc : string) : string :=
  let acc' := String (digit_char (n mod 10)) acc in
  match fuel with
  | O => acc'
  | S fuel' => if n <? 10 then acc' else digits_from fuel' (n / 10) acc'
  end.

Definition digits (n : Z) : string := digits_from (Z.to_nat (Z.log2 n)) n EmptyString.

(** [str(n)] *)
Definition str_Z (n : Z) : string :=
  if n <? 0 then String "-" (digits (- n)) else digits n.

Fixpoint zeros (k : nat) (s : string) : string :=
  match k with O => s | S k' => String "0" (zeros k' s) end.

(** [f"{n:0{width}d}"] *)
Definition format_0d (width : nat) (n : Z) : string :=
  if n <? 0 then
    let d := digits (- n) in String "-" (zeros (width - 1 - String.length d) d)
  else
    let d := digits n in zeros (width - String.length d) d.

(** [format_laptime] of [app/main.py]. *)
Definition format_laptime (ms : Z) : string :=
  let minutes := ms / 60000 in
  let seconds := (ms mod 60000) / 1000 in
  let millis := ms mod 1000 in
  str_Z minutes +:+ ":" +:+ format_0d 2 seconds +:+ "." +:+ format_0d 3 millis.

(** ** Track identity *)

Definition hex_value (c : ascii) : option N :=
  if Py.in_range 48 57 c then Some (Py.code c - 48)%N
  else if Py.in_range 65 70 c then Some (Py.code c - 55)%N
  else if Py.in_range 97 102 c then Some (Py.code c - 87)%N
  else None.

(** [urllib.parse.unquote]: every [%XX] with two hexadecimal digits becomes the
    byte [XX]; any other [%] stays.  Python then decodes the bytes as UTF-8;
    for escapes below [%80] that is the byte itself, and the model keeps the
    byte for the others too. *)
Fixpoint unquote (s : string) : string :=
  match s with
  | EmptyString => EmptyString
  | String c s' =>
      if Py.is_char "%" c then
        match s' with
        | String h1 (String h2 s'') =>
            match hex_value h1, hex_value h2 with
            | Some a, Some b => String (ascii_of_N (16 * a + b)) (unquote s'')
            | _, _ => String c (unquote s')
            end
        | _ => String c (unquote s')
        end
      else String c (unquote s')
  end.

Definition bad : list string :=
  [EmptyString; "."; ".."; "csp"; "content"; "tracks"; "data"; "cfg"; "0"].

Definition in_bad (t : string) : bool := existsb (String.eqb t) bad.

Definition clean_tokens (tokens : list string) : list string :=
  List.filter (fun t => Py.truthy t && negb (in_bad (Py.lower t))) tokens.

Definition parse_track_from_string (s : string) : option string :=
  if negb (Py.truthy s) then None else
  let s := unquote s in
  let s := Py.replace_char "\" "/" s in
  let parts := Py.split_char "/" s in
  let parts := map Py.strip parts in
  let parts := clean_tokens parts in
  match rev parts with
  | [] => None
  | [t] => Some t
  | layout :: track :: _ =>
      let layout := if Py.contains_char "." layout then None else Some layout in
      if Py.truthy_opt layout then Some (track +:+ "-" +:+ default EmptyString layout)
      else Some track
  end.

(** [t.split('-', 1)[0]] *)
Definition base_of (t : string) : string := Py.take_until (Py.is_char "-") t.

Definition has_layout (t : option string) : bool :=
  match t with
  | Some t => Py.truthy t && Py.contains_char "-" t
  | None => false
  end.

Definition normalize_track (track_candidate config_candidate : option string) : string :=
  let parse c :=
    match c with
    | Some c => if Py.truthy c then parse_track_from_string c else None
    | None => None
    end in
  let t1 := parse track_candidate in
  let t2 := parse config_candidate in
  if has_layout t1 then default EmptyString t1
  else if has_layout t2 then default EmptyString t2
  else
    let merged :=
      match t1, t2 with
      | Some a, Some b =>
          if Py.truthy a && Py.truthy b && negb (String.eqb a b) then
            let base1 := base_of a in
            let base2 := base_of b in
            if Py.truthy base1 && Py.truthy base2 && String.eqb base1 base2
            then Some a else None
          else None
      | _, _ => None
      end in
    match merged with
    | Some r => r
    | None =>
        if Py.truthy_opt t1 then default EmptyString t1
        else if Py.truthy_opt t2 then default EmptyString t2
        else "unknown"
    end.

(** ** The store

    A table of [players], [cars] or [tracks] is its rows [(id, name)] in
    insertion order; a row of [lap_times] keeps the four inserted columns. *)

Definition table := list (Z * string).

Record lap_row := { player_id : Z; car_id : Z; track_id : Z; laptime_ms : Z }.

Record store := { players : table; cars : table; tracks : table; lap_times : list lap_row }.

Definition empty_store : store :=
  {| players := []; cars := []; tracks := []; lap_times := [] |}.

(** [SELECT id FROM t WHERE name = ?], first row. *)
Fixpoint select_id (value : string) (t : table) : option Z :=
  match t with
  | [] => None
  | (i, n) :: t' => if String.eqb n value then Some i else select_id value t'
  end.

(** The row id SQLite gives to the next inserted row. *)
Definition next_rowid (t : table) : Z := 1 + fold_right (fun r m => Z.max (fst r) m) 0 t.

Definition get_or_create (t : table) (value : string) : table * Z :=
  match select_id value t with
  | Some i => (t, i)
  | None => let i := next_rowid t in (t ++ [(i, value)], i)
  end.

(** The three [get_or_create] calls and the [INSERT INTO lap_times] that both
    the pending-lap flush and the cuts branch run. *)
Definition insert_lap (db : store) (player car track : string) (ms : Z) : store :=
  let '(ps, pid) := get_or_create (players db) player in
  let '(cs, cid) := get_or_create (cars db) car in
  let '(ts, tid) := get_or_create (tracks db) track in
  {| players := ps; cars := cs; tracks := ts;
     lap_times := lap_times db ++
       [{| player_id := pid; car_id := cid; track_id := tid; laptime_ms := ms |}] |}.

(** ** Polling state *)

Record car_request := { req_player : option string; req_car : string }.
Record lap_candidate := { lc_player : string; lc_lap_ms : Z }.
Record pending_lap := { pl_player : string; pl_laptime : Z; pl_track : string }.

#[global] Instance car_request_eq_dec : EqDecision car_request.
Proof. solve_decision. Defined.
#[global] Instance pending_lap_eq_dec : EqDecision pending_lap.
Proof. solve_decision. Defined.

(** The status lines the script prints. *)
Inductive message : Type :=
| MsgLap (pl car : string) (lap_ms : Z) (track : string)
| MsgQueued (pl : string) (lap_ms : Z) (track : string)
| MsgLapIgnored (cuts : Z) (pl : string) (lap_ms : Z) (track : string)
| MsgPendingFlush (player car : string) (laptime : Z) (track : string).

Record state := {
  file_positions : gmap string nat;
  player_car_map : gmap string string;
  pending_cars_queue : list car_request;
  pending_laps : list pending_lap;
  last_lap : option lap_candidate;
  observed_track_candidate : option string;
  observed_config_candidate : option string;
  db : store;
  printed : list message
}.

Definition initial_state (d : store) : state :=
  {| file_positions := ∅; player_car_map := ∅; pending_cars_queue := [];
     pending_laps := []; last_lap := None;
     observed_track_candidate := None; observed_config_candidate := None;
     db := d; printed := [] |}.

Definition set_file_positions (st : state) (v : gmap string nat) : state :=
  {| file_positions := v; player_car_map := player_car_map st;
     pending_cars_queue := pending_cars_queue st; pending_laps := pending_laps st;
     last_lap := last_lap st;
     observed_track_candidate := observed_track_candidate st;
     observed_config_candidate := observed_config_candidate st;
     db := db st; printed := printed st |}.

Definition set_player_car_map (st : state) (v : gmap string string) : state :=
  {| file_positions := file_positions st; player_car_map := v;
     pending_cars_queue := pending_cars_queue st; pending_laps := pending_laps st;
     last_lap := last_lap st;
     observed_track_candidate := observed_track_candidate st;
     observed_config_candidate := observed_config_candidate st;
     db := db st; printed := printed st |}.

Definition set_pending_cars_queue (st : state) (v : list car_request) : state :=
  {| file_positions := file_positions st; player_car_map := player_car_map st;
     pending_cars_queue := v; pending_laps := pending_laps st;
     last_lap := last_lap st;
     observed_track_candidate := observed_track_candidate st;
     observed_config_candidate := observed_config_candidate st;
     db := db st; printed := printed st |}.

Definition set_pending_laps (st : state) (v : list pending_lap) : state :=
  {| file_positions := file_positions st; player_car_map := player_car_map st;
     pending_cars_queue := pending_cars_queue st; pending_laps := v;
     last_lap := last_lap st;
     observed_track_candidate := observed_track_candidate st;
     observed_config_candidate := observed_config_candidate st;
     db := db st; printed := printed st |}.

Definition set_last_lap (st : state) (v : option lap_candidate) : state :=
  {| file_positions := file_positions st; player_car_map := player_car_map st;
     pending_cars_queue := pending_cars_queue st; pending_laps := pending_laps st;
     last_lap := v;
     observed_track_candidate := observed_track_candidate st;
     observed_config_candidate := observed_config_candidate st;
     db := db st; printed := printed st |}.

Definition set_observed (st : state) (t c : option string) : state :=
  {| file_positions := file_positions st; player_car_map := player_car_map st;
     pending_cars_queue := pending_cars_queue st; pending_laps := pending_laps st;
     last_lap := last_lap st;
     observed_track_candidate := t; observed_config_candidate := c;
     db := db st; printed := printed st |}.

(** A committed insert together with the status line printed after it. *)
Definition set_db_print (st : state) (d : store) (m : message) : state :=
  {| file_positions := file_positions st; player_car_map := player_car_map st;
     pending_cars_queue := pending_cars_queue st; pending_laps := pending_laps st;
     last_lap := last_lap st;
     observed_track_candidate := observed_track_candidate st;
     observed_config_candidate := observed_config_candidate st;
     db := d; printed := printed st ++ [m] |}.

Definition print (st : state) (m : message) : state := set_db_print st (db st) m.

(** ** The loop body, one line at a time *)

(** The separators of the [re.split] that cuts the token after [track=]:
    white space, ampersand, double quote, comma, single quote. *)
Definition token_end (c : ascii) : bool :=
  Py.isspace c || Py.is_char "&" c || Py.is_char "034" c || Py.is_char "," c
  || Py.is_char "'" c.

(** What a parsed path or token does to the two observed candidates: a value
    with a layout replaces the track candidate and clears the config
    candidate, a value without one stores the raw text. *)
Definition observe_parsed (raw : string) (tc cc : option string)
  : option string * option string :=
  let parsed := parse_track_from_string raw in
  if Py.truthy_opt parsed then
    if Py.contains_char "-" (default EmptyString parsed) then (parsed, None)
    else (Some raw, cc)
  else (tc, cc).

(** The track-bearing conventions, in the order of the script.  The result
    tells the new candidates and whether the line ended there ([continue]). *)
Definition scan_track (line : string) (tc cc : option string)
  : option string * option string * bool :=
  match Re.re_match track_line_re line with
  | Some m => (Some (Py.strip (Re.group m "track")), cc, true)
  | None =>
  match Re.re_match config_line_re line with
  | Some m => (tc, Some (Py.strip (Re.group m "config")), true)
  | None =>
    let tc := match Re.re_search info_track_re line with
              | Some m => Some (Py.strip (Re.group m "track"))
              | None => tc
              end in
    let cc := match Re.re_search info_config_re line with
              | Some m => Some (Py.strip (Re.group m "config"))
              | None => cc
              end in
    match Re.re_search content_path_re line with
    | Some m => (observe_parsed (Re.group m "rest") tc cc, true)
    | None =>
        match Py.find "track=" (Py.lower line) with
        | Some idx =>
            let after := Py.drop (idx + String.length "track=") line in
            let token := unquote (Py.take_until token_end after) in
            (observe_parsed token tc cc, false)
        | None => (tc, cc, false)
        end
    end
  end
  end.

(** [REQUESTED CAR:] *)
Definition on_requested_car (st : state) (m : Re.groups) : state :=
  let car := Py.rstrip_star (Py.strip (Re.group m "car")) in
  set_pending_cars_queue st
    (pending_cars_queue st ++ [{| req_player := None; req_car := car |}]).

Fixpoint first_unset (q : list car_request) : option (nat * car_request) :=
  match q with
  | [] => None
  | pc :: q' =>
      match req_player pc with
      | None => Some (O, pc)
      | Some _ => match first_unset q' with
                  | Some (i, r) => Some (S i, r)
                  | None => None
                  end
      end
  end.

(** [list.remove(x)]: drops the first element equal to [x]. *)
Fixpoint list_remove {A} `{EqDecision A} (x : A) (l : list A) : list A :=
  match l with
  | [] => []
  | y :: l' => if decide (y = x) then l' else y :: list_remove x l'
  end.

(** The [for pc in pending_cars_queue] loop: the first request without a
    player gets [player], is entered in the map and is removed. *)
Definition assign_car (st : state) (player : string) : state :=
  match first_unset (pending_cars_queue st) with
  | Some (i, pc) =>
      let pc' := {| req_player := Some player; req_car := req_car pc |} in
      let q := <[i := pc']> (pending_cars_queue st) in
      let st := set_player_car_map st (<[player := req_car pc']> (player_car_map st)) in
      set_pending_cars_queue st (list_remove pc' q)
  | None =>
      set_player_car_map st (<[player := "unknown"]> (player_car_map st))
  end.

(** The [for lap in pending_laps[:]] loop. *)
Definition flush_pending (st : state) (player : string) : state :=
  fold_left
    (fun st lap =>
       if decide (pl_player lap = player) then
         let car := default EmptyString (player_car_map st !! player) in
         let st := set_db_print st
                     (insert_lap (db st) player car (pl_track lap) (pl_laptime lap))
                     (MsgPendingFlush player car (pl_laptime lap) (pl_track lap)) in
         set_pending_laps st (list_remove lap (pending_laps st))
       else st)
    (pending_laps st) st.

(** [DRIVER ACCEPTED FOR CAR] *)
Definition on_driver_accepted (st : state) (m : Re.groups) : state :=
  let player := Py.strip (Re.group m "player") in
  if negb (Py.truthy player) || Py.isdigit player then st
  else flush_pending (assign_car st player) player.

(** [Cuts:] *)
Definition on_cuts (st : state) (m : Re.groups) : result state :=
  match last_lap st with
  | None => Ok st
  | Some ll =>
      cuts ← py_int (Re.group m "1");
      let pl := lc_player ll in
      let lap_ms := lc_lap_ms ll in
      let track_for_lap :=
        normalize_track (observed_track_candidate st) (observed_config_candidate st) in
      let st :=
        if cuts =? 0 then
          let car := player_car_map st !! pl in
          if Py.truthy_opt car then
            let car := default EmptyString car in
            set_db_print st (insert_lap (db st) pl car track_for_lap lap_ms)
              (MsgLap pl car lap_ms track_for_lap)
          else
            print
              (set_pending_laps st
                 (pending_laps st ++
                    [{| pl_player := pl; pl_laptime := lap_ms; pl_track := track_for_lap |}]))
              (MsgQueued pl lap_ms track_for_lap)
        else print st (MsgLapIgnored cuts pl lap_ms track_for_lap) in
      Ok (set_last_lap st None)
  end.

(** [LAP] *)
Definition on_lap (st : state) (m : Re.groups) : result state :=
  let pl := Py.strip (Re.group m "player") in
  lap_ms ← lap_to_ms (Re.group m "laptime");
  Ok (set_last_lap st (Some {| lc_player := pl; lc_lap_ms := lap_ms |})).

(** The event branches, first match wins. *)
Definition dispatch (st : state) (line : string) : result state :=
  match Re.re_match requested_car_re line with
  | Some m => Ok (on_requested_car st m)
  | None =>
  match Re.re_match driver_accepted_re line with
  | Some m => Ok (on_driver_accepted st m)
  | None =>
  match Re.re_search cuts_re line with
  | Some m => on_cuts st m
  | None =>
  match Re.re_match lap_re line with
  | Some m => on_lap st m
  | None => Ok st
  end end end end.

(** The body of [for raw_line in f]. *)
Definition loop_body (st : state) (raw_line : string) : result state :=
  let line := Py.strip raw_line in
  if negb (Py.truthy line) then Ok st else
  let '(tc, cc, done) :=
    scan_track line (observed_track_candidate st) (observed_config_candidate st) in
  let st := set_observed st tc cc in
  if done then Ok st else dispatch st line.

(** The lines of one file, until an exception escapes. *)
Fixpoint run (st : state) (lines : list string) : result state :=
  match lines with
  | [] => Ok st
  | l :: ls => st' ← loop_body st l; run st' ls
  end.

(** ** The file tailer

    A log file is its path and its current content; the characters of the
    content are its bytes.  Text mode reads with universal newlines: a line
    ends at a line feed, at a carriage return, or at the two together, and its
    terminator is read as one line feed. *)

Fixpoint lines_of (s : string) : list string :=
  match s with
  | EmptyString => []
  | String c s' =>
      if Ascii.eqb c "010" then String "010" EmptyString :: lines_of s'
      else if Ascii.eqb c "013" then
        match s' with
        | String c' s'' =>
            if Ascii.eqb c' "010" then String "010" EmptyString :: lines_of s''
            else String "010" EmptyString :: lines_of s'
        | EmptyString => [String "010" EmptyString]
        end
      else
        match lines_of s' with
        | l :: ls => String c l :: ls
        | [] => [String c EmptyString]
        end
  end.

(** The stored offset of a file, [0] at first sight. *)
Definition offset_of (st : state) (logfile : string) : nat :=
  default O (file_positions st !! logfile).

(** The lines one poll of [logfile] iterates over: [f.seek(offset)], then
    [for raw_line in f]. *)
Definition new_lines (st : state) (logfile content : string) : list string :=
  lines_of (Py.drop (offset_of st logfile) content).

(** [f.tell()] once the file is read to its end: a seek past the end stays
    where it is. *)
Definition tell_at_end (offset : nat) (content : string) : nat :=
  Nat.max offset (String.length content).

(** One file of one poll. *)
Definition poll_file (st : state) (file : string * string) : result state :=
  let '(logfile, content) := file in
  let st :=
    match file_positions st !! logfile with
    | Some _ => st
    | None => set_file_positions st (<[logfile := O]> (file_positions st))
    end in
  let offset := offset_of st logfile in
  st' ← run st (new_lines st logfile content);
  Ok (set_file_positions st'
        (<[logfile := tell_at_end offset content]> (file_positions st'))).

(** One iteration of [while True]: the files found by the glob, in order. *)
Fixpoint poll (st : state) (log_files : list (string * string)) : result state :=
  match log_files with
  | [] => Ok st
  | f :: fs => st' ← poll_file st f; poll st' fs
  end.

(** ** The classifier read off the loop body

    The branch of the loop body a line takes depends on the line alone. *)

Inductive line_kind : Type :=
| Blank
| TrackBearing                       (* ended at TRACK=, CONFIG= or a content path *)
| CarRequested (m : Re.groups)
| DriverAccepted (m : Re.groups)
| CutsReport (m : Re.groups)
| LapReport (m : Re.groups)
| Unrecognized.

Definition classify (raw_line : string) : line_kind :=
  let line := Py.strip raw_line in
  if negb (Py.truthy line) then Blank
  else if snd (scan_track line None None) then TrackBearing
  else
    match Re.re_match requested_car_re line with
    | Some m => CarRequested m
    | None =>
    match Re.re_match driver_accepted_re line with
    | Some m => DriverAccepted m
    | None =>
    match Re.re_search cuts_re line with
    | Some m => CutsReport m
    | None =>
    match Re.re_match lap_re line with
    | Some m => LapReport m
    | None => Unrecognized
    end end end end.

(** The state after the track-bearing conventions of a line were applied. *)
Definition observe (st : state) (raw_line : string) : state :=
  let '(tc, cc, _) :=
    scan_track (Py.strip raw_line)
      (observed_track_candidate st) (observed_config_candidate st) in
  set_observed st tc cc.

(** The player and car a line brings in, and the cut count it reports. *)
Definition requested_car (raw_line : string) : option string :=
  match classify raw_line with
  | CarRequested m => Some (Py.rstrip_star (Py.strip (Re.group m "car")))
  | _ => None
  end.

Definition accepted_driver (raw_line : string) : option string :=
  match classify raw_line with
  | DriverAccepted m =>
      let player := Py.strip (Re.group m "player") in
      if negb (Py.truthy player) || Py.isdigit player then None else Some player
  | _ => None
  end.

Definition reported_cuts (raw_line : string) : option Z :=
  match classify raw_line with
  | CutsReport m => match py_int (Re.group m "1") with Ok n => Some n | Raised _ => None end
  | _ => None
  end.

(** The laps stored for a player: the rows of [lap_times] whose [player_id] is
    the id of the [players] row with that name. *)
Definition stored_laps (d : store) (player : string) : list Z :=
  match select_id player (players d) with
  | Some pid =>
      map laptime_ms (List.filter (fun r => player_id r =? pid) (lap_times d))
  | None => []
  end.

(** Every lap row points to a player row (the foreign key of the schema). *)
Definition store_ok (d : store) : Prop :=
  Forall (fun r => In (player_id r) (map fst (players d))) (lap_times d).

(** ** Definitions used to state and prove the properties *)

(** What the loop body does with a line of each kind, after [observe]. *)
Definition step_of_kind (st : state) (k : line_kind) : result state :=
  match k with
  | Blank | TrackBearing | Unrecognized => Ok st
  | CarRequested m => Ok (on_requested_car st m)
  | DriverAccepted m => Ok (on_driver_accepted st m)
  | CutsReport m => on_cuts st m
  | LapReport m => on_lap st m
  end.

(** Characters a rendered number is made of: decimal digits and the sign. *)
Definition numeric (c : ascii) : bool := Py.isdecimal c || Py.is_char "-" c.

(** The weight of the leading part when [n] is written after it. *)
Fixpoint weight (fuel : nat) (n : Z) : Z :=
  match fuel with
  | O => 10
  | S fuel' => if n <? 10 then 10 else 10 * weight fuel' (n / 10)
  end.

(** A rendered lap time with its [.] written as [:], the form [M:SS:mmm]
    that the three-field branch of [lap_to_ms] reads. *)
Definition colon_form (s : string) : string := Py.replace_char "." ":" s.

(** Case analysis on the 256 characters. *)
Ltac by_cases_on_char c :=
  destruct c as [[] [] [] [] [] [] [] []]; vm_compute; try reflexivity; try discriminate.

(** [a not in s] *)
Definition absent (a : ascii) (s : string) : Prop := Py.contains_char a s = false.

(** Nothing for [strip] to remove at either end. *)
Definition trimmed (s : string) : Prop :=
  Py.lstrip_by Py.isspace s = s /\ Py.rstrip_by Py.isspace s = s.

(** The parts of the state other than the two observed candidates. *)
Definition rest_of (st : state) :=
  (file_positions st, player_car_map st, pending_cars_queue st, pending_laps st,
   last_lap st, db st, printed st).

(** The parts of the state the flush of pending laps leaves alone. *)
Definition flush_kept (st : state) :=
  (file_positions st, player_car_map st, pending_cars_queue st, last_lap st,
   observed_track_candidate st, observed_config_candidate st).

(** The track a lap is stamped with when the line [raw_line] confirms it. *)
Definition track_at (st : state) (raw_line : string) : string :=
  normalize_track (observed_track_candidate (observe st raw_line))
                  (observed_config_candidate (observe st raw_line)).

(** The states the loop is in between two lines: the start, the state after a
    line that raised nothing, and a state whose offsets the tailer rewrote. *)
Inductive reachable (d : store) : state -> Prop :=
| reach_start : reachable d (initial_state d)
| reach_line (st : state) (raw_line : string) (st' : state) :
    reachable d st -> loop_body st raw_line = Ok st' -> reachable d st'
| reach_offsets (st : state) (fp : gmap string nat) :
    reachable d st -> reachable d (set_file_positions st fp).

(** ** [row_to_dict] of [app/main.py]

    [{k: row[idx] for idx, k in enumerate(cols)}].  [None] stands for the
    [IndexError] that [row[idx]] raises past the end of the row. *)

Fixpoint row_to_dict_from {V : Type} (row : list V) (idx : nat) (cols : list string)
    (acc : gmap string V) : option (gmap string V) :=
  match cols with
  | [] => Some acc
  | k :: cols' =>
      match row !! idx with
      | Some v => row_to_dict_from row (S idx) cols' (<[k := v]> acc)
      | None => None
      end
  end.

Definition row_to_dict {V : Type} (row : list V) (cols : list string)
  : option (gmap string V) :=
  row_to_dict_from row O cols ∅.

(** ** Further definitions used to state the properties *)

(** One [insert_lap] call: player, car, track, milliseconds. *)
Definition lap_entry : Type := string * string * string * Z.

Definition insert_entry (d : store) (x : lap_entry) : store :=
  let '(player, car, track, ms) := x in insert_lap d player car track ms.

(** A sequence of [insert_lap] calls, first to last. *)
Definition inserts (d : store) (xs : list lap_entry) : store :=
  fold_left insert_entry xs d.

(** The milliseconds of an entry. *)
Definition entry_ms (x : lap_entry) : Z := snd x.

(** The pending laps of [player] as the calls their flush makes, with the car
    the map gives the player. *)
Definition flush_entries (st : state) (player : string) : list lap_entry :=
  map (fun lap => (player, default EmptyString (player_car_map st !! player),
                   pl_track lap, pl_laptime lap))
      (List.filter (fun lap => bool_decide (pl_player lap = player)) (pending_laps st)).

(** The ids and the names of a table. *)
Definition ids (t : table) : list Z := map fst t.
Definition names (t : table) : list string := map snd t.

(** No id and no name occurs twice (the primary key and the [UNIQUE] column
    of the schema). *)
Definition table_ok (t : table) : Prop := NoDup (ids t) /\ NoDup (names t).

(** Every lap row points to a player row, a car row and a track row (the
    three foreign keys of the schema). *)
Definition refs_ok (d : store) : Prop :=
  Forall (fun r => In (player_id r) (ids (players d)) /\
                   In (car_id r) (ids (cars d)) /\
                   In (track_id r) (ids (tracks d))) (lap_times d).

(** The schema's constraints on the whole store. *)
Definition store_wf (d : store) : Prop :=
  table_ok (players d) /\ table_ok (cars d) /\ table_ok (tracks d) /\ refs_ok d.

(** No lap time in the buffers or in the store is negative. *)
Definition laps_nonneg (st : state) : Prop :=
  (forall c, last_lap st = Some c -> 0 <= lc_lap_ms c) /\
  Forall (fun lap => 0 <= pl_laptime lap) (pending_laps st) /\
  Forall (fun r => 0 <= laptime_ms r) (lap_times (db st)).

(** One turn of the [for lap in pending_laps[:]] loop of [flush_pending]. *)
Definition flush_step (player : string) (st : state) (lap : pending_lap) : state :=
  if decide (pl_player lap = player) then
    let car := default EmptyString (player_car_map st !! player) in
    let st := set_db_print st
                (insert_lap (db st) player car (pl_track lap) (pl_laptime lap))
                (MsgPendingFlush player car (pl_laptime lap) (pl_track lap)) in
    set_pending_laps st (list_remove lap (pending_laps st))
  else st.

(** The pending laps of [player], and those of the other players. *)
Definition laps_of (player : string) (laps : list pending_lap) : list pending_lap :=
  List.filter (fun lap => bool_decide (pl_player lap = player)) laps.

Definition laps_of_others (player : string) (laps : list pending_lap)
  : list pending_lap :=
  List.filter (fun lap => negb (bool_decide (pl_player lap = player))) laps.

(** The call that stores a pending lap of [player] with [car]. *)
Definition entry_of (player car : string) (lap : pending_lap) : lap_entry :=
  (player, car, pl_track lap, pl_laptime lap).

(** What every token left by [clean_tokens] is like. *)
Definition token_like (t : string) : Prop :=
  trimmed t /\ t <> EmptyString /\
  Py.contains_char "/" t = false /\ Py.contains_char "\" t = false /\
  in_bad (Py.lower t) = false.

(** The two halves of [normalize_track]: the key of one candidate, and the
    choice between the two keys. *)
Definition parse_candidate (c : option string) : option string :=
  match c with
  | Some c => if Py.truthy c then parse_track_from_string c else None
  | None => None
  end.

Definition choose_key (t1 t2 : option string) : string :=
  if has_layout t1 then default EmptyString t1
  else if has_layout t2 then default EmptyString t2
  else
    let merged :=
      match t1, t2 with
      | Some a, Some b =>
          if Py.truthy a && Py.truthy b && negb (String.eqb a b) then
            let base1 := base_of a in
            let base2 := base_of b in
            if Py.truthy base1 && Py.truthy base2 && String.eqb base1 base2
            then Some a else None
          else None
      | _, _ => None
      end in
    match merged with
    | Some r => r
    | None =>
        if Py.truthy_opt t1 then default EmptyString t1
        else if Py.truthy_opt t2 then default EmptyString t2
        else "unknown"
    end.

(** Every pending lap waits for a car: the map has no car, or the empty
    name, for its player. *)
Definition pending_wait_for_car (st : state) : Prop :=
  Forall (fun lap => Py.truthy_opt (player_car_map st !! pl_player lap) = false)
         (pending_laps st).

(** The line has no JSON fragment for the track or the config and no
    [track=] key: none of the scans that a line can pass through on its way
    to the event branches finds anything. *)
Definition no_track_fragment (raw_line : string) : Prop :=
  Re.re_search info_track_re (Py.strip raw_line) = None /\
  Re.re_search info_config_re (Py.strip raw_line) = None /\
  Py.find "track=" (Py.lower (Py.strip raw_line)) = None.

(** A byte that UTF-8 decodes to itself. *)
Definition is_ascii (c : ascii) : bool := (Py.code c <? 128)%N.

(** The lines of a file put back together. *)
Definition concat_lines (ls : list string) : string :=
  fold_right String.append EmptyString ls.

(** * Properties *)

(** ** Strings *)

Lemma append_cons (c : ascii) (s t : string) : String c s +:+ t = String c (s +:+ t).
Proof. reflexivity. Qed.

Lemma append_nil (t : string) : EmptyString +:+ t = t.
Proof. reflexivity. Qed.

Lemma append_assoc (s t u : string) : (s +:+ t) +:+ u = s +:+ t +:+ u.
Proof.
  induction s as [|c s IH]; [reflexivity|].
  rewrite !append_cons, IH. reflexivity.
Qed.

Lemma append_length (s t : string) :
  String.length (s +:+ t) = (String.length s + String.length t)%nat.
Proof.
  induction s as [|c s IH]; [reflexivity|].
  rewrite append_cons. cbn [String.length]. rewrite IH. reflexivity.
Qed.

(** ** The loop body through the classifier *)

Lemma scan_track_done (line : string) (tc cc : option string) :
  snd (scan_track line tc cc) = snd (scan_track line None None).
Proof.
  unfold scan_track.
  destruct (Re.re_match track_line_re line); [reflexivity|].
  destruct (Re.re_match config_line_re line); [reflexivity|].
  destruct (Re.re_search content_path_re line); [reflexivity|].
  destruct (Py.find "track=" (Py.lower line)); reflexivity.
Qed.

Lemma loop_body_classify (st : state) (raw_line : string) :
  loop_body st raw_line =
  match classify raw_line with
  | Blank => Ok st
  | k => step_of_kind (observe st raw_line) k
  end.
Proof.
  unfold loop_body, classify, observe, dispatch.
  destruct (negb (Py.truthy (Py.strip raw_line))); [reflexivity|].
  rewrite <- (scan_track_done (Py.strip raw_line)
                (observed_track_candidate st) (observed_config_candidate st)).
  destruct (scan_track (Py.strip raw_line) _ _) as [[tc cc] done]; cbn [snd].
  destruct done; [reflexivity|].
  destruct (Re.re_match requested_car_re _); [reflexivity|].
  destruct (Re.re_match driver_accepted_re _); [reflexivity|].
  destruct (Re.re_search cuts_re _); [reflexivity|].
  destruct (Re.re_match lap_re _); reflexivity.
Qed.

(** ** Worked lines *)

Example lap_to_ms_colon : lap_to_ms "1:23:456" = Ok 83456.
Proof. reflexivity. Qed.

Example lap_to_ms_two_fields : lap_to_ms "1:23" = Ok 83000.
Proof. reflexivity. Qed.

Example lap_to_ms_raw : lap_to_ms "83456" = Ok 83456.
Proof. reflexivity. Qed.

Example lap_to_ms_dotted : lap_to_ms "1:23.456" = Raised ValueError.
Proof. reflexivity. Qed.

Example format_laptime_83456 : format_laptime 83456 = "1:23.456".
Proof. reflexivity. Qed.

Example parse_track_path :
  parse_track_from_string "csp/0/../ks_nordschleife/touristenfahrten"
  = Some "ks_nordschleife-touristenfahrten".
Proof. reflexivity. Qed.

Example parse_track_file_name :
  parse_track_from_string "ks_spa\data\drs_zones.ini" = Some "ks_spa".
Proof. reflexivity. Qed.

(** ** C4: the merge of a bare track with a bare layout *)

(** C4 (what the code returns at the example).  With track candidate
    [csp/0/ks_nordschleife] and config candidate [touristenfahrten],
    [normalize_track] returns the track token alone, [ks_nordschleife]: neither
    token has a layout separator, their bases differ, and the function then
    returns the first token.  It does not join the two. *)
Theorem normalize_track_bare_track_and_layout :
  normalize_track (Some "csp/0/ks_nordschleife") (Some "touristenfahrten")
  = "ks_nordschleife".
Proof. vm_compute. reflexivity. Qed.

(** ** C3: an exception in one line *)

(** C3 (what the code does at a malformed duration).  A [LAP] line whose duration field
    is not an integer literal, here [23.456], makes [lap_to_ms] raise
    [ValueError]; nothing in the loop catches it, so whatever lines follow
    are never processed. *)
Theorem malformed_lap_ends_run (st : state) (rest : list string) :
  run st ("LAP X 1:23.456" :: rest) = Raised ValueError.
Proof.
  cbn [run]. rewrite loop_body_classify.
  replace (classify "LAP X 1:23.456")
    with (LapReport {| Re.closed := [("laptime", "1:23.456"); ("player", "X")];
                       Re.opened := [("laptime", "1:23.456"); ("player", "X 1:23.456")] |})
    by (vm_compute; reflexivity).
  reflexivity.
Qed.

Lemma malformed_lap_ends_run_at_start :
  run (initial_state empty_store) ["LAP X 1:23.456"; "Cuts: 0"] = Raised ValueError.
Proof. vm_compute. reflexivity. Qed.

(** ** C2: the two directions of the lap-time codec *)

Module Codec.

Lemma numeric_not_space (c : ascii) : numeric c = true -> int_space c = false.
Proof. by_cases_on_char c. Qed.

Lemma numeric_not_colon (c : ascii) : numeric c = true -> Ascii.eqb c ":" = false.
Proof. by_cases_on_char c. Qed.

Lemma numeric_not_dot (c : ascii) : numeric c = true -> Ascii.eqb c "." = false.
Proof. by_cases_on_char c. Qed.

Lemma decimal_numeric (c : ascii) : Py.isdecimal c = true -> numeric c = true.
Proof. unfold numeric. intros ->. reflexivity. Qed.

Lemma decimal_not_sign (c : ascii) :
  Py.isdecimal c = true -> Py.is_char "-" c = false /\ Py.is_char "+" c = false.
Proof. by_cases_on_char c; intros; split; reflexivity. Qed.

Lemma digit_char_decimal (d : Z) : 0 <= d < 10 -> Py.isdecimal (digit_char d) = true.
Proof.
  intros H.
  assert (d = 0 \/ d = 1 \/ d = 2 \/ d = 3 \/ d = 4 \/ d = 5 \/ d = 6 \/ d = 7
          \/ d = 8 \/ d = 9) as Hd by lia.
  repeat (destruct Hd as [-> | Hd]; [reflexivity|]). subst. reflexivity.
Qed.

Lemma digit_value_char (d : Z) : 0 <= d < 10 -> digit_value (digit_char d) = d.
Proof.
  intros H.
  assert (d = 0 \/ d = 1 \/ d = 2 \/ d = 3 \/ d = 4 \/ d = 5 \/ d = 6 \/ d = 7
          \/ d = 8 \/ d = 9) as Hd by lia.
  repeat (destruct Hd as [-> | Hd]; [reflexivity|]). subst. reflexivity.
Qed.

Lemma all_chars_app (p : ascii -> bool) (s t : string) :
  Py.all_chars p (s +:+ t) = Py.all_chars p s && Py.all_chars p t.
Proof.
  induction s as [|c s IH]; simpl; [reflexivity|].
  rewrite IH. apply andb_assoc.
Qed.

Lemma all_chars_impl (p q : ascii -> bool) (s : string) :
  (forall c, p c = true -> q c = true) ->
  Py.all_chars p s = true -> Py.all_chars q s = true.
Proof.
  intros Hpq. induction s as [|c s IH]; cbn; [reflexivity|].
  intros [Hc Hs]%andb_true_iff. rewrite (Hpq _ Hc), (IH Hs). reflexivity.
Qed.

(** *** Rendering a number and reading it back *)

Lemma digits_from_chars (fuel : nat) (n : Z) (acc : string) :
  Py.all_chars Py.isdecimal (digits_from fuel n acc) = Py.all_chars Py.isdecimal acc.
Proof.
  revert n acc. induction fuel as [|fuel IH]; intros n acc; cbn [digits_from].
  - cbn [Py.all_chars]. rewrite digit_char_decimal; [reflexivity|].
    apply Z.mod_pos_bound. lia.
  - destruct (n <? 10).
    + cbn [Py.all_chars]. rewrite digit_char_decimal; [reflexivity|].
      apply Z.mod_pos_bound. lia.
    + rewrite IH. cbn [Py.all_chars]. rewrite digit_char_decimal; [reflexivity|].
      apply Z.mod_pos_bound. lia.
Qed.

Lemma digits_from_parse (fuel : nat) :
  forall (n : Z) (acc : string) (a : Z) (b : bool),
    0 <= n < 2 ^ Z.of_nat (S fuel) ->
    parse_digits a b (digits_from fuel n acc)
    = parse_digits (a * weight fuel n + n) true acc.
Proof.
  induction fuel as [|fuel IH]; intros n acc a b Hn.
  - change (2 ^ Z.of_nat 1) with 2 in Hn.
    cbn [digits_from weight parse_digits].
    rewrite Z.mod_small by lia.
    rewrite digit_char_decimal, digit_value_char by lia. reflexivity.
  - cbn [digits_from weight]. destruct (Z.ltb_spec n 10) as [Hlt|Hge].
    + cbn [parse_digits]. rewrite Z.mod_small by lia.
      rewrite digit_char_decimal, digit_value_char by lia. reflexivity.
    + rewrite IH.
      * cbn [parse_digits].
        assert (0 <= n mod 10 < 10) as Hm by (apply Z.mod_pos_bound; lia).
        rewrite digit_char_decimal, digit_value_char by exact Hm.
        f_equal. pose proof (Z.div_mod n 10 ltac:(lia)). lia.
      * rewrite Nat2Z.inj_succ, Z.pow_succ_r in Hn by lia.
        split; [apply Z.div_pos; lia|].
        apply Z.div_lt_upper_bound; lia.
Qed.

Lemma digits_bound (n : Z) : 0 <= n -> 0 <= n < 2 ^ Z.of_nat (S (Z.to_nat (Z.log2 n))).
Proof.
  intros Hn. split; [exact Hn|].
  rewrite Nat2Z.inj_succ, Z2Nat.id by apply Z.log2_nonneg.
  destruct (Z.eq_dec n 0) as [->|Hne]; [reflexivity|].
  apply Z.log2_spec. lia.
Qed.

Lemma digits_decimal (n : Z) : Py.all_chars Py.isdecimal (digits n) = true.
Proof. unfold digits. rewrite digits_from_chars. reflexivity. Qed.

Lemma parse_digits_digits (n : Z) (b : bool) :
  0 <= n -> parse_digits 0 b (digits n) = Some n.
Proof.
  intros Hn. unfold digits.
  rewrite digits_from_parse by (apply digits_bound; exact Hn).
  cbn [parse_digits]. f_equal; lia.
Qed.

Lemma parse_digits_zeros (k : nat) (s : string) (b : bool) :
  parse_digits 0 b (zeros k s) = parse_digits 0 (b || negb (k =? 0)%nat) s.
Proof.
  revert b. induction k as [|k IH]; intros b; cbn [zeros].
  - cbn. rewrite orb_false_r. reflexivity.
  - cbn [parse_digits]. change (Py.isdecimal "0") with true. cbn iota.
    change (0 * 10 + digit_value "0") with 0. rewrite IH. cbn.
    rewrite orb_true_r. destruct (k =? 0)%nat; reflexivity.
Qed.

Lemma zeros_decimal (k : nat) (s : string) :
  Py.all_chars Py.isdecimal (zeros k s) = Py.all_chars Py.isdecimal s.
Proof. induction k as [|k IH]; cbn; [reflexivity|exact IH]. Qed.

(** *** [int()] on rendered numbers *)

Lemma lstrip_by_none (p : ascii -> bool) (s : string) :
  Py.all_chars (fun c => negb (p c)) s = true -> Py.lstrip_by p s = s.
Proof.
  destruct s as [|c s]; cbn; [reflexivity|].
  intros [Hc _]%andb_true_iff. apply negb_true_iff in Hc. rewrite Hc. reflexivity.
Qed.

Lemma rstrip_by_none (p : ascii -> bool) (s : string) :
  Py.all_chars (fun c => negb (p c)) s = true -> Py.rstrip_by p s = s.
Proof.
  induction s as [|c s IH]; cbn; [reflexivity|].
  intros [Hc Hs]%andb_true_iff. apply negb_true_iff in Hc.
  rewrite (IH Hs), Hc. destruct s; reflexivity.
Qed.

Lemma numeric_no_space (s : string) :
  Py.all_chars numeric s = true ->
  Py.all_chars (fun c => negb (int_space c)) s = true.
Proof.
  apply all_chars_impl. intros c Hc. rewrite (numeric_not_space c Hc). reflexivity.
Qed.

Lemma py_int_decimal (s : string) (n : Z) :
  Py.all_chars Py.isdecimal s = true ->
  parse_digits 0 false s = Some n -> py_int s = Ok n.
Proof.
  intros Hs Hp. unfold py_int.
  assert (Py.all_chars (fun c => negb (int_space c)) s = true) as Hsp.
  { apply numeric_no_space. revert Hs. apply all_chars_impl, decimal_numeric. }
  rewrite (lstrip_by_none _ _ Hsp), (rstrip_by_none _ _ Hsp).
  destruct s as [|c s]; [cbn in Hp; discriminate|].
  cbn in Hs. apply andb_true_iff in Hs as [Hc _].
  destruct (decimal_not_sign c Hc) as [-> ->]. rewrite Hp. reflexivity.
Qed.

Lemma py_int_str_Z (n : Z) : py_int (str_Z n) = Ok n.
Proof.
  unfold str_Z. destruct (Z.ltb_spec n 0) as [Hneg|Hpos].
  - unfold py_int.
    assert (Py.all_chars (fun c => negb (int_space c)) (String "-" (digits (- n))) = true)
      as Hsp.
    { apply numeric_no_space. cbn [Py.all_chars]. apply andb_true_iff. split; [reflexivity|].
      generalize (digits_decimal (- n)). apply all_chars_impl, decimal_numeric. }
    rewrite (lstrip_by_none _ _ Hsp), (rstrip_by_none _ _ Hsp).
    change (Py.is_char "-" "-") with true. cbn iota.
    rewrite parse_digits_digits by lia. f_equal. lia.
  - apply py_int_decimal; [apply digits_decimal|].
    apply parse_digits_digits. exact Hpos.
Qed.

Lemma py_int_format_0d (width : nat) (n : Z) : 0 <= n -> py_int (format_0d width n) = Ok n.
Proof.
  intros Hn. unfold format_0d.
  destruct (Z.ltb_spec n 0) as [Hneg|_]; [lia|].
  apply py_int_decimal.
  - rewrite zeros_decimal. apply digits_decimal.
  - rewrite parse_digits_zeros. apply parse_digits_digits. exact Hn.
Qed.

Lemma str_Z_numeric (n : Z) : Py.all_chars numeric (str_Z n) = true.
Proof.
  unfold str_Z. destruct (n <? 0); cbn [Py.all_chars].
  - apply andb_true_iff. split; [reflexivity|].
    generalize (digits_decimal (- n)). apply all_chars_impl, decimal_numeric.
  - generalize (digits_decimal n). apply all_chars_impl, decimal_numeric.
Qed.

Lemma format_0d_numeric (width : nat) (n : Z) :
  0 <= n -> Py.all_chars numeric (format_0d width n) = true.
Proof.
  intros Hn. unfold format_0d. destruct (Z.ltb_spec n 0) as [Hneg|_]; [lia|].
  apply (all_chars_impl Py.isdecimal); [apply decimal_numeric|].
  rewrite zeros_decimal. apply digits_decimal.
Qed.

(** *** Fields and separators *)

Lemma replace_char_app (a b : ascii) (s t : string) :
  Py.replace_char a b (s +:+ t) = Py.replace_char a b s +:+ Py.replace_char a b t.
Proof. induction s as [|c s IH]; simpl; [reflexivity|]. rewrite IH. reflexivity. Qed.

Lemma replace_dot_numeric (b : ascii) (s : string) :
  Py.all_chars numeric s = true -> Py.replace_char "." b s = s.
Proof.
  induction s as [|c s IH]; cbn; [reflexivity|].
  intros [Hc Hs]%andb_true_iff.
  rewrite (numeric_not_dot c Hc), (IH Hs). reflexivity.
Qed.

Lemma split_colon_last (s : string) :
  Py.all_chars numeric s = true -> Py.split_char ":" s = [s].
Proof.
  induction s as [|c s IH]; cbn; [reflexivity|].
  intros [Hc Hs]%andb_true_iff.
  rewrite (numeric_not_colon c Hc), (IH Hs). reflexivity.
Qed.

Lemma split_colon_field (s rest : string) :
  Py.all_chars numeric s = true ->
  Py.split_char ":" (s +:+ ":" +:+ rest) = s :: Py.split_char ":" rest.
Proof.
  induction s as [|c s IH]; simpl; [reflexivity|].
  intros [Hc Hs]%andb_true_iff.
  rewrite (numeric_not_colon c Hc), (IH Hs). reflexivity.
Qed.

(** *** A dotted field is not an integer literal *)

Lemma dot_not_space : int_space "." = false.
Proof. reflexivity. Qed.

Lemma parse_digits_dot (ds rest : string) (a : Z) (b : bool) :
  Py.all_chars Py.isdecimal ds = true ->
  parse_digits a b (ds +:+ "." +:+ rest) = None.
Proof.
  revert a b. induction ds as [|c ds IH]; intros a b; [reflexivity|].
  cbn [Py.all_chars]. intros [Hc Hs]%andb_true_iff.
  rewrite append_cons. cbn [parse_digits]. rewrite Hc. apply IH. exact Hs.
Qed.

Lemma py_int_dotted (ds rest : string) (n : Z) :
  Py.all_chars Py.isdecimal ds = true -> parse_digits 0 false ds = Some n ->
  Py.all_chars Py.isdecimal rest = true ->
  py_int (ds +:+ "." +:+ rest) = Raised ValueError.
Proof.
  intros Hds Hn Hrest. unfold py_int.
  assert (Py.all_chars (fun c => negb (int_space c)) (ds +:+ "." +:+ rest) = true) as Hsp.
  { rewrite !all_chars_app. cbn [Py.all_chars].
    rewrite !(numeric_no_space _ (all_chars_impl _ _ _ decimal_numeric Hds)).
    rewrite !(numeric_no_space _ (all_chars_impl _ _ _ decimal_numeric Hrest)).
    reflexivity. }
  rewrite (lstrip_by_none _ _ Hsp), (rstrip_by_none _ _ Hsp).
  destruct ds as [|c ds]; [cbn in Hn; discriminate|].
  rewrite append_cons. cbn [Py.all_chars] in Hds.
  apply andb_true_iff in Hds as [Hc Hds].
  destruct (decimal_not_sign c Hc) as [-> ->].
  rewrite <- append_cons, parse_digits_dot; [reflexivity|].
  cbn [Py.all_chars]. rewrite Hc, Hds. reflexivity.
Qed.

Lemma numeric_absent_colon (s : string) :
  Py.all_chars numeric s = true -> Py.contains_char ":" s = false.
Proof.
  unfold Py.contains_char. induction s as [|c s IH]; [reflexivity|].
  cbn [Py.all_chars Py.has_char]. intros [Hc Hs]%andb_true_iff.
  rewrite (IH Hs). unfold Py.is_char. rewrite Ascii.eqb_sym, (numeric_not_colon c Hc).
  reflexivity.
Qed.

Lemma split_colon_dotted (s t : string) :
  Py.all_chars numeric s = true -> Py.all_chars numeric t = true ->
  Py.split_char ":" (s +:+ "." +:+ t) = [s +:+ "." +:+ t].
Proof.
  intros Hs Ht. induction s as [|c s IH].
  - rewrite append_nil, append_cons, append_nil. cbn [Py.split_char].
    change (Ascii.eqb "." ":") with false. cbv iota.
    rewrite (split_colon_last _ Ht). reflexivity.
  - cbn [Py.all_chars] in Hs. apply andb_true_iff in Hs as [Hc Hs].
    rewrite append_cons. cbn [Py.split_char].
    rewrite (numeric_not_colon c Hc), (IH Hs). reflexivity.
Qed.

Lemma format_0d_parse (width : nat) (n : Z) :
  0 <= n ->
  Py.all_chars Py.isdecimal (format_0d width n) = true /\
  parse_digits 0 false (format_0d width n) = Some n.
Proof.
  intros Hn. unfold format_0d. destruct (Z.ltb_spec n 0) as [Hneg|_]; [lia|].
  split.
  - rewrite zeros_decimal. apply digits_decimal.
  - rewrite parse_digits_zeros. apply parse_digits_digits. exact Hn.
Qed.

End Codec.

(** [format_laptime] renders [M:SS.mmm], and [lap_to_ms] splits at [:] only: the
    rendered text has two fields and the second one, [SS.mmm], is not an
    integer literal. *)
Example lap_to_ms_format_laptime_0 : lap_to_ms (format_laptime 0) = Raised ValueError.
Proof. reflexivity. Qed.

(** C2 (as stated, at [ms = 83456]).  Parsing the rendered text does not give
    the number back: [format_laptime 83456] is [1:23.456], on which
    [lap_to_ms] raises. *)
Lemma roundtrip_dotted_counterexample :
  0 <= 83456 <= 5999999 /\ lap_to_ms (format_laptime 83456) <> Ok 83456.
Proof. split; [lia|]. vm_compute. discriminate. Qed.

(** C2 (amended).  For every integer [ms], [lap_to_ms] returns [ms] on the
    text [format_laptime ms] with its [.] written as [:]; in particular for
    every [ms] in [[0, 5_999_999]]. *)
Theorem lap_to_ms_format_laptime_colon (ms : Z) :
  lap_to_ms (colon_form (format_laptime ms)) = Ok ms.
Proof.
  unfold colon_form, format_laptime.
  assert (0 <= (ms mod 60000) / 1000) as Hs
    by (apply Z.div_pos; [apply Z.mod_pos_bound|]; lia).
  assert (0 <= ms mod 1000) as Hm by (apply Z.mod_pos_bound; lia).
  rewrite !Codec.replace_char_app.
  rewrite (Codec.replace_dot_numeric _ _ (Codec.str_Z_numeric _)).
  rewrite (Codec.replace_dot_numeric _ _ (Codec.format_0d_numeric 2 _ Hs)).
  rewrite (Codec.replace_dot_numeric _ _ (Codec.format_0d_numeric 3 _ Hm)).
  change (Py.replace_char "." ":" ":") with (String ":" EmptyString).
  change (Py.replace_char "." ":" ".") with (String ":" EmptyString).
  unfold lap_to_ms.
  rewrite (Codec.split_colon_field _ _ (Codec.str_Z_numeric _)).
  rewrite (Codec.split_colon_field _ _ (Codec.format_0d_numeric 2 _ Hs)).
  rewrite (Codec.split_colon_last _ (Codec.format_0d_numeric 3 _ Hm)).
  rewrite Codec.py_int_str_Z. cbn [mbind result_bind].
  rewrite (Codec.py_int_format_0d 2 _ Hs). cbn [mbind result_bind].
  rewrite (Codec.py_int_format_0d 3 _ Hm). cbn [mbind result_bind].
  f_equal.
  Z.to_euclidean_division_equations. lia.
Qed.

(** On the rendered text itself [lap_to_ms] raises, whatever the number. *)
Lemma lap_to_ms_format_laptime_raises (ms : Z) :
  lap_to_ms (format_laptime ms) = Raised ValueError.
Proof.
  unfold format_laptime.
  assert (0 <= (ms mod 60000) / 1000) as Hs
    by (apply Z.div_pos; [apply Z.mod_pos_bound|]; lia).
  assert (0 <= ms mod 1000) as Hm by (apply Z.mod_pos_bound; lia).
  destruct (Codec.format_0d_parse 2 _ Hs) as [Hd2 Hp2].
  destruct (Codec.format_0d_parse 3 _ Hm) as [Hd3 _].
  unfold lap_to_ms.
  rewrite (Codec.split_colon_field _ _ (Codec.str_Z_numeric _)).
  rewrite (Codec.split_colon_dotted _ _ (Codec.format_0d_numeric 2 _ Hs)
             (Codec.format_0d_numeric 3 _ Hm)).
  rewrite Codec.py_int_str_Z. cbn [mbind result_bind].
  rewrite (Codec.py_int_dotted _ _ _ Hd2 Hp2 Hd3). reflexivity.
Qed.

(** ** C8: extraction on an extracted key *)

Module Track.

Lemma absent_cons (a c : ascii) (s : string) :
  absent a (String c s) -> Ascii.eqb a c = false /\ absent a s.
Proof. unfold absent, Py.contains_char. cbn. apply orb_false_iff. Qed.

Lemma unquote_plain (s : string) : absent "%" s -> unquote s = s.
Proof.
  induction s as [|c s IH]; [reflexivity|].
  intros [Hc Hs]%absent_cons. cbn [unquote]. unfold Py.is_char.
  rewrite Hc, (IH Hs). reflexivity.
Qed.

Lemma replace_char_plain (a b : ascii) (s : string) :
  absent a s -> Py.replace_char a b s = s.
Proof.
  induction s as [|c s IH]; [reflexivity|].
  intros [Hc Hs]%absent_cons. cbn [Py.replace_char].
  rewrite Ascii.eqb_sym, Hc, (IH Hs). reflexivity.
Qed.

Lemma split_char_plain (a : ascii) (s : string) :
  absent a s -> Py.split_char a s = [s].
Proof.
  induction s as [|c s IH]; [reflexivity|].
  intros [Hc Hs]%absent_cons. cbn [Py.split_char].
  rewrite Ascii.eqb_sym, Hc, (IH Hs). reflexivity.
Qed.

(** *** Stripped strings *)

Lemma trimmed_strip (s : string) : trimmed s -> Py.strip s = s.
Proof. intros [Hl Hr]. unfold Py.strip. rewrite Hl. exact Hr. Qed.

Lemma lstrip_by_head (p : ascii -> bool) (s : string) :
  match Py.lstrip_by p s with
  | String c _ => p c = false
  | EmptyString => True
  end.
Proof.
  induction s as [|c s IH]; cbn; [exact I|].
  destruct (p c) eqn:Hc; [exact IH|exact Hc].
Qed.

Lemma rstrip_by_idem (p : ascii -> bool) (s : string) :
  Py.rstrip_by p (Py.rstrip_by p s) = Py.rstrip_by p s.
Proof.
  induction s as [|c s IH]; [reflexivity|].
  cbn [Py.rstrip_by]. destruct (Py.rstrip_by p s) as [|d r] eqn:Hr.
  - destruct (p c) eqn:Hc; [reflexivity|]. cbn. rewrite Hc. reflexivity.
  - change (Py.rstrip_by p (String c (String d r)))
      with (match Py.rstrip_by p (String d r) with
            | EmptyString => if p c then EmptyString else String c EmptyString
            | x => String c x
            end).
    rewrite IH. reflexivity.
Qed.

Lemma rstrip_by_keeps_head (p : ascii -> bool) (c : ascii) (s : string) :
  p c = false -> exists r, Py.rstrip_by p (String c s) = String c r.
Proof.
  intros Hc. cbn [Py.rstrip_by]. destruct (Py.rstrip_by p s) as [|d r].
  - rewrite Hc. eexists. reflexivity.
  - eexists. reflexivity.
Qed.

Lemma strip_trimmed (s : string) : trimmed (Py.strip s).
Proof.
  unfold trimmed, Py.strip. split; [|apply rstrip_by_idem].
  pose proof (lstrip_by_head Py.isspace s) as Hh.
  destruct (Py.lstrip_by Py.isspace s) as [|c t]; [reflexivity|].
  destruct (rstrip_by_keeps_head Py.isspace c t Hh) as [r ->].
  cbn [Py.lstrip_by]. rewrite Hh. reflexivity.
Qed.

Lemma rstrip_by_app (p : ascii -> bool) (x b : string) :
  Py.rstrip_by p b = b -> b <> EmptyString -> Py.rstrip_by p (x +:+ b) = x +:+ b.
Proof.
  intros Hb Hne. induction x as [|c x IH]; [exact Hb|].
  change (String c x +:+ b) with (String c (x +:+ b)).
  cbn [Py.rstrip_by]. rewrite IH.
  destruct (x +:+ b) eqn:E; [|reflexivity].
  destruct x; simpl in E; [contradiction|discriminate].
Qed.

Lemma trimmed_join (a m b : string) :
  trimmed a -> a <> EmptyString -> trimmed b -> b <> EmptyString ->
  trimmed (a +:+ m +:+ b).
Proof.
  intros [Hla _] Ha [_ Hrb] Hb. split.
  - destruct a as [|c a]; [contradiction|].
    simpl. cbn [Py.lstrip_by] in Hla.
    destruct (Py.isspace c) eqn:Hc; [|reflexivity].
    exfalso. pose proof (f_equal String.length Hla) as Hlen.
    assert (forall s, (String.length (Py.lstrip_by Py.isspace s) <= String.length s)%nat)
      as Hle.
    { clear. induction s as [|d s IH]; cbn; [lia|]. destruct (Py.isspace d); cbn; lia. }
    specialize (Hle a). cbn in Hlen. lia.
  - rewrite <- append_assoc. apply rstrip_by_app; assumption.
Qed.

(** *** Tokens *)

Lemma lower_keeps_dash (s : string) :
  Py.contains_char "-" (Py.lower s) = Py.contains_char "-" s.
Proof.
  unfold Py.contains_char.
  induction s as [|c s IH]; [reflexivity|].
  cbn [Py.lower Py.has_char]. rewrite IH. f_equal.
  destruct c as [[] [] [] [] [] [] [] []]; reflexivity.
Qed.

Lemma dashed_not_bad (t : string) : Py.contains_char "-" t = true -> in_bad t = false.
Proof.
  intros Ht. unfold in_bad, bad. cbn [existsb].
  repeat match goal with
         | |- context [String.eqb t ?b] =>
             destruct (String.eqb_spec t b) as [->|_];
             [vm_compute in Ht; discriminate|]
         end.
  reflexivity.
Qed.

Lemma clean_tokens_trimmed (tokens : list string) (t : string) :
  In t (clean_tokens (map Py.strip tokens)) -> trimmed t /\ t <> EmptyString.
Proof.
  unfold clean_tokens. intros [Hin Hp]%filter_In.
  apply in_map_iff in Hin as [x [<- _]].
  split; [apply strip_trimmed|].
  intros E. rewrite E in Hp. discriminate.
Qed.

(** Every extracted key is stripped and non-empty. *)
Lemma parse_track_trimmed (raw s : string) :
  parse_track_from_string raw = Some s -> trimmed s /\ s <> EmptyString.
Proof.
  unfold parse_track_from_string.
  destruct (negb (Py.truthy raw)); [discriminate|].
  set (parts := clean_tokens _).
  assert (forall t, In t (rev parts) -> trimmed t /\ t <> EmptyString) as Hall.
  { intros t Ht. apply in_rev in Ht. revert Ht. apply clean_tokens_trimmed. }
  destruct (rev parts) as [|layout [|track rest]]; [discriminate| |].
  - intros [= <-]. apply Hall. left. reflexivity.
  - destruct (Hall layout (or_introl eq_refl)) as [Hl Hln].
    destruct (Hall track (or_intror (or_introl eq_refl))) as [Ht Htn].
    destruct (Py.contains_char "." layout); cbn [Py.truthy_opt default].
    + intros [= <-]. split; assumption.
    + destruct layout as [|c l]; [contradiction|]. cbn [Py.truthy].
      intros [= <-]. split.
      * apply trimmed_join; assumption.
      * destruct track; [contradiction|discriminate].
Qed.

(** A stripped string with a [-] and without separators or escapes is its own
    single token. *)
Lemma parse_track_self (s : string) :
  trimmed s -> Py.contains_char "-" s = true ->
  absent "/" s -> absent "\" s -> absent "%" s ->
  parse_track_from_string s = Some s.
Proof.
  intros Htr Hdash Hslash Hback Hpct. unfold parse_track_from_string.
  assert (Py.truthy s = true) as Hne by (destruct s; [discriminate|reflexivity]).
  rewrite Hne. cbn [negb].
  rewrite (unquote_plain _ Hpct), (replace_char_plain _ _ _ Hback),
    (split_char_plain _ _ Hslash).
  cbn [map]. rewrite (trimmed_strip _ Htr).
  unfold clean_tokens. cbn [List.filter].
  rewrite Hne, dashed_not_bad by (rewrite lower_keeps_dash; exact Hdash).
  reflexivity.
Qed.

End Track.

(** C8 (as stated, at a key with a space before it).  The string [ ks-gp]
    is of the form [track-layout], has no path separator, no [%], no [.] and
    is not a noise token, yet the extraction returns [ks-gp], not the string
    itself: every segment is stripped. *)
Lemma padded_key_counterexample :
  Py.contains_char "-" " ks-gp" = true /\
  Py.contains_char "/" " ks-gp" = false /\
  Py.contains_char "\" " ks-gp" = false /\
  Py.contains_char "%" " ks-gp" = false /\
  Py.contains_char "." " ks-gp" = false /\
  in_bad (Py.lower " ks-gp") = false /\
  parse_track_from_string " ks-gp" = Some "ks-gp" /\
  parse_track_from_string " ks-gp" <> Some " ks-gp".
Proof. repeat split; try reflexivity. discriminate. Qed.

(** C8 (amended).  Every string of the form [track-layout] (it has a [-])
    that has no white space at its start or end, no path separator, no [%]
    and no [.] is returned unchanged by [parse_track_from_string].  (Such a
    string is never a noise token.) *)
Theorem parse_track_idempotent (s : string) :
  Py.strip s = s ->
  Py.contains_char "-" s = true ->
  Py.contains_char "/" s = false ->
  Py.contains_char "\" s = false ->
  Py.contains_char "%" s = false ->
  Py.contains_char "." s = false ->
  parse_track_from_string s = Some s.
Proof.
  intros Hstrip Hdash Hslash Hback Hpct _.
  apply Track.parse_track_self; try assumption.
  rewrite <- Hstrip. apply Track.strip_trimmed.
Qed.

(** C8 at a key with track and layout. *)
Lemma parse_track_idempotent_witness :
  parse_track_from_string "ks_nordschleife-touristenfahrten"
  = Some "ks_nordschleife-touristenfahrten".
Proof. apply parse_track_idempotent; reflexivity. Defined.

(** ** What a match tells about its groups *)

Module ReFacts.

Lemma or_else_some {A} (x y : option A) (a : A) :
  Re.or_else x y = Some a -> x = Some a \/ y = Some a.
Proof. destruct x; cbn; auto. Qed.

(** A repetition takes a run of characters of its class, at least [min] with
    the [n] already taken, and hands the rest to the continuation. *)
Lemma rep_loop_some (greedy : bool) (min : nat) (cls : ascii -> bool)
    (k : string -> option Re.groups) (s : string) :
  forall (n : nat) (g : Re.groups),
    Re.rep_loop greedy min cls k n s = Some g ->
    exists pre post,
      s = pre +:+ post /\ Py.all_chars cls pre = true /\
      (min <= n + String.length pre)%nat /\ k post = Some g.
Proof.
  induction s as [|c s IH]; intros n g H.
  - cbn [Re.rep_loop] in H.
    assert ((if (min <=? n)%nat then k EmptyString else None) = Some g) as Hstop.
    { destruct greedy; apply or_else_some in H as [H|H]; (discriminate || exact H). }
    destruct (Nat.leb_spec min n) as [Hle|]; [|discriminate].
    exists EmptyString, EmptyString. cbn. repeat split; [lia|exact Hstop].
  - cbn [Re.rep_loop] in H.
    assert ((if (min <=? n)%nat then k (String c s) else None) = Some g \/
            (if cls c then Re.rep_loop greedy min cls k (S n) s else None) = Some g)
      as [Hstop|Hmore].
    { destruct greedy; apply or_else_some in H as [H|H]; auto. }
    + destruct (Nat.leb_spec min n) as [Hle|]; [|discriminate].
      exists EmptyString, (String c s). cbn. repeat split; [lia|exact Hstop].
    + destruct (cls c) eqn:Hc; [|discriminate].
      destruct (IH _ _ Hmore) as (pre & post & -> & Hpre & Hmin & Hk).
      exists (String c pre), post. rewrite append_cons. cbn [Py.all_chars String.length].
      rewrite Hc, Hpre. repeat split; [lia|exact Hk].
Qed.

Lemma re_search_some (r : Re.pattern) (s : string) (g : Re.groups) :
  Re.re_search r s = Some g -> exists s', Re.exec r s' Re.no_groups = Some g.
Proof.
  induction s as [|c s IH]; cbn [Re.re_search].
  - destruct (Re.exec r EmptyString Re.no_groups) eqn:E; [|discriminate].
    intros [= <-]. eauto.
  - destruct (Re.exec r (String c s) Re.no_groups) eqn:E.
    + intros [= <-]. eauto.
    + exact IH.
Qed.

Lemma take_app_length (pre post : string) :
  Py.take (String.length (pre +:+ post) - String.length post) (pre +:+ post) = pre.
Proof.
  rewrite append_length.
  replace (String.length pre + String.length post - String.length post)%nat
    with (String.length pre) by lia.
  induction pre as [|c pre IH]; cbn [String.length Py.take].
  - destruct (EmptyString +:+ post); reflexivity.
  - rewrite append_cons. cbn [Py.take]. rewrite IH. reflexivity.
Qed.

(** The group of a [Cuts:] match is a non-empty run of decimal digits. *)
Lemma cuts_group_decimal (line : string) (m : Re.groups) :
  Re.re_search cuts_re line = Some m ->
  Py.all_chars Py.isdecimal (Re.group m "1") = true /\ Re.group m "1" <> EmptyString.
Proof.
  intros (s & H)%re_search_some. unfold cuts_re in H. cbn [Re.exec] in H.
  destruct (Re.drop_lit true "Cuts:" s) as [s1|]; [|discriminate].
  apply rep_loop_some in H as (_ & s2 & _ & _ & _ & H).
  cbn [Re.exec] in H.
  apply rep_loop_some in H as (pre & post & -> & Hpre & Hmin & H).
  injection H as <-.
  assert (Re.group (Re.close_group "1" post (Re.open_group "1" (pre +:+ post) Re.no_groups)) "1"
          = pre) as ->.
  { unfold Re.close_group, Re.open_group, Re.group. cbn.
    apply take_app_length. }
  split; [exact Hpre|]. intros ->. cbn in Hmin. lia.
Qed.

Lemma parse_digits_decimal (s : string) :
  Py.all_chars Py.isdecimal s = true -> s <> EmptyString ->
  forall (a : Z) (b : bool), exists n, parse_digits a b s = Some n.
Proof.
  induction s as [|c s IH]; [contradiction|].
  cbn [Py.all_chars]. intros [Hc Hs]%andb_true_iff _ a b.
  cbn [parse_digits]. rewrite Hc.
  destruct s as [|d s]; [cbn; eauto|].
  apply IH; [exact Hs|discriminate].
Qed.

(** [int()] cannot fail on the digits of a [Cuts:] match. *)
Lemma cuts_int (line : string) (m : Re.groups) :
  Re.re_search cuts_re line = Some m -> exists n, py_int (Re.group m "1") = Ok n.
Proof.
  intros [Hd Hne]%cuts_group_decimal.
  destruct (parse_digits_decimal _ Hd Hne 0 false) as [n Hn].
  exists n. apply Codec.py_int_decimal; assumption.
Qed.

End ReFacts.

(** ** Which handler touches which part of the state *)

Module Frame.

Lemma observe_is_set_observed (st : state) (raw_line : string) :
  exists tc cc, observe st raw_line = set_observed st tc cc.
Proof.
  unfold observe. destruct (scan_track _ _ _) as [[tc cc] done]. eauto.
Qed.

Lemma observe_rest (st : state) (raw_line : string) :
  rest_of (observe st raw_line) = rest_of st.
Proof. destruct (observe_is_set_observed st raw_line) as (tc & cc & ->). reflexivity. Qed.

Lemma observe_queue st l : pending_cars_queue (observe st l) = pending_cars_queue st.
Proof. pose proof (observe_rest st l) as H. unfold rest_of in H. congruence. Qed.

Lemma observe_map st l : player_car_map (observe st l) = player_car_map st.
Proof. pose proof (observe_rest st l) as H. unfold rest_of in H. congruence. Qed.

Lemma observe_positions st l : file_positions (observe st l) = file_positions st.
Proof. pose proof (observe_rest st l) as H. unfold rest_of in H. congruence. Qed.

Lemma observe_last_lap st l : last_lap (observe st l) = last_lap st.
Proof. pose proof (observe_rest st l) as H. unfold rest_of in H. congruence. Qed.

Lemma observe_pending_laps st l : pending_laps (observe st l) = pending_laps st.
Proof. pose proof (observe_rest st l) as H. unfold rest_of in H. congruence. Qed.

Lemma observe_db st l : db (observe st l) = db st.
Proof. pose proof (observe_rest st l) as H. unfold rest_of in H. congruence. Qed.

Lemma observe_printed st l : printed (observe st l) = printed st.
Proof. pose proof (observe_rest st l) as H. unfold rest_of in H. congruence. Qed.

Lemma flush_pending_kept (st : state) (player : string) :
  flush_kept (flush_pending st player) = flush_kept st.
Proof.
  unfold flush_pending. generalize (pending_laps st) at 1. intros laps.
  revert st. induction laps as [|lap laps IH]; intros st; [reflexivity|].
  cbn [fold_left]. rewrite IH. destruct (decide (pl_player lap = player)); reflexivity.
Qed.

Lemma flush_pending_queue st p :
  pending_cars_queue (flush_pending st p) = pending_cars_queue st.
Proof. pose proof (flush_pending_kept st p) as H. unfold flush_kept in H. congruence. Qed.

Lemma flush_pending_map st p : player_car_map (flush_pending st p) = player_car_map st.
Proof. pose proof (flush_pending_kept st p) as H. unfold flush_kept in H. congruence. Qed.

Lemma flush_pending_positions st p : file_positions (flush_pending st p) = file_positions st.
Proof. pose proof (flush_pending_kept st p) as H. unfold flush_kept in H. congruence. Qed.

Lemma flush_pending_last_lap st p : last_lap (flush_pending st p) = last_lap st.
Proof. pose proof (flush_pending_kept st p) as H. unfold flush_kept in H. congruence. Qed.

Lemma assign_car_positions st p : file_positions (assign_car st p) = file_positions st.
Proof. unfold assign_car. destruct (first_unset _) as [[i pc]|]; reflexivity. Qed.

Lemma assign_car_last_lap st p : last_lap (assign_car st p) = last_lap st.
Proof. unfold assign_car. destruct (first_unset _) as [[i pc]|]; reflexivity. Qed.

Lemma on_cuts_kept (st st' : state) (m : Re.groups) :
  on_cuts st m = Ok st' ->
  file_positions st' = file_positions st /\
  player_car_map st' = player_car_map st /\
  pending_cars_queue st' = pending_cars_queue st /\
  observed_track_candidate st' = observed_track_candidate st /\
  observed_config_candidate st' = observed_config_candidate st.
Proof.
  unfold on_cuts. destruct (last_lap st) as [ll|]; [|intros [= <-]; auto].
  destruct (py_int _) as [cuts|e]; [|discriminate]. cbn [mbind result_bind].
  intros [= <-]. destruct (cuts =? 0); [|auto].
  destruct (Py.truthy_opt _); auto.
Qed.

Lemma on_lap_kept (st st' : state) (m : Re.groups) :
  on_lap st m = Ok st' ->
  exists c, st' = set_last_lap st (Some c).
Proof.
  unfold on_lap. destruct (lap_to_ms _) as [ms|e]; [|discriminate].
  cbn [mbind result_bind]. intros [= <-]. eauto.
Qed.

(** No line changes the stored offsets. *)
Lemma loop_body_positions (st st' : state) (raw_line : string) :
  loop_body st raw_line = Ok st' -> file_positions st' = file_positions st.
Proof.
  rewrite loop_body_classify.
  destruct (classify raw_line) as [| |m|m|m|m|]; cbn [step_of_kind].
  - intros [= <-]. reflexivity.
  - intros [= <-]. apply observe_positions.
  - intros [= <-]. cbn. apply observe_positions.
  - intros [= <-]. unfold on_driver_accepted.
    destruct (_ || _); [apply observe_positions|].
    rewrite flush_pending_positions, assign_car_positions. apply observe_positions.
  - intros H. apply on_cuts_kept in H as (-> & _). apply observe_positions.
  - intros H. apply on_lap_kept in H as (c & ->). cbn. apply observe_positions.
  - intros [= <-]. apply observe_positions.
Qed.

Lemma run_positions (lines : list string) :
  forall st st', run st lines = Ok st' -> file_positions st' = file_positions st.
Proof.
  induction lines as [|l ls IH]; intros st st'; cbn [run].
  - intros [= <-]. reflexivity.
  - destruct (loop_body st l) as [st1|e] eqn:E; [|discriminate].
    cbn [mbind result_bind]. intros H. rewrite (IH _ _ H).
    apply (loop_body_positions _ _ _ E).
Qed.

End Frame.

(** ** C7: the stored offsets *)

Module Tailer.

Lemma drop_app_length (c a : string) : Py.drop (String.length c) (c +:+ a) = a.
Proof. induction c as [|x c IH]; [destruct a; reflexivity|exact IH]. Qed.

(** One file of a poll: the lines from the stored offset on are run, and the
    offset becomes the end of the file. *)
Lemma poll_file_run (st st' : state) (logfile content : string) :
  poll_file st (logfile, content) = Ok st' ->
  exists st1,
    run (match file_positions st !! logfile with
         | Some _ => st
         | None => set_file_positions st (<[logfile := O]> (file_positions st))
         end) (new_lines st logfile content) = Ok st1 /\
    st' = set_file_positions st1
            (<[logfile := tell_at_end (offset_of st logfile) content]> (file_positions st)).
Proof.
  unfold poll_file.
  set (st0 := match file_positions st !! logfile with Some _ => st | None => _ end).
  assert (offset_of st0 logfile = offset_of st logfile) as Hoff.
  { unfold st0, offset_of. destruct (file_positions st !! logfile) eqn:E.
    - rewrite E. reflexivity.
    - cbn. rewrite lookup_insert_eq. reflexivity. }
  assert (new_lines st0 logfile content = new_lines st logfile content) as Hlines.
  { unfold new_lines. rewrite Hoff. reflexivity. }
  rewrite Hlines, Hoff.
  destruct (run st0 _) as [st1|e] eqn:Hrun; [|discriminate].
  cbn [mbind result_bind]. intros [= <-]. exists st1. split; [reflexivity|].
  rewrite (Frame.run_positions _ _ _ Hrun). f_equal.
  unfold st0. destruct (file_positions st !! logfile) eqn:E; [reflexivity|].
  cbn. apply insert_insert_eq.
Qed.

Lemma poll_file_positions (st st' : state) (logfile content : string) :
  poll_file st (logfile, content) = Ok st' ->
  file_positions st' =
  <[logfile := tell_at_end (offset_of st logfile) content]> (file_positions st).
Proof. intros (st1 & _ & ->)%poll_file_run. reflexivity. Qed.

Lemma poll_file_offset_same (st st' : state) (logfile content : string) :
  poll_file st (logfile, content) = Ok st' ->
  file_positions st' !! logfile = Some (tell_at_end (offset_of st logfile) content).
Proof. intros ->%poll_file_positions. apply lookup_insert_eq. Qed.

Lemma poll_file_offset_other (st st' : state) (logfile content other : string) :
  logfile <> other ->
  poll_file st (logfile, content) = Ok st' ->
  file_positions st' !! other = file_positions st !! other.
Proof. intros Hne ->%poll_file_positions. apply lookup_insert_ne. exact Hne. Qed.

Lemma poll_file_monotone (st st' : state) (file : string * string) (logfile : string) :
  poll_file st file = Ok st' -> (offset_of st logfile <= offset_of st' logfile)%nat.
Proof.
  destruct file as [p content]. intros H.
  destruct (decide (p = logfile)) as [->|Hne].
  - unfold offset_of at 2. rewrite (poll_file_offset_same _ _ _ _ H).
    cbn. unfold tell_at_end. lia.
  - unfold offset_of. rewrite (poll_file_offset_other _ _ _ _ _ Hne H). lia.
Qed.

(** Whatever the files hold, a poll that completes never lowers an offset. *)
Lemma poll_monotone (files : list (string * string)) (logfile : string) :
  forall st st', poll st files = Ok st' ->
                 (offset_of st logfile <= offset_of st' logfile)%nat.
Proof.
  induction files as [|f fs IH]; intros st st'; cbn [poll].
  - intros [= <-]. lia.
  - destruct (poll_file st f) as [st1|e] eqn:E; [|discriminate].
    cbn [mbind result_bind]. intros H.
    pose proof (poll_file_monotone _ _ _ logfile E). specialize (IH _ _ H). lia.
Qed.

Lemma poll_offset_other (files : list (string * string)) (logfile : string) :
  ~ In logfile (map fst files) ->
  forall st st', poll st files = Ok st' ->
                 file_positions st' !! logfile = file_positions st !! logfile.
Proof.
  induction files as [|[p c] fs IH]; intros Hnot st st'; cbn [poll].
  - intros [= <-]. reflexivity.
  - destruct (poll_file st (p, c)) as [st1|e] eqn:E; [|discriminate].
    cbn [mbind result_bind]. intros H.
    rewrite (IH (fun Hin => Hnot (or_intror Hin)) _ _ H).
    apply (poll_file_offset_other _ _ _ _ _ (fun Heq => Hnot (or_introl Heq)) E).
Qed.

(** The state in which a poll reaches one of its files. *)
Lemma poll_split (files : list (string * string)) (logfile content : string) :
  In (logfile, content) files ->
  forall st st', poll st files = Ok st' ->
  exists before after st_at st_next,
    files = before ++ (logfile, content) :: after /\
    poll st before = Ok st_at /\
    poll_file st_at (logfile, content) = Ok st_next /\
    poll st_next after = Ok st'.
Proof.
  induction files as [|f fs IH]; intros Hin st st'; [contradiction|].
  cbn [poll]. destruct (poll_file st f) as [st1|e] eqn:E; [|discriminate].
  cbn [mbind result_bind]. intros H. destruct Hin as [->|Hin].
  - exists [], fs, st, st1. repeat split; assumption.
  - destruct (IH Hin _ _ H) as (before & after & st_at & st_next & -> & H1 & H2 & H3).
    exists (f :: before), after, st_at, st_next. repeat split; try assumption.
    cbn [poll]. rewrite E. exact H1.
Qed.

Lemma NoDup_split_fst (before after : list (string * string)) (p : string * string) :
  NoDup (map fst (before ++ p :: after)) ->
  ~ In (fst p) (map fst before) /\ ~ In (fst p) (map fst after).
Proof.
  rewrite map_app. cbn [map]. intros H.
  apply NoDup_ListNoDup in H. apply List.NoDup_remove_2 in H.
  rewrite in_app_iff in H. tauto.
Qed.

End Tailer.

(** C7.  Take two successive polls that complete, and a file that the glob
    finds in both, with content [c] at the first poll and [c] followed by the
    appended bytes [a] at the second, and whose stored offset was within [c]
    before.  Then the stored offset of the file is [length c] after the first
    poll and [length (c ++ a)] after the second, it never decreases, and in
    the second poll the file is reached in a state where the lines read are
    exactly the lines of [a]. *)
Theorem offsets_follow_appends
    (st st1 st2 : state) (files1 files2 : list (string * string))
    (logfile c a : string) :
  NoDup (map fst files1) -> NoDup (map fst files2) ->
  In (logfile, c) files1 -> In (logfile, c +:+ a) files2 ->
  (offset_of st logfile <= String.length c)%nat ->
  poll st files1 = Ok st1 ->
  poll st1 files2 = Ok st2 ->
  file_positions st1 !! logfile = Some (String.length c) /\
  file_positions st2 !! logfile = Some (String.length (c +:+ a)) /\
  (offset_of st logfile <= offset_of st1 logfile <= offset_of st2 logfile)%nat /\
  exists before after st_at st_read,
    files2 = before ++ (logfile, c +:+ a) :: after /\
    poll st1 before = Ok st_at /\
    new_lines st_at logfile (c +:+ a) = lines_of a /\
    run st_at (lines_of a) = Ok st_read.
Proof.
  intros Hnd1 Hnd2 Hin1 Hin2 Hoff Hp1 Hp2.
  destruct (Tailer.poll_split _ _ _ Hin1 _ _ Hp1)
    as (b1 & a1 & s1 & s1' & -> & Hb1 & Hf1 & Ha1).
  destruct (Tailer.NoDup_split_fst _ _ _ Hnd1) as [Hnb1 Hna1]. cbn [fst] in *.
  assert (file_positions st1 !! logfile = Some (String.length c)) as Hst1.
  { rewrite (Tailer.poll_offset_other _ _ Hna1 _ _ Ha1).
    rewrite (Tailer.poll_file_offset_same _ _ _ _ Hf1).
    unfold offset_of. rewrite (Tailer.poll_offset_other _ _ Hnb1 _ _ Hb1).
    unfold offset_of in Hoff. unfold tell_at_end. f_equal. lia. }
  destruct (Tailer.poll_split _ _ _ Hin2 _ _ Hp2)
    as (b2 & a2 & s2 & s2' & -> & Hb2 & Hf2 & Ha2).
  destruct (Tailer.NoDup_split_fst _ _ _ Hnd2) as [Hnb2 Hna2]. cbn [fst] in *.
  assert (file_positions s2 !! logfile = Some (String.length c)) as Hs2.
  { rewrite (Tailer.poll_offset_other _ _ Hnb2 _ _ Hb2). exact Hst1. }
  assert (file_positions st2 !! logfile = Some (String.length (c +:+ a))) as Hst2.
  { rewrite (Tailer.poll_offset_other _ _ Hna2 _ _ Ha2).
    rewrite (Tailer.poll_file_offset_same _ _ _ _ Hf2).
    unfold offset_of. rewrite Hs2. unfold tell_at_end, default, id.
    pose proof (append_length c a). f_equal. lia. }
  assert (new_lines s2 logfile (c +:+ a) = lines_of a) as Hlines.
  { unfold new_lines, offset_of. rewrite Hs2. unfold default, id.
    rewrite Tailer.drop_app_length. reflexivity. }
  split; [exact Hst1|]. split; [exact Hst2|]. split.
  - unfold offset_of at 2 3 4. rewrite Hst1, Hst2. unfold default, id.
    pose proof (append_length c a). lia.
  - apply Tailer.poll_file_run in Hf2 as (st_read & Hrun & _).
    rewrite Hs2, Hlines in Hrun.
    exists b2, a2, s2, st_read. repeat split; assumption.
Qed.

(** C7 at a log that receives one more line between two polls. *)
Lemma offsets_follow_appends_witness :
  exists st1 st2,
    poll (initial_state empty_store)
      [("output_1", "REQUESTED CAR: ks_audi_r8_lms" +:+ String "010" EmptyString)] = Ok st1 /\
    poll st1
      [("output_1", ("REQUESTED CAR: ks_audi_r8_lms" +:+ String "010" EmptyString)
                      +:+ ("DRIVER ACCEPTED FOR CAR Alice" +:+ String "010" EmptyString))]
      = Ok st2 /\
    file_positions st1 !! "output_1" = Some 30%nat /\
    file_positions st2 !! "output_1" = Some 60%nat /\
    player_car_map st2 !! "Alice" = Some "ks_audi_r8_lms".
Proof.
  eexists. eexists.
  split; [vm_compute; reflexivity|]. split; [vm_compute; reflexivity|].
  refine (let H := offsets_follow_appends (initial_state empty_store) _ _
            [("output_1", "REQUESTED CAR: ks_audi_r8_lms" +:+ String "010" EmptyString)]
            [("output_1", ("REQUESTED CAR: ks_audi_r8_lms" +:+ String "010" EmptyString)
                      +:+ ("DRIVER ACCEPTED FOR CAR Alice" +:+ String "010" EmptyString))]
            "output_1" ("REQUESTED CAR: ks_audi_r8_lms" +:+ String "010" EmptyString)
            ("DRIVER ACCEPTED FOR CAR Alice" +:+ String "010" EmptyString)
            _ _ _ _ _ _ _ in _).
  - destruct H as (H1 & H2 & _). split; [exact H1|]. split; [exact H2|].
    vm_compute. reflexivity.
  Unshelve.
  all: try (vm_compute; reflexivity).
  all: try (apply NoDup_singleton).
  all: try (left; reflexivity).
  all: try (vm_compute; lia).
Defined.

(** ** C5 and C10: the queue of car requests *)

Module Queue.

Lemma loop_body_requested (st : state) (raw_line car : string) :
  requested_car raw_line = Some car ->
  loop_body st raw_line =
  Ok (set_pending_cars_queue (observe st raw_line)
        (pending_cars_queue st ++ [{| req_player := None; req_car := car |}])).
Proof.
  unfold requested_car. rewrite loop_body_classify.
  destruct (classify raw_line); try discriminate.
  intros [= <-]. cbn [step_of_kind]. unfold on_requested_car.
  rewrite Frame.observe_queue. reflexivity.
Qed.

Lemma loop_body_accepted (st : state) (raw_line player : string) :
  accepted_driver raw_line = Some player ->
  loop_body st raw_line =
  Ok (flush_pending (assign_car (observe st raw_line) player) player).
Proof.
  unfold accepted_driver. rewrite loop_body_classify.
  destruct (classify raw_line); try discriminate.
  cbn [step_of_kind]. unfold on_driver_accepted.
  destruct (_ || _); [discriminate|]. intros [= <-]. reflexivity.
Qed.

Lemma first_unset_head (q : list car_request) (r : car_request) :
  req_player r = None -> first_unset (r :: q) = Some (O, r).
Proof. intros H. cbn. rewrite H. reflexivity. Qed.

Lemma first_unset_all_unset (q : list car_request) :
  Forall (fun r => req_player r = None) q ->
  first_unset q = match q with [] => None | r :: _ => Some (O, r) end.
Proof. intros [|r q' Hr _]; [reflexivity|]. apply first_unset_head. exact Hr. Qed.

(** With an unset request at the head, the driver gets its car and the
    request leaves the queue. *)
Lemma assign_car_head (st : state) (player car : string) (q : list car_request) :
  pending_cars_queue st = {| req_player := None; req_car := car |} :: q ->
  player_car_map (assign_car st player) = <[player := car]> (player_car_map st) /\
  pending_cars_queue (assign_car st player) = q.
Proof.
  intros Hq. unfold assign_car. rewrite Hq. cbn [first_unset req_player req_car].
  cbn. split; [reflexivity|].
  destruct (decide _) as [_|Hne]; [reflexivity|]. contradiction Hne. reflexivity.
Qed.

(** With no unset request, the driver gets the car [unknown]. *)
Lemma assign_car_none (st : state) (player : string) :
  first_unset (pending_cars_queue st) = None ->
  player_car_map (assign_car st player) = <[player := "unknown"]> (player_car_map st) /\
  pending_cars_queue (assign_car st player) = pending_cars_queue st.
Proof. intros H. unfold assign_car. rewrite H. split; reflexivity. Qed.

Lemma accepted_head (st st' : state) (raw_line player car : string)
    (q : list car_request) :
  pending_cars_queue st = {| req_player := None; req_car := car |} :: q ->
  accepted_driver raw_line = Some player ->
  loop_body st raw_line = Ok st' ->
  player_car_map st' = <[player := car]> (player_car_map st) /\
  pending_cars_queue st' = q.
Proof.
  intros Hq Hacc. rewrite (loop_body_accepted _ _ _ Hacc). intros [= <-].
  rewrite Frame.flush_pending_map, Frame.flush_pending_queue.
  rewrite <- (Frame.observe_queue st raw_line) in Hq.
  destruct (assign_car_head _ player _ _ Hq) as [-> ->].
  rewrite Frame.observe_map. split; reflexivity.
Qed.

Lemma accepted_none (st st' : state) (raw_line player : string) :
  first_unset (pending_cars_queue st) = None ->
  accepted_driver raw_line = Some player ->
  loop_body st raw_line = Ok st' ->
  player_car_map st' = <[player := "unknown"]> (player_car_map st) /\
  pending_cars_queue st' = pending_cars_queue st.
Proof.
  intros Hq Hacc. rewrite (loop_body_accepted _ _ _ Hacc). intros [= <-].
  rewrite Frame.flush_pending_map, Frame.flush_pending_queue.
  rewrite <- (Frame.observe_queue st raw_line) in Hq.
  destruct (assign_car_none _ player Hq) as [-> ->].
  rewrite Frame.observe_map, Frame.observe_queue. split; reflexivity.
Qed.

Lemma on_lap_queue (st st' : state) (m : Re.groups) :
  on_lap st m = Ok st' -> pending_cars_queue st' = pending_cars_queue st.
Proof. intros (c & ->)%Frame.on_lap_kept. reflexivity. Qed.

(** One line keeps every queued request without a player. *)
Lemma loop_body_unset (st st' : state) (raw_line : string) :
  Forall (fun r => req_player r = None) (pending_cars_queue st) ->
  loop_body st raw_line = Ok st' ->
  Forall (fun r => req_player r = None) (pending_cars_queue st').
Proof.
  intros Hinv. rewrite loop_body_classify.
  destruct (classify raw_line) as [| |m|m|m|m|] eqn:Hk; cbn [step_of_kind].
  - intros [= <-]. exact Hinv.
  - intros [= <-]. rewrite Frame.observe_queue. exact Hinv.
  - intros [= <-]. unfold on_requested_car. cbn. rewrite Frame.observe_queue.
    apply Forall_app. split; [exact Hinv|]. constructor; [reflexivity|constructor].
  - intros [= <-]. unfold on_driver_accepted.
    destruct (_ || _); [rewrite Frame.observe_queue; exact Hinv|].
    rewrite Frame.flush_pending_queue.
    set (player := Py.strip _).
    destruct (pending_cars_queue st) as [|[p car] q] eqn:Hq.
    + assert (first_unset (pending_cars_queue (observe st raw_line)) = None) as Hnone
        by (rewrite Frame.observe_queue, Hq; reflexivity).
      destruct (assign_car_none _ player Hnone) as [_ ->].
      rewrite Frame.observe_queue, Hq. constructor.
    + inversion Hinv as [|? ? Hp Hrest]; subst. cbn in Hp. subst p.
      rewrite <- (Frame.observe_queue st raw_line) in Hq.
      destruct (assign_car_head _ player _ _ Hq) as [_ ->]. exact Hrest.
  - intros H. apply Frame.on_cuts_kept in H as (_ & _ & -> & _).
    rewrite Frame.observe_queue. exact Hinv.
  - intros H. rewrite (on_lap_queue _ _ _ H), Frame.observe_queue. exact Hinv.
  - intros [= <-]. rewrite Frame.observe_queue. exact Hinv.
Qed.

End Queue.

(** C10.  In every state the loop passes through between two lines, each
    request in [pending_cars_queue] has no player; and a driver-accepted line
    processed in such a state leaves the queue without its first request (the
    one it filled, if there was one). *)
Theorem queued_requests_have_no_player (d : store) (st : state) :
  reachable d st ->
  Forall (fun r => req_player r = None) (pending_cars_queue st) /\
  forall (raw_line player : string) (st' : state),
    accepted_driver raw_line = Some player ->
    loop_body st raw_line = Ok st' ->
    pending_cars_queue st' = tail (pending_cars_queue st).
Proof.
  intros Hreach.
  assert (Forall (fun r => req_player r = None) (pending_cars_queue st)) as Hinv.
  { induction Hreach as [|st raw_line st' _ IH Hstep|st fp _ IH].
    - constructor.
    - exact (Queue.loop_body_unset _ _ _ IH Hstep).
    - exact IH. }
  split; [exact Hinv|].
  intros raw_line player st' Hacc Hstep.
  destruct (pending_cars_queue st) as [|[p car] q] eqn:Hq.
  - assert (first_unset (pending_cars_queue st) = None) as Hnone by (rewrite Hq; reflexivity).
    destruct (Queue.accepted_none _ _ _ _ Hnone Hacc Hstep) as [_ ->].
    rewrite Hq. reflexivity.
  - inversion Hinv as [|? ? Hp _]; subst. cbn in Hp. subst p.
    destruct (Queue.accepted_head _ _ _ _ _ _ Hq Hacc Hstep) as [_ ->]. reflexivity.
Qed.

(** C10 at the state after one car-request line. *)
Lemma queued_requests_have_no_player_witness :
  Forall (fun r => req_player r = None)
    [{| req_player := None; req_car := "ks_porsche_911_gt3_r_2016" |}].
Proof.
  refine (proj1 (queued_requests_have_no_player empty_store
    (set_pending_cars_queue (initial_state empty_store)
       [{| req_player := None; req_car := "ks_porsche_911_gt3_r_2016" |}]) _)).
  apply (reach_line empty_store (initial_state empty_store)
           "REQUESTED CAR: ks_porsche_911_gt3_r_2016*").
  - apply reach_start.
  - vm_compute. reflexivity.
Defined.

(** C5.  From a state with an empty queue, car-request lines for [A] then [B]
    followed by driver-accepted lines for [P1] then [P2]: after the line of
    [P1] the map sends [P1] to [A], after the line of [P2] it sends [P2] to
    [B] (and still [P1] to [A] when the two players differ), and the queue is
    empty again.  And a driver-accepted line for [P] met when no request
    waits maps [P] to [unknown]. *)
Theorem fifo_car_assignment :
  (forall (st : state) (l1 l2 l3 l4 A B P1 P2 : string),
     pending_cars_queue st = [] ->
     requested_car l1 = Some A -> requested_car l2 = Some B ->
     accepted_driver l3 = Some P1 -> accepted_driver l4 = Some P2 ->
     exists st3 st4,
       run st [l1; l2; l3] = Ok st3 /\
       player_car_map st3 !! P1 = Some A /\
       pending_cars_queue st3 = [{| req_player := None; req_car := B |}] /\
       run st [l1; l2; l3; l4] = Ok st4 /\
       player_car_map st4 !! P2 = Some B /\
       (P1 <> P2 -> player_car_map st4 !! P1 = Some A) /\
       pending_cars_queue st4 = []) /\
  (forall (st : state) (l P : string),
     first_unset (pending_cars_queue st) = None ->
     accepted_driver l = Some P ->
     exists st', loop_body st l = Ok st' /\
                 player_car_map st' !! P = Some "unknown").
Proof.
  split.
  - intros st l1 l2 l3 l4 A B P1 P2 Hq HA HB HP1 HP2.
    cbn [run].
    rewrite (Queue.loop_body_requested _ _ _ HA). cbn [mbind result_bind].
    rewrite (Queue.loop_body_requested _ _ _ HB). cbn [mbind result_bind].
    rewrite Hq. cbn [pending_cars_queue set_pending_cars_queue app].
    set (st2 := set_pending_cars_queue _ _).
    assert (pending_cars_queue st2 =
            {| req_player := None; req_car := A |}
              :: [{| req_player := None; req_car := B |}]) as Hq2 by reflexivity.
    destruct (loop_body st2 l3) as [st3|e] eqn:H3;
      [|rewrite (Queue.loop_body_accepted _ _ _ HP1) in H3; discriminate].
    destruct (Queue.accepted_head _ _ _ _ _ _ Hq2 HP1 H3) as [Hm3 Hq3].
    cbn [mbind result_bind].
    destruct (loop_body st3 l4) as [st4|e] eqn:H4;
      [|rewrite (Queue.loop_body_accepted _ _ _ HP2) in H4; discriminate].
    destruct (Queue.accepted_head _ _ _ _ _ _ Hq3 HP2 H4) as [Hm4 Hq4].
    cbn [mbind result_bind].
    exists st3, st4. repeat split; try assumption; try reflexivity.
    + rewrite Hm3. apply lookup_insert_eq.
    + rewrite Hm4. apply lookup_insert_eq.
    + intros Hne. rewrite Hm4, lookup_insert_ne by (intros E; apply Hne; symmetry; exact E).
      rewrite Hm3. apply lookup_insert_eq.
  - intros st l P Hq HP.
    destruct (loop_body st l) as [st'|e] eqn:H;
      [|rewrite (Queue.loop_body_accepted _ _ _ HP) in H; discriminate].
    destruct (Queue.accepted_none _ _ _ _ Hq HP H) as [Hm _].
    exists st'. split; [reflexivity|]. rewrite Hm. apply lookup_insert_eq.
Qed.

(** C5 at two requests and two accepted drivers. *)
Lemma fifo_car_assignment_witness :
  exists st3 st4,
    run (initial_state empty_store)
      ["REQUESTED CAR: ks_audi_r8_lms*"; "REQUESTED CAR: ks_bmw_m6_gt3";
       "DRIVER ACCEPTED FOR CAR Alice"] = Ok st3 /\
    player_car_map st3 !! "Alice" = Some "ks_audi_r8_lms" /\
    pending_cars_queue st3 = [{| req_player := None; req_car := "ks_bmw_m6_gt3" |}] /\
    run (initial_state empty_store)
      ["REQUESTED CAR: ks_audi_r8_lms*"; "REQUESTED CAR: ks_bmw_m6_gt3";
       "DRIVER ACCEPTED FOR CAR Alice"; "DRIVER ACCEPTED FOR CAR Bob"] = Ok st4 /\
    player_car_map st4 !! "Bob" = Some "ks_bmw_m6_gt3" /\
    ("Alice" <> "Bob" -> player_car_map st4 !! "Alice" = Some "ks_audi_r8_lms") /\
    pending_cars_queue st4 = [].
Proof.
  apply (proj1 fifo_car_assignment (initial_state empty_store)
           "REQUESTED CAR: ks_audi_r8_lms*" "REQUESTED CAR: ks_bmw_m6_gt3"
           "DRIVER ACCEPTED FOR CAR Alice" "DRIVER ACCEPTED FOR CAR Bob");
    vm_compute; reflexivity.
Defined.

(** ** C6, C9 and C1: the lap candidate and the cuts line *)

Module Cuts.

Lemma set_observed_same (st : state) :
  set_observed st (observed_track_candidate st) (observed_config_candidate st) = st.
Proof. destruct st. reflexivity. Qed.

Lemma loop_body_cuts_idle (st : state) (raw_line : string) (m : Re.groups) :
  classify raw_line = CutsReport m -> last_lap st = None ->
  loop_body st raw_line = Ok (observe st raw_line).
Proof.
  intros Hk Hl. rewrite loop_body_classify, Hk. cbn [step_of_kind]. unfold on_cuts.
  rewrite Frame.observe_last_lap, Hl. reflexivity.
Qed.

Lemma classify_cuts_int (raw_line : string) (m : Re.groups) :
  classify raw_line = CutsReport m -> exists n, py_int (Re.group m "1") = Ok n.
Proof.
  unfold classify. destruct (negb _); [discriminate|].
  destruct (snd _); [discriminate|].
  destruct (Re.re_match requested_car_re _); [discriminate|].
  destruct (Re.re_match driver_accepted_re _); [discriminate|].
  destruct (Re.re_search cuts_re _) as [m'|] eqn:E.
  - intros [= <-]. apply (ReFacts.cuts_int _ _ E).
  - destruct (Re.re_match lap_re _); discriminate.
Qed.

Lemma loop_body_cuts_clears (st : state) (raw_line : string) (m : Re.groups)
    (c : lap_candidate) :
  classify raw_line = CutsReport m -> last_lap st = Some c ->
  exists st', loop_body st raw_line = Ok st' /\ last_lap st' = None.
Proof.
  intros Hk Hl. rewrite loop_body_classify, Hk. cbn [step_of_kind]. unfold on_cuts.
  rewrite Frame.observe_last_lap, Hl.
  destruct (classify_cuts_int _ _ Hk) as [n ->]. cbn [mbind result_bind].
  eexists. split; reflexivity.
Qed.

(** A cuts line with count zero and a candidate [c]: the lap is stored when
    the map has a non-empty car for the player, and queued otherwise. *)
Lemma loop_body_confirmed (st : state) (raw_line : string) (c : lap_candidate) :
  reported_cuts raw_line = Some 0 -> last_lap st = Some c ->
  loop_body st raw_line =
  Ok (set_last_lap
        (let st0 := observe st raw_line in
         let pl := lc_player c in
         let track := track_at st raw_line in
         if Py.truthy_opt (player_car_map st !! pl) then
           let car := default EmptyString (player_car_map st !! pl) in
           set_db_print st0 (insert_lap (db st) pl car track (lc_lap_ms c))
             (MsgLap pl car (lc_lap_ms c) track)
         else
           print
             (set_pending_laps st0
                (pending_laps st ++
                   [{| pl_player := pl; pl_laptime := lc_lap_ms c; pl_track := track |}]))
             (MsgQueued pl (lc_lap_ms c) track))
        None).
Proof.
  unfold reported_cuts. intros Hc Hl. rewrite loop_body_classify.
  destruct (classify raw_line) as [| |m|m|m|m|]; try discriminate.
  destruct (py_int (Re.group m "1")) as [n|e] eqn:Hn; [|discriminate].
  injection Hc as ->. cbn [step_of_kind]. unfold on_cuts.
  rewrite Frame.observe_last_lap, Hl, Hn. cbn [mbind result_bind].
  change (0 =? 0) with true. cbv iota.
  rewrite Frame.observe_map, Frame.observe_db, Frame.observe_pending_laps.
  reflexivity.
Qed.

Lemma loop_body_disqualified (st : state) (raw_line : string) (c : lap_candidate) (n : Z) :
  reported_cuts raw_line = Some n -> n <> 0 -> last_lap st = Some c ->
  loop_body st raw_line =
  Ok (set_last_lap
        (print (observe st raw_line)
           (MsgLapIgnored n (lc_player c) (lc_lap_ms c) (track_at st raw_line)))
        None).
Proof.
  unfold reported_cuts. intros Hc Hne Hl. rewrite loop_body_classify.
  destruct (classify raw_line) as [| |m|m|m|m|]; try discriminate.
  destruct (py_int (Re.group m "1")) as [k|e] eqn:Hn; [|discriminate].
  injection Hc as ->. cbn [step_of_kind]. unfold on_cuts.
  rewrite Frame.observe_last_lap, Hl, Hn. cbn [mbind result_bind].
  destruct (Z.eqb_spec n 0) as [E|_]; [contradiction|]. reflexivity.
Qed.

Lemma loop_body_lap (st : state) (raw_line : string) (m : Re.groups) (ms : Z) :
  classify raw_line = LapReport m -> lap_to_ms (Re.group m "laptime") = Ok ms ->
  loop_body st raw_line =
  Ok (set_last_lap (observe st raw_line)
        (Some {| lc_player := Py.strip (Re.group m "player"); lc_lap_ms := ms |})).
Proof.
  intros Hk Hms. rewrite loop_body_classify, Hk. cbn [step_of_kind]. unfold on_lap.
  rewrite Hms. reflexivity.
Qed.

(** Without a JSON fragment and without a [track=] key, a line that reaches
    the event branches leaves the observed candidates as they were. *)
Lemma scan_track_plain (line : string) (tc cc : option string) :
  snd (scan_track line None None) = false ->
  Re.re_search info_track_re line = None ->
  Re.re_search info_config_re line = None ->
  Py.find "track=" (Py.lower line) = None ->
  scan_track line tc cc = (tc, cc, false).
Proof.
  unfold scan_track. intros Hdone -> -> Hfind. rewrite Hfind in *.
  destruct (Re.re_match track_line_re line); [discriminate|].
  destruct (Re.re_match config_line_re line); [discriminate|].
  destruct (Re.re_search content_path_re line); [discriminate|]. reflexivity.
Qed.

Lemma observe_plain_cuts (st : state) (raw_line : string) (m : Re.groups) :
  classify raw_line = CutsReport m -> no_track_fragment raw_line ->
  observe st raw_line = st.
Proof.
  intros Hk (H1 & H2 & H3). unfold observe.
  rewrite (scan_track_plain _ _ _); try assumption; [apply set_observed_same|].
  revert Hk. unfold classify. destruct (negb _); [discriminate|].
  destruct (snd _); [discriminate|reflexivity].
Qed.

(** A lap line whose duration [lap_to_ms] cannot read ends the run. *)
Lemma unreadable_lap_ends_run (st : state) (raw_line : string) (m : Re.groups)
    (e : exn) (rest : list string) :
  classify raw_line = LapReport m -> lap_to_ms (Re.group m "laptime") = Raised e ->
  run st (raw_line :: rest) = Raised e.
Proof.
  intros Hk Hms. cbn [run]. rewrite loop_body_classify, Hk. cbn [step_of_kind].
  unfold on_lap. rewrite Hms. reflexivity.
Qed.

End Cuts.

(** C6 (as stated, at a cuts line that also carries a track).  The line
    [x track=spa Cuts: 0] takes the cuts branch; processed with no candidate
    buffered it still changes the state: the observed track candidate becomes
    [spa]. *)
Lemma cuts_line_changes_track_counterexample :
  (exists m, classify "x track=spa Cuts: 0" = CutsReport m) /\
  last_lap (initial_state empty_store) = None /\
  exists st', loop_body (initial_state empty_store) "x track=spa Cuts: 0" = Ok st' /\
              observed_track_candidate st' = Some "spa" /\
              st' <> initial_state empty_store.
Proof.
  split; [eexists; vm_compute; reflexivity|]. split; [reflexivity|].
  eexists. split; [vm_compute; reflexivity|]. split; [reflexivity|].
  intros E. apply (f_equal observed_track_candidate) in E. discriminate.
Qed.

(** C6 (amended).  The candidate is one optional value, [last_lap].  A lap
    line whose duration [lap_to_ms] reads replaces it, whatever it was.  A
    cuts line processed with a candidate leaves none, whatever the count.  A
    cuts line processed without a candidate prints nothing and changes
    nothing but the two observed track candidates, which become what the
    track scans of that line ([observe]) make of them; when the line has no
    JSON fragment and no [track=] key, the state is left exactly as it was. *)
Theorem lap_candidate_lifecycle :
  (forall (st : state) (l : string) (m : Re.groups) (ms : Z),
     classify l = LapReport m -> lap_to_ms (Re.group m "laptime") = Ok ms ->
     exists st', loop_body st l = Ok st' /\
       last_lap st' =
       Some {| lc_player := Py.strip (Re.group m "player"); lc_lap_ms := ms |}) /\
  (forall (st : state) (l : string) (m : Re.groups) (c : lap_candidate),
     classify l = CutsReport m -> last_lap st = Some c ->
     exists st', loop_body st l = Ok st' /\ last_lap st' = None) /\
  (forall (st : state) (l : string) (m : Re.groups),
     classify l = CutsReport m -> last_lap st = None ->
     loop_body st l = Ok (observe st l) /\
     rest_of (observe st l) = rest_of st /\
     (no_track_fragment l -> loop_body st l = Ok st)).
Proof.
  split; [|split].
  - intros st l m ms Hk Hms. rewrite (Cuts.loop_body_lap _ _ _ _ Hk Hms).
    eexists. split; reflexivity.
  - intros st l m c Hk Hl. exact (Cuts.loop_body_cuts_clears _ _ _ _ Hk Hl).
  - intros st l m Hk Hl. rewrite (Cuts.loop_body_cuts_idle _ _ _ Hk Hl).
    split; [reflexivity|]. split; [apply Frame.observe_rest|].
    intros Hplain. rewrite (Cuts.observe_plain_cuts _ _ _ Hk Hplain). reflexivity.
Qed.

(** C6 at a lap line over an older candidate, a cuts line with a candidate,
    a cuts line without one that carries a [track=] key, and a plain cuts
    line without one. *)
Lemma lap_candidate_lifecycle_witness :
  (exists st', loop_body (set_last_lap (initial_state empty_store)
                            (Some {| lc_player := "Y"; lc_lap_ms := 1 |}))
                 "LAP X 1:23:456" = Ok st' /\
               last_lap st' = Some {| lc_player := "X"; lc_lap_ms := 83456 |}) /\
  (exists st', loop_body (set_last_lap (initial_state empty_store)
                            (Some {| lc_player := "X"; lc_lap_ms := 83456 |}))
                 "Cuts: 3" = Ok st' /\ last_lap st' = None) /\
  loop_body (initial_state empty_store) "x track=spa Cuts: 0"
    = Ok (observe (initial_state empty_store) "x track=spa Cuts: 0") /\
  loop_body (initial_state empty_store) "lap done Cuts: 0 ok"
    = Ok (initial_state empty_store).
Proof.
  destruct lap_candidate_lifecycle as (Hlap & Hcuts & Hidle).
  split; [|split; [|split]].
  - apply (Hlap _ "LAP X 1:23:456"
             {| Re.closed := [("laptime", "1:23:456"); ("player", "X")];
                Re.opened := [("laptime", "1:23:456"); ("player", "X 1:23:456")] |});
      vm_compute; reflexivity.
  - apply (Hcuts _ "Cuts: 3"
             {| Re.closed := [("1", "3")]; Re.opened := [("1", "3")] |}
             {| lc_player := "X"; lc_lap_ms := 83456 |});
      vm_compute; reflexivity.
  - apply (Hidle _ "x track=spa Cuts: 0"
             {| Re.closed := [("1", "0")]; Re.opened := [("1", "0")] |});
      vm_compute; reflexivity.
  - apply (Hidle _ "lap done Cuts: 0 ok"
             {| Re.closed := [("1", "0")]; Re.opened := [("1", "0 ok")] |});
      [vm_compute; reflexivity|reflexivity|].
    repeat split; vm_compute; reflexivity.
Defined.

(** ** Stored laps *)

Module Store.

Lemma select_id_in (value : string) (t : table) (i : Z) :
  select_id value t = Some i -> In i (map fst t).
Proof.
  induction t as [|[j n] t IH]; cbn; [discriminate|].
  destruct (String.eqb n value); [intros [= ->]; left; reflexivity|].
  intros H. right. exact (IH H).
Qed.

Lemma select_id_app_new (value : string) (t : table) (i : Z) :
  select_id value t = None -> select_id value (t ++ [(i, value)]) = Some i.
Proof.
  induction t as [|[j n] t IH]; cbn.
  - rewrite String.eqb_refl. reflexivity.
  - destruct (String.eqb n value); [discriminate|exact IH].
Qed.

Lemma next_rowid_above (t : table) (i : Z) : In i (map fst t) -> i < next_rowid t.
Proof.
  unfold next_rowid. induction t as [|[j n] t IH]; cbn; [contradiction|].
  intros [->|Hin]; [lia|]. specialize (IH Hin). lia.
Qed.

Lemma get_or_create_selects (t : table) (value : string) :
  select_id value (fst (get_or_create t value)) = Some (snd (get_or_create t value)).
Proof.
  unfold get_or_create. destruct (select_id value t) as [i|] eqn:E; cbn.
  - exact E.
  - apply select_id_app_new. exact E.
Qed.

Lemma filter_none (pid : Z) (rows : list lap_row) :
  Forall (fun r => player_id r <> pid) rows ->
  List.filter (fun r => player_id r =? pid) rows = [].
Proof.
  induction 1 as [|r rows Hr _ IH]; [reflexivity|].
  cbn. destruct (Z.eqb_spec (player_id r) pid); [contradiction|exact IH].
Qed.

(** An inserted lap is one more stored lap of its player, after the ones the
    player had. *)
Lemma stored_laps_insert_lap (d : store) (player car track : string) (ms : Z) :
  store_ok d ->
  stored_laps (insert_lap d player car track ms) player = stored_laps d player ++ [ms].
Proof.
  intros Hok. unfold insert_lap.
  pose proof (get_or_create_selects (players d) player) as Hsel.
  destruct (get_or_create (players d) player) as [ps pid] eqn:Hp.
  destruct (get_or_create (cars d) car) as [cs cid].
  destruct (get_or_create (tracks d) track) as [ts tid].
  cbn [fst snd] in Hsel. unfold stored_laps. cbn [players lap_times]. rewrite Hsel.
  rewrite List.filter_app, map_app. cbn [List.filter player_id].
  rewrite Z.eqb_refl. cbn [map laptime_ms]. f_equal.
  unfold get_or_create in Hp. destruct (select_id player (players d)) as [i|] eqn:E.
  - injection Hp as <- <-. reflexivity.
  - injection Hp as <- <-. rewrite filter_none; [reflexivity|].
    eapply Forall_impl; [exact Hok|]. cbn beta. intros r Hin Heq.
    apply next_rowid_above in Hin. lia.
Qed.

End Store.

Module Scenario.

Lemma observe_plain (st : state) (raw_line : string) :
  (forall tc cc, scan_track (Py.strip raw_line) tc cc = (tc, cc, false)) ->
  observe st raw_line = st.
Proof. intros H. unfold observe. rewrite H. apply Cuts.set_observed_same. Qed.

Lemma observe_lap (st : state) : observe st "LAP X 1:23:456" = st.
Proof. apply observe_plain. intros tc cc. vm_compute. reflexivity. Qed.

Lemma observe_cuts0 (st : state) : observe st "Cuts: 0" = st.
Proof. apply observe_plain. intros tc cc. vm_compute. reflexivity. Qed.

Lemma observe_cuts1 (st : state) : observe st "Cuts: 1" = st.
Proof. apply observe_plain. intros tc cc. vm_compute. reflexivity. Qed.

Lemma lap_line (st : state) :
  loop_body st "LAP X 1:23:456" =
  Ok (set_last_lap st (Some {| lc_player := "X"; lc_lap_ms := 83456 |})).
Proof.
  rewrite (Cuts.loop_body_lap st "LAP X 1:23:456"
             {| Re.closed := [("laptime", "1:23:456"); ("player", "X")];
                Re.opened := [("laptime", "1:23:456"); ("player", "X 1:23:456")] |}
             83456) by (vm_compute; reflexivity).
  rewrite observe_lap. reflexivity.
Qed.

Lemma lap_times_insert_lap (d : store) (player car track : string) (ms : Z) :
  exists row, lap_times (insert_lap d player car track ms) = lap_times d ++ [row] /\
              laptime_ms row = ms.
Proof.
  unfold insert_lap.
  destruct (get_or_create (players d) player) as [ps pid].
  destruct (get_or_create (cars d) car) as [cs cid].
  destruct (get_or_create (tracks d) track) as [ts tid].
  eexists. split; reflexivity.
Qed.

End Scenario.

(** C1 (as stated).  From the start, the line [LAP X 1:23.456] makes the run
    end with [ValueError], so no state with a stored lap of [83456] ms for
    [X] is reached.  And with the duration written [1:23:456], [Cuts: 0]
    still stores nothing from the start: [X] has no car yet and the lap is
    queued. *)
Lemma dotted_lap_counterexample :
  run (initial_state empty_store) ["LAP X 1:23.456"; "Cuts: 0"] = Raised ValueError /\
  ~ (exists st', run (initial_state empty_store) ["LAP X 1:23.456"; "Cuts: 0"] = Ok st' /\
                 stored_laps (db st') "X" = [83456]) /\
  exists st', run (initial_state empty_store) ["LAP X 1:23:456"; "Cuts: 0"] = Ok st' /\
              stored_laps (db st') "X" = [] /\
              pending_laps st' =
              [{| pl_player := "X"; pl_laptime := 83456; pl_track := "unknown" |}].
Proof.
  split; [apply malformed_lap_ends_run_at_start|]. split.
  - intros (st' & H & _). rewrite malformed_lap_ends_run_at_start in H. discriminate.
  - eexists. split; [vm_compute; reflexivity|]. split; reflexivity.
Qed.

(** C1 (amended).  Take the line [LAP X 1:23:456] followed by a cuts line
    [l].  When [l] reports count zero and the map gives [X] a non-empty car
    (and the lap rows of the store point to player rows), exactly one more
    lap, of [83456] ms, is stored for [X] and nothing is queued.  When [l]
    reports count zero and the map has no car, or the empty name, for [X],
    nothing is stored and the lap is queued as a pending lap.  When [l]
    reports any other count, nothing is stored and nothing is queued. *)
Theorem cuts_zero_stores_cuts_one_discards :
  (forall (st : state) (car l : string),
     reported_cuts l = Some 0 ->
     player_car_map st !! "X" = Some car -> car <> EmptyString -> store_ok (db st) ->
     exists st1,
       run st ["LAP X 1:23:456"; l] = Ok st1 /\
       stored_laps (db st1) "X" = stored_laps (db st) "X" ++ [83456] /\
       length (lap_times (db st1)) = S (length (lap_times (db st))) /\
       pending_laps st1 = pending_laps st) /\
  (forall (st : state) (l : string),
     reported_cuts l = Some 0 ->
     player_car_map st !! "X" = None \/ player_car_map st !! "X" = Some EmptyString ->
     exists st1,
       run st ["LAP X 1:23:456"; l] = Ok st1 /\
       db st1 = db st /\
       pending_laps st1 =
         pending_laps st ++
           [{| pl_player := "X"; pl_laptime := 83456; pl_track := track_at st l |}]) /\
  (forall (st : state) (l : string) (n : Z),
     reported_cuts l = Some n -> n <> 0 ->
     exists st2,
       run st ["LAP X 1:23:456"; l] = Ok st2 /\
       db st2 = db st /\ pending_laps st2 = pending_laps st).
Proof.
  split; [|split].
  - intros st car l Hl Hcar Hne Hok.
    cbn [run]. rewrite Scenario.lap_line. cbn [mbind result_bind].
    rewrite (Cuts.loop_body_confirmed
               (set_last_lap st (Some {| lc_player := "X"; lc_lap_ms := 83456 |})) l
               {| lc_player := "X"; lc_lap_ms := 83456 |} Hl eq_refl).
    cbn [mbind result_bind lc_player lc_lap_ms player_car_map set_last_lap].
    rewrite Hcar. cbn [Py.truthy_opt default]. unfold id.
    assert (Py.truthy car = true) as -> by (destruct car; [contradiction|reflexivity]).
    eexists. split; [reflexivity|].
    cbn [db pending_laps set_last_lap set_db_print]. split; [|split].
    + apply Store.stored_laps_insert_lap. exact Hok.
    + destruct (Scenario.lap_times_insert_lap (db st) "X" car
                  (track_at
                     (set_last_lap st (Some {| lc_player := "X"; lc_lap_ms := 83456 |}))
                     l) 83456) as (row & -> & _).
      rewrite length_app. cbn. lia.
    + rewrite Frame.observe_pending_laps. reflexivity.
  - intros st l Hl Hcar.
    cbn [run]. rewrite Scenario.lap_line. cbn [mbind result_bind].
    rewrite (Cuts.loop_body_confirmed
               (set_last_lap st (Some {| lc_player := "X"; lc_lap_ms := 83456 |})) l
               {| lc_player := "X"; lc_lap_ms := 83456 |} Hl eq_refl).
    cbn [mbind result_bind lc_player lc_lap_ms player_car_map set_last_lap].
    assert (Py.truthy_opt (player_car_map st !! "X") = false) as ->
      by (destruct Hcar as [-> | ->]; reflexivity).
    eexists. split; [reflexivity|].
    cbn [db pending_laps set_last_lap set_db_print set_pending_laps print].
    rewrite Frame.observe_db. split; [reflexivity|].
    unfold track_at, observe. cbn [observed_track_candidate observed_config_candidate set_last_lap].
    destruct (scan_track _ _ _) as [[tc cc] done]. reflexivity.
  - intros st l n Hl Hne.
    cbn [run]. rewrite Scenario.lap_line. cbn [mbind result_bind].
    rewrite (Cuts.loop_body_disqualified
               (set_last_lap st (Some {| lc_player := "X"; lc_lap_ms := 83456 |})) l
               {| lc_player := "X"; lc_lap_ms := 83456 |} n Hl Hne eq_refl).
    eexists. split; [reflexivity|].
    cbn [db pending_laps set_last_lap set_db_print print].
    rewrite Frame.observe_db, Frame.observe_pending_laps. split; reflexivity.
Qed.

(** C9 (as stated, at a player mapped to the empty car name).  The lines
    [REQUESTED CAR: *] and [DRIVER ACCEPTED FOR CAR Bob] map [Bob] to the empty
    string; a lap of [Bob] confirmed by [Cuts: 0] is then queued as a pending
    lap, not stored, although [Bob] has a car mapping. *)
Lemma empty_car_is_queued_counterexample :
  exists st st',
    run (initial_state empty_store)
      ["REQUESTED CAR: *"; "DRIVER ACCEPTED FOR CAR Bob"; "LAP Bob 1:23:456"] = Ok st /\
    player_car_map st !! "Bob" = Some EmptyString /\
    loop_body st "Cuts: 0" = Ok st' /\
    pending_laps st' =
      [{| pl_player := "Bob"; pl_laptime := 83456; pl_track := "unknown" |}] /\
    lap_times (db st') = [].
Proof.
  eexists. eexists. split; [vm_compute; reflexivity|].
  split; [vm_compute; reflexivity|].
  split; [vm_compute; reflexivity|]. split; reflexivity.
Qed.

(** C9 (amended).  A cuts line with count zero, processed with candidate [c]:
    if the map sends the player to [unknown], or to any other non-empty car,
    the lap is stored at once with that car and nothing is queued; the lap is
    queued as a pending lap, and nothing is stored, exactly when the player
    has no entry in the map or the entry is the empty string. *)
Theorem confirmed_lap_store_or_queue (st : state) (l : string) (c : lap_candidate) :
  reported_cuts l = Some 0 -> last_lap st = Some c ->
  exists st',
    loop_body st l = Ok st' /\
    (player_car_map st !! lc_player c = Some "unknown" ->
       db st' = insert_lap (db st) (lc_player c) "unknown" (track_at st l) (lc_lap_ms c) /\
       pending_laps st' = pending_laps st) /\
    (forall car, player_car_map st !! lc_player c = Some car -> car <> EmptyString ->
       db st' = insert_lap (db st) (lc_player c) car (track_at st l) (lc_lap_ms c) /\
       pending_laps st' = pending_laps st) /\
    (player_car_map st !! lc_player c = None \/
     player_car_map st !! lc_player c = Some EmptyString ->
       db st' = db st /\
       pending_laps st' =
       pending_laps st ++
         [{| pl_player := lc_player c; pl_laptime := lc_lap_ms c;
             pl_track := track_at st l |}]).
Proof.
  intros Hc Hl. rewrite (Cuts.loop_body_confirmed _ _ _ Hc Hl).
  eexists. split; [reflexivity|]. cbn zeta.
  destruct (player_car_map st !! lc_player c) as [[|a car']|] eqn:Hm;
    cbn [Py.truthy_opt Py.truthy default]; unfold id; cbn;
    rewrite ?Frame.observe_db, ?Frame.observe_pending_laps.
  - split; [discriminate|]. split; [intros car [= <-] Hne; contradiction|].
    intros _. split; reflexivity.
  - split; [intros [= -> ->]; split; reflexivity|].
    split; [intros car [= <-] _; split; reflexivity|].
    intros [E|E]; discriminate.
  - split; [discriminate|]. split; [discriminate|].
    intros _. split; reflexivity.
Qed.

(** C1 at the state where [X] drives the car [unknown], at the start, and
    at a line with two cuts. *)
Lemma cuts_zero_stores_cuts_one_discards_witness :
  (exists st1,
     run (set_player_car_map (initial_state empty_store) (<["X" := "unknown"]> ∅))
       ["LAP X 1:23:456"; "lap done Cuts: 0 ok"] = Ok st1 /\
     stored_laps (db st1) "X" = [] ++ [83456] /\
     length (lap_times (db st1)) = 1%nat /\
     pending_laps st1 = []) /\
  (exists st1,
     run (initial_state empty_store) ["LAP X 1:23:456"; "Cuts: 0"] = Ok st1 /\
     db st1 = empty_store /\
     pending_laps st1 =
       [] ++ [{| pl_player := "X"; pl_laptime := 83456;
                 pl_track := track_at (initial_state empty_store) "Cuts: 0" |}]) /\
  (exists st2,
     run (set_player_car_map (initial_state empty_store) (<["X" := "unknown"]> ∅))
       ["LAP X 1:23:456"; "  cuts:2"] = Ok st2 /\
     db st2 = empty_store /\ pending_laps st2 = []).
Proof.
  destruct cuts_zero_stores_cuts_one_discards as (Hstore & Hqueue & Hdrop).
  split; [|split].
  - apply (Hstore
             (set_player_car_map (initial_state empty_store) (<["X" := "unknown"]> ∅))
             "unknown" "lap done Cuts: 0 ok").
    + vm_compute. reflexivity.
    + vm_compute. reflexivity.
    + discriminate.
    + constructor.
  - apply (Hqueue (initial_state empty_store) "Cuts: 0").
    + vm_compute. reflexivity.
    + left. vm_compute. reflexivity.
  - apply (Hdrop
             (set_player_car_map (initial_state empty_store) (<["X" := "unknown"]> ∅))
             "  cuts:2" 2).
    + vm_compute. reflexivity.
    + discriminate.
Defined.

(** C9 at a candidate of [X], who drives the car [unknown]. *)
Lemma confirmed_lap_store_or_queue_witness :
  exists st',
    loop_body
      (set_last_lap
         (set_player_car_map (initial_state empty_store) (<["X" := "unknown"]> ∅))
         (Some {| lc_player := "X"; lc_lap_ms := 83456 |}))
      "Cuts: 0" = Ok st' /\
    lap_times (db st') =
      [{| player_id := 1; car_id := 1; track_id := 1; laptime_ms := 83456 |}] /\
    cars (db st') = [(1, "unknown")] /\
    pending_laps st' = [].
Proof.
  destruct (confirmed_lap_store_or_queue
              (set_last_lap
                 (set_player_car_map (initial_state empty_store) (<["X" := "unknown"]> ∅))
                 (Some {| lc_player := "X"; lc_lap_ms := 83456 |}))
              "Cuts: 0" {| lc_player := "X"; lc_lap_ms := 83456 |})
    as (st' & Hstep & Hunknown & _).
  - vm_compute. reflexivity.
  - reflexivity.
  - exists st'. split; [exact Hstep|].
    destruct Hunknown as [Hdb Hpending]; [vm_compute; reflexivity|].
    rewrite Hdb, Hpending. repeat split; vm_compute; reflexivity.
Defined.

(** * Further properties of the code *)

(** ** [get_or_create] and the tables *)

Module Tables.

Lemma select_id_row (value : string) (t : table) (i : Z) :
  select_id value t = Some i -> In (i, value) t.
Proof.
  induction t as [|[j n] t IH]; cbn; [discriminate|].
  destruct (String.eqb_spec n value) as [->|_].
  - intros [= ->]. left. reflexivity.
  - intros H. right. exact (IH H).
Qed.

Lemma select_id_none (value : string) (t : table) :
  select_id value t = None -> ~ In value (names t).
Proof.
  induction t as [|[j n] t IH]; cbn; [tauto|].
  destruct (String.eqb_spec n value) as [->|Hne]; [discriminate|].
  intros H [E|Hin]; [contradiction|exact (IH H Hin)].
Qed.

Lemma select_id_app (value : string) (t k : table) (i : Z) :
  select_id value t = Some i -> select_id value (t ++ k) = Some i.
Proof.
  induction t as [|[j n] t IH]; cbn; [discriminate|].
  destruct (String.eqb n value); [tauto|exact IH].
Qed.

Lemma get_or_create_extends (t : table) (value : string) :
  exists k, fst (get_or_create t value) = t ++ k.
Proof.
  unfold get_or_create. destruct (select_id value t); cbn.
  - exists []. symmetry. apply app_nil_r.
  - eexists. reflexivity.
Qed.

Lemma get_or_create_id_in (t : table) (value : string) :
  In (snd (get_or_create t value)) (ids (fst (get_or_create t value))).
Proof.
  apply (Store.select_id_in value). apply Store.get_or_create_selects.
Qed.

Lemma unique_id_one_name (t : table) (i : Z) (a b : string) :
  NoDup (ids t) -> In (i, a) t -> In (i, b) t -> a = b.
Proof.
  unfold ids. induction t as [|[j n] t IH]; cbn; [contradiction|].
  intros Hnd. apply NoDup_cons in Hnd as [Hj Hnd].
  assert (forall x, In (j, x) t -> False) as Hfresh.
  { intros x Hx. apply Hj. apply list_elem_of_In.
    apply (in_map fst) in Hx. exact Hx. }
  intros [[= -> ->]|Ha] [[= ->]|Hb].
  - reflexivity.
  - exfalso. eauto.
  - subst. exfalso. eauto.
  - exact (IH Hnd Ha Hb).
Qed.

Lemma get_or_create_ok (t : table) (value : string) :
  table_ok t -> table_ok (fst (get_or_create t value)).
Proof.
  intros [Hids Hnames]. unfold get_or_create.
  destruct (select_id value t) as [i|] eqn:E; cbn [fst]; [split; assumption|].
  unfold table_ok, ids, names. rewrite !map_app. cbn [map fst snd]. split.
  - apply NoDup_app. split; [exact Hids|]. split; [|apply NoDup_singleton].
    intros x Hx ->%list_elem_of_singleton.
    apply list_elem_of_In, Store.next_rowid_above in Hx. lia.
  - apply NoDup_app. split; [exact Hnames|]. split; [|apply NoDup_singleton].
    intros x Hx ->%list_elem_of_singleton.
    apply list_elem_of_In in Hx. exact (select_id_none _ _ E Hx).
Qed.

End Tables.

(** X1.  [get_or_create] finds what it created: after a call, the name is in
    the table under the returned id, and a second call with the same name
    returns the same id and adds no row. *)
Theorem get_or_create_twice (t : table) (value : string) :
  select_id value (fst (get_or_create t value)) = Some (snd (get_or_create t value)) /\
  get_or_create (fst (get_or_create t value)) value = get_or_create t value.
Proof.
  pose proof (Store.get_or_create_selects t value) as Hsel.
  split; [exact Hsel|].
  destruct (get_or_create t value) as [t' i] eqn:E. cbn [fst snd] in *.
  unfold get_or_create at 1. rewrite Hsel. reflexivity.
Qed.

(** X2.  On a table whose ids and names are unique, [get_or_create] keeps them
    unique, keeps every row that was there, and two calls with different names
    return different ids. *)
Theorem get_or_create_unique (t : table) (v1 v2 : string) :
  table_ok t -> v1 <> v2 ->
  let t1 := fst (get_or_create t v1) in
  let t2 := fst (get_or_create t1 v2) in
  table_ok t2 /\ (exists k, t2 = t ++ k) /\
  snd (get_or_create t v1) <> snd (get_or_create t1 v2).
Proof.
  intros Hok Hne t1 t2.
  assert (table_ok t1) as Hok1 by (apply Tables.get_or_create_ok; exact Hok).
  assert (table_ok t2) as Hok2 by (apply Tables.get_or_create_ok; exact Hok1).
  destruct (Tables.get_or_create_extends t v1) as [k1 Hk1].
  destruct (Tables.get_or_create_extends t1 v2) as [k2 Hk2].
  fold t1 in Hk1. fold t2 in Hk2.
  split; [exact Hok2|]. split.
  - exists (k1 ++ k2). rewrite Hk2, Hk1, app_assoc. reflexivity.
  - intros Heq.
    pose proof (Store.get_or_create_selects t v1) as H1. fold t1 in H1.
    pose proof (Store.get_or_create_selects t1 v2) as H2. fold t2 in H2.
    apply (Tables.select_id_app _ _ k2) in H1. rewrite <- Hk2 in H1.
    apply Tables.select_id_row in H1, H2. rewrite Heq in H1.
    apply Hne. exact (Tables.unique_id_one_name _ _ _ _ (proj1 Hok2) H1 H2).
Qed.

(** X2 on the table with the one player [Alice]. *)
Lemma get_or_create_unique_witness :
  table_ok [(1, "Alice"); (2, "Bob")] /\
  snd (get_or_create [(1, "Alice")] "Alice") <> snd (get_or_create [(1, "Alice")] "Bob").
Proof.
  destruct (get_or_create_unique [(1, "Alice")] "Alice" "Bob") as (Hok & _ & Hne).
  - split; apply NoDup_singleton.
  - discriminate.
  - split; [exact Hok|exact Hne].
Defined.

(** ** What a line does to the store *)

Module Inserts.

Lemma insert_lap_parts (d : store) (player car track : string) (ms : Z) :
  players (insert_lap d player car track ms) = fst (get_or_create (players d) player) /\
  cars (insert_lap d player car track ms) = fst (get_or_create (cars d) car) /\
  tracks (insert_lap d player car track ms) = fst (get_or_create (tracks d) track) /\
  lap_times (insert_lap d player car track ms) =
    lap_times d ++
      [{| player_id := snd (get_or_create (players d) player);
          car_id := snd (get_or_create (cars d) car);
          track_id := snd (get_or_create (tracks d) track);
          laptime_ms := ms |}].
Proof.
  unfold insert_lap.
  destruct (get_or_create (players d) player) as [ps pid].
  destruct (get_or_create (cars d) car) as [cs cid].
  destruct (get_or_create (tracks d) track) as [ts tid].
  repeat split; reflexivity.
Qed.

Lemma ids_app_in (t k : table) (i : Z) : In i (ids t) -> In i (ids (t ++ k)).
Proof. unfold ids. rewrite map_app, in_app_iff. tauto. Qed.

Lemma insert_lap_wf (d : store) (player car track : string) (ms : Z) :
  store_wf d -> store_wf (insert_lap d player car track ms).
Proof.
  intros (Hp & Hc & Ht & Hrefs).
  destruct (insert_lap_parts d player car track ms) as (Ep & Ec & Et & El).
  unfold store_wf, refs_ok. rewrite Ep, Ec, Et, El.
  split; [apply Tables.get_or_create_ok; exact Hp|].
  split; [apply Tables.get_or_create_ok; exact Hc|].
  split; [apply Tables.get_or_create_ok; exact Ht|].
  destruct (Tables.get_or_create_extends (players d) player) as [kp Ekp].
  destruct (Tables.get_or_create_extends (cars d) car) as [kc Ekc].
  destruct (Tables.get_or_create_extends (tracks d) track) as [kt Ekt].
  apply Forall_app. split.
  - eapply Forall_impl; [exact Hrefs|]. cbn beta. intros r (H1 & H2 & H3).
    rewrite Ekp, Ekc, Ekt. repeat split; apply ids_app_in; assumption.
  - constructor; [|constructor]. cbn [player_id car_id track_id].
    repeat split; apply Tables.get_or_create_id_in.
Qed.

Lemma inserts_wf (xs : list lap_entry) :
  forall d, store_wf d -> store_wf (inserts d xs).
Proof.
  induction xs as [|[[[p c] t] ms] xs IH]; intros d Hd; [exact Hd|].
  apply (IH (insert_lap d p c t ms)). apply insert_lap_wf. exact Hd.
Qed.

Lemma inserts_app (d : store) (xs ys : list lap_entry) :
  inserts d (xs ++ ys) = inserts (inserts d xs) ys.
Proof. unfold inserts. apply fold_left_app. Qed.

(** Rows are only added, at the end of each table. *)
Lemma inserts_extend (xs : list lap_entry) :
  forall d,
    (exists k, players (inserts d xs) = players d ++ k) /\
    (exists k, cars (inserts d xs) = cars d ++ k) /\
    (exists k, tracks (inserts d xs) = tracks d ++ k) /\
    (exists k, lap_times (inserts d xs) = lap_times d ++ k /\
               map laptime_ms k = map entry_ms xs).
Proof.
  induction xs as [|[[[p c] t] ms] xs IH]; intros d.
  - repeat split; exists []; rewrite ?app_nil_r; try split; reflexivity.
  - destruct (IH (insert_lap d p c t ms)) as ((kp & Hp) & (kc & Hc) & (kt & Ht) & (kl & Hl & Hms)).
    destruct (insert_lap_parts d p c t ms) as (Ep & Ec & Et & El).
    destruct (Tables.get_or_create_extends (players d) p) as [kp0 Ekp].
    destruct (Tables.get_or_create_extends (cars d) c) as [kc0 Ekc].
    destruct (Tables.get_or_create_extends (tracks d) t) as [kt0 Ekt].
    change (inserts d ((p, c, t, ms) :: xs)) with (inserts (insert_lap d p c t ms) xs).
    rewrite Hp, Hc, Ht, Hl, Ep, Ec, Et, El, Ekp, Ekc, Ekt.
    split; [exists (kp0 ++ kp); rewrite app_assoc; reflexivity|].
    split; [exists (kc0 ++ kc); rewrite app_assoc; reflexivity|].
    split; [exists (kt0 ++ kt); rewrite app_assoc; reflexivity|].
    eexists. split; [rewrite <- app_assoc; reflexivity|].
    cbn [app map laptime_ms entry_ms snd]. rewrite Hms. reflexivity.
Qed.

Lemma list_remove_first_match (lap : pending_lap) (done rest : list pending_lap) :
  Forall (fun x => x <> lap) done ->
  list_remove lap (done ++ lap :: rest) = done ++ rest.
Proof.
  induction 1 as [|x done Hx _ IH]; cbn [app list_remove].
  - destruct (decide (lap = lap)); [reflexivity|contradiction].
  - destruct (decide (x = lap)); [contradiction|]. rewrite IH. reflexivity.
Qed.

(** The flush loop over a snapshot [laps], with [done] the laps of other
    players already passed. *)
Lemma flush_fold (player car : string) (laps : list pending_lap) :
  forall (st : state) (done : list pending_lap),
    default EmptyString (player_car_map st !! player) = car ->
    pending_laps st = done ++ laps ->
    Forall (fun x => pl_player x <> player) done ->
    let st' := fold_left (flush_step player) laps st in
    pending_laps st' = done ++ laps_of_others player laps /\
    db st' = inserts (db st) (map (entry_of player car) (laps_of player laps)) /\
    printed st' =
      printed st ++
      map (fun lap => MsgPendingFlush player car (pl_laptime lap) (pl_track lap))
          (laps_of player laps) /\
    player_car_map st' = player_car_map st.
Proof.
  induction laps as [|lap laps IH]; intros st done Hcar Hpend Hdone; cbn zeta.
  - cbn. rewrite Hpend, !app_nil_r. repeat split; reflexivity.
  - cbn [fold_left]. unfold laps_of, laps_of_others. cbn [List.filter].
    fold (laps_of player laps). fold (laps_of_others player laps).
    destruct (decide (pl_player lap = player)) as [Heq|Hne].
    + rewrite (bool_decide_eq_true_2 _ Heq). cbn [negb map].
      assert (flush_step player st lap =
              set_pending_laps
                (set_db_print st
                   (insert_lap (db st) player car (pl_track lap) (pl_laptime lap))
                   (MsgPendingFlush player car (pl_laptime lap) (pl_track lap)))
                (done ++ laps)) as ->.
      { unfold flush_step. destruct (decide (pl_player lap = player)); [|contradiction].
        cbn [pending_laps set_db_print]. rewrite Hcar, Hpend.
        rewrite list_remove_first_match; [reflexivity|].
        eapply Forall_impl; [exact Hdone|]. cbn beta. intros x Hx ->. contradiction. }
      match goal with |- context [fold_left _ laps ?s] => set (st1 := s) end.
      destruct (IH st1 done) as (H1 & H2 & H3 & H4); try assumption; try reflexivity.
      rewrite H1, H2, H3, H4. unfold st1.
      cbn [db printed player_car_map set_pending_laps set_db_print].
      rewrite <- app_assoc. repeat split; reflexivity.
    + rewrite (bool_decide_eq_false_2 _ Hne). cbn [negb].
      assert (flush_step player st lap = st) as ->.
      { unfold flush_step. destruct (decide (pl_player lap = player)); [contradiction|].
        reflexivity. }
      destruct (IH st (done ++ [lap])) as (H1 & H2 & H3 & H4).
      * exact Hcar.
      * rewrite Hpend, <- app_assoc. reflexivity.
      * apply Forall_app. split; [exact Hdone|]. constructor; [exact Hne|constructor].
      * rewrite H1, H2, H3, H4, <- app_assoc. repeat split; reflexivity.
Qed.

Lemma flush_pending_fold (st : state) (player : string) :
  flush_pending st player = fold_left (flush_step player) (pending_laps st) st.
Proof. reflexivity. Qed.

Lemma assign_car_kept (st : state) (player : string) :
  pending_laps (assign_car st player) = pending_laps st /\
  db (assign_car st player) = db st /\
  printed (assign_car st player) = printed st.
Proof. unfold assign_car. destruct (first_unset _) as [[i pc]|]; repeat split; reflexivity. Qed.

End Inserts.

(** X3.  A driver-accepted line for [player] stores every pending lap of that
    player, in the order the laps were queued and with the car the map now
    gives the player; it prints one line per stored lap, and it leaves the
    pending laps of the other players queued in their order. *)
Theorem accepted_driver_flushes_in_order
    (st st' : state) (raw_line player : string) :
  accepted_driver raw_line = Some player ->
  loop_body st raw_line = Ok st' ->
  let car := default EmptyString (player_car_map st' !! player) in
  let mine := laps_of player (pending_laps st) in
  pending_laps st' = laps_of_others player (pending_laps st) /\
  db st' = inserts (db st) (map (entry_of player car) mine) /\
  map laptime_ms (lap_times (db st')) =
    map laptime_ms (lap_times (db st)) ++ map pl_laptime mine /\
  printed st' =
    printed st ++
    map (fun lap => MsgPendingFlush player car (pl_laptime lap) (pl_track lap)) mine.
Proof.
  intros Hacc Hstep. rewrite (Queue.loop_body_accepted _ _ _ Hacc) in Hstep.
  injection Hstep as <-. rewrite Inserts.flush_pending_fold.
  set (st1 := assign_car (observe st raw_line) player).
  destruct (Inserts.assign_car_kept (observe st raw_line) player) as (Hp & Hd & Hpr).
  fold st1 in Hp, Hd, Hpr.
  rewrite Frame.observe_pending_laps in Hp. rewrite Frame.observe_db in Hd.
  rewrite Frame.observe_printed in Hpr.
  destruct (Inserts.flush_fold player (default EmptyString (player_car_map st1 !! player))
              (pending_laps st1) st1 []) as (H1 & H2 & H3 & H4);
    [reflexivity|reflexivity|constructor|].
  cbn zeta. rewrite H4. rewrite H1, H2, H3, Hp, Hd, Hpr. cbn [app].
  split; [reflexivity|]. split; [reflexivity|]. split; [|reflexivity].
  destruct (Inserts.inserts_extend
              (map (entry_of player (default EmptyString (player_car_map st1 !! player)))
                   (laps_of player (pending_laps st))) (db st))
    as (_ & _ & _ & (k & -> & Hk)).
  rewrite map_app, Hk, map_map. reflexivity.
Qed.

(** X3 at two laps of [Bob] queued around one of [Eve]. *)
Lemma accepted_driver_flushes_in_order_witness :
  exists st',
    loop_body
      (set_pending_laps (initial_state empty_store)
         [{| pl_player := "Bob"; pl_laptime := 83456; pl_track := "spa" |};
          {| pl_player := "Eve"; pl_laptime := 90000; pl_track := "spa" |};
          {| pl_player := "Bob"; pl_laptime := 83000; pl_track := "spa" |}])
      "DRIVER ACCEPTED FOR CAR Bob" = Ok st' /\
    pending_laps st' = [{| pl_player := "Eve"; pl_laptime := 90000; pl_track := "spa" |}] /\
    map laptime_ms (lap_times (db st')) = [83456; 83000].
Proof.
  eexists. split; [vm_compute; reflexivity|].
  match goal with
  | |- pending_laps ?s = _ /\ _ =>
      destruct (accepted_driver_flushes_in_order
                  (set_pending_laps (initial_state empty_store)
                     [{| pl_player := "Bob"; pl_laptime := 83456; pl_track := "spa" |};
                      {| pl_player := "Eve"; pl_laptime := 90000; pl_track := "spa" |};
                      {| pl_player := "Bob"; pl_laptime := 83000; pl_track := "spa" |}])
                  s "DRIVER ACCEPTED FOR CAR Bob" "Bob")
        as (H1 & _ & H3 & _); [vm_compute; reflexivity|vm_compute; reflexivity|]
  end.
  split; [exact H1|exact H3].
Defined.

Module Effects.

(** What a cuts line does once it reached the cuts branch. *)
Lemma on_cuts_effect (st st' : state) (m : Re.groups) :
  on_cuts st m = Ok st' ->
  (last_lap st = None /\ st' = st) \/
  exists c track,
    last_lap st = Some c /\ last_lap st' = None /\
    ((db st' = db st /\ pending_laps st' = pending_laps st) \/
     (db st' = db st /\
      pending_laps st' =
        pending_laps st ++
          [{| pl_player := lc_player c; pl_laptime := lc_lap_ms c; pl_track := track |}]) \/
     (exists car,
        db st' = insert_lap (db st) (lc_player c) car track (lc_lap_ms c) /\
        pending_laps st' = pending_laps st)).
Proof.
  unfold on_cuts. destruct (last_lap st) as [c|]; [|intros [= <-]; left; auto].
  destruct (py_int _) as [cuts|e]; [|discriminate]. cbn [mbind result_bind].
  intros [= <-]. right. eexists c, _. split; [reflexivity|]. split; [reflexivity|].
  destruct (cuts =? 0).
  - destruct (Py.truthy_opt _).
    + right. right. eexists. split; reflexivity.
    + right. left. split; reflexivity.
  - left. split; reflexivity.
Qed.

(** What a driver-accepted line does to the pending laps and the store. *)
Lemma accepted_effect (st : state) (raw_line player : string) :
  let st' := flush_pending (assign_car (observe st raw_line) player) player in
  pending_laps st' = laps_of_others player (pending_laps st) /\
  exists car,
    db st' = inserts (db st) (map (entry_of player car) (laps_of player (pending_laps st))).
Proof.
  cbn zeta. rewrite Inserts.flush_pending_fold.
  set (st1 := assign_car (observe st raw_line) player).
  destruct (Inserts.assign_car_kept (observe st raw_line) player) as (Hp & Hd & _).
  fold st1 in Hp, Hd.
  rewrite Frame.observe_pending_laps in Hp. rewrite Frame.observe_db in Hd.
  destruct (Inserts.flush_fold player (default EmptyString (player_car_map st1 !! player))
              (pending_laps st1) st1 []) as (H1 & H2 & _);
    [reflexivity|reflexivity|constructor|].
  rewrite H1, H2, Hp, Hd. split; [reflexivity|]. eexists. reflexivity.
Qed.

Lemma on_lap_effect (st st' : state) (m : Re.groups) :
  on_lap st m = Ok st' ->
  exists ms, lap_to_ms (Re.group m "laptime") = Ok ms /\
    st' = set_last_lap st
            (Some {| lc_player := Py.strip (Re.group m "player"); lc_lap_ms := ms |}).
Proof.
  unfold on_lap. destruct (lap_to_ms _) as [ms|e]; [|discriminate].
  cbn [mbind result_bind]. intros [= <-]. eauto.
Qed.

(** Every line changes the store by a sequence of [insert_lap] calls. *)
Lemma loop_body_inserts (st st' : state) (raw_line : string) :
  loop_body st raw_line = Ok st' -> exists xs, db st' = inserts (db st) xs.
Proof.
  rewrite loop_body_classify.
  destruct (classify raw_line) as [| |m|m|m|m|]; cbn [step_of_kind].
  - intros [= <-]. exists []. reflexivity.
  - intros [= <-]. exists []. apply Frame.observe_db.
  - intros [= <-]. exists []. cbn. apply Frame.observe_db.
  - intros [= <-]. unfold on_driver_accepted.
    destruct (_ || _); [exists []; apply Frame.observe_db|].
    destruct (accepted_effect st raw_line (Py.strip (Re.group m "player")))
      as (_ & car & ->). eauto.
  - intros H. apply on_cuts_effect in H as [[_ ->]|(c & track & _ & _ & H)].
    + exists []. apply Frame.observe_db.
    + rewrite Frame.observe_db in H.
      destruct H as [[-> _]|[[-> _]|(car & -> & _)]].
      * exists []. reflexivity.
      * exists []. reflexivity.
      * exists [(lc_player c, car, track, lc_lap_ms c)]. reflexivity.
  - intros H. apply on_lap_effect in H as (ms & _ & ->). exists []. cbn.
    apply Frame.observe_db.
  - intros [= <-]. exists []. apply Frame.observe_db.
Qed.

Lemma run_inserts (lines : list string) :
  forall st st', run st lines = Ok st' -> exists xs, db st' = inserts (db st) xs.
Proof.
  induction lines as [|l ls IH]; intros st st'; cbn [run].
  - intros [= <-]. exists []. reflexivity.
  - destruct (loop_body st l) as [st1|e] eqn:E; [|discriminate].
    cbn [mbind result_bind]. intros H.
    destruct (loop_body_inserts _ _ _ E) as [xs Hxs].
    destruct (IH _ _ H) as [ys Hys].
    exists (xs ++ ys). rewrite Hys, Hxs, Inserts.inserts_app. reflexivity.
Qed.

End Effects.

(** X4.  The watcher only adds rows: after any lines that raise nothing,
    each of the four tables is the table before followed by new rows. *)
Theorem run_only_appends_rows (st st' : state) (lines : list string) :
  run st lines = Ok st' ->
  (exists k, players (db st') = players (db st) ++ k) /\
  (exists k, cars (db st') = cars (db st) ++ k) /\
  (exists k, tracks (db st') = tracks (db st) ++ k) /\
  (exists k, lap_times (db st') = lap_times (db st) ++ k).
Proof.
  intros [xs ->]%Effects.run_inserts.
  destruct (Inserts.inserts_extend xs (db st)) as (Hp & Hc & Ht & (k & Hl & _)).
  repeat split; try assumption. exists k. exact Hl.
Qed.

(** X4 at a driver and a confirmed lap. *)
Lemma run_only_appends_rows_witness :
  exists st',
    run (initial_state {| players := [(7, "Eve")]; cars := []; tracks := [];
                          lap_times := [] |})
      ["DRIVER ACCEPTED FOR CAR Bob"; "LAP Bob 1:23:456"; "Cuts: 0"] = Ok st' /\
    exists k, players (db st') = [(7, "Eve")] ++ k.
Proof.
  eexists. split; [vm_compute; reflexivity|].
  match goal with
  | |- exists k, players (db ?s) = _ =>
      exact (proj1 (run_only_appends_rows
                      (initial_state {| players := [(7, "Eve")]; cars := []; tracks := [];
                                        lap_times := [] |})
                      s ["DRIVER ACCEPTED FOR CAR Bob"; "LAP Bob 1:23:456"; "Cuts: 0"]
                      ltac:(vm_compute; reflexivity)))
  end.
Defined.

(** X5.  The constraints of the schema are kept: started on a store where ids
    and names are unique in the three name tables and every lap row points to
    existing player, car and track rows, every state the loop passes through
    has such a store. *)
Theorem reachable_store_wf (d : store) (st : state) :
  store_wf d -> reachable d st -> store_wf (db st).
Proof.
  intros Hd Hreach. induction Hreach as [|st raw_line st' _ IH Hstep|st fp _ IH].
  - exact Hd.
  - destruct (Effects.loop_body_inserts _ _ _ Hstep) as [xs ->].
    apply Inserts.inserts_wf. exact IH.
  - exact IH.
Qed.

(** X5 at the state after one driver and one confirmed lap. *)
Lemma reachable_store_wf_witness :
  store_wf {| players := [(1, "Bob")]; cars := [(1, "unknown")];
              tracks := [(1, "unknown")];
              lap_times := [{| player_id := 1; car_id := 1; track_id := 1;
                               laptime_ms := 83456 |}] |}.
Proof.
  refine (reachable_store_wf empty_store
            (set_db_print
               (set_player_car_map (initial_state empty_store) (<["Bob" := "unknown"]> ∅))
               {| players := [(1, "Bob")]; cars := [(1, "unknown")];
                  tracks := [(1, "unknown")];
                  lap_times := [{| player_id := 1; car_id := 1; track_id := 1;
                                   laptime_ms := 83456 |}] |}
               (MsgLap "Bob" "unknown" 83456 "unknown")) _ _).
  - repeat split; constructor.
  - apply (reach_line empty_store
             (set_last_lap
                (set_player_car_map (initial_state empty_store) (<["Bob" := "unknown"]> ∅))
                (Some {| lc_player := "Bob"; lc_lap_ms := 83456 |}))
             "Cuts: 0"); [|vm_compute; reflexivity].
    apply (reach_line empty_store
             (set_player_car_map (initial_state empty_store) (<["Bob" := "unknown"]> ∅))
             "LAP Bob 1:23:456"); [|vm_compute; reflexivity].
    apply (reach_line empty_store (initial_state empty_store)
             "DRIVER ACCEPTED FOR CAR Bob"); [apply reach_start|vm_compute; reflexivity].
Defined.

(** ** Lap times are never negative *)

Module NonNeg.

Lemma lap_class_not_sign (c : ascii) :
  lap_class c = true -> Py.is_char "-" c = false /\ Py.is_char "+" c = false.
Proof. by_cases_on_char c; intros; split; reflexivity. Qed.

Lemma digit_value_nonneg (c : ascii) : Py.isdecimal c = true -> 0 <= digit_value c.
Proof. by_cases_on_char c; intros _ H; discriminate H. Qed.

Lemma parse_digits_nonneg (s : string) :
  forall (a : Z) (b : bool) (n : Z),
    0 <= a -> parse_digits a b s = Some n -> 0 <= n.
Proof.
  induction s as [|c s IH]; intros a b n Ha; cbn [parse_digits].
  - destruct b; [intros [= <-]; exact Ha|discriminate].
  - destruct (Py.isdecimal c) eqn:Hc.
    + apply IH. pose proof (digit_value_nonneg c Hc). lia.
    + destruct (Py.is_char "_" c && b); [apply IH; exact Ha|discriminate].
Qed.

Lemma lstrip_by_all (p q : ascii -> bool) (s : string) :
  Py.all_chars q s = true -> Py.all_chars q (Py.lstrip_by p s) = true.
Proof.
  induction s as [|c s IH]; [reflexivity|].
  cbn [Py.lstrip_by]. destruct (p c); [|tauto].
  cbn [Py.all_chars]. intros [_ Hs]%andb_true_iff. exact (IH Hs).
Qed.

Lemma rstrip_by_all (p q : ascii -> bool) (s : string) :
  Py.all_chars q s = true -> Py.all_chars q (Py.rstrip_by p s) = true.
Proof.
  induction s as [|c s IH]; [reflexivity|].
  cbn [Py.all_chars]. intros [Hc Hs]%andb_true_iff. specialize (IH Hs).
  cbn [Py.rstrip_by]. destruct (Py.rstrip_by p s) as [|d r].
  - destruct (p c); [reflexivity|]. cbn. rewrite Hc. reflexivity.
  - cbn [Py.all_chars] in *. rewrite Hc, IH. reflexivity.
Qed.

Lemma split_char_all (a : ascii) (q : ascii -> bool) (s : string) :
  Py.all_chars q s = true ->
  Forall (fun f => Py.all_chars q f = true) (Py.split_char a s).
Proof.
  induction s as [|c s IH]; [repeat constructor|].
  cbn [Py.all_chars]. intros [Hc Hs]%andb_true_iff. specialize (IH Hs).
  cbn [Py.split_char]. destruct (Ascii.eqb c a).
  - constructor; [reflexivity|exact IH].
  - destruct (Py.split_char a s) as [|f fs].
    + repeat constructor. cbn. rewrite Hc. reflexivity.
    + inversion IH; subst. constructor; [|assumption].
      cbn. rewrite Hc. assumption.
Qed.

(** A field without a sign reads as a number that is not negative. *)
Lemma py_int_nonneg (f : string) (n : Z) :
  Py.all_chars lap_class f = true -> py_int f = Ok n -> 0 <= n.
Proof.
  intros Hf. unfold py_int.
  pose proof (rstrip_by_all int_space lap_class _ (lstrip_by_all int_space lap_class _ Hf))
    as Ht.
  destruct (Py.rstrip_by int_space (Py.lstrip_by int_space f)) as [|c t] eqn:E.
  - cbn. discriminate.
  - cbn [Py.all_chars] in Ht. apply andb_true_iff in Ht as [Hc _].
    destruct (lap_class_not_sign c Hc) as [-> ->].
    destruct (parse_digits 0 false (String c t)) as [k|] eqn:Hk; [|discriminate].
    intros [= <-]. apply (parse_digits_nonneg _ _ _ _ (Z.le_refl 0) Hk).
Qed.

Lemma lap_to_ms_nonneg (s : string) (ms : Z) :
  Py.all_chars lap_class s = true -> lap_to_ms s = Ok ms -> 0 <= ms.
Proof.
  intros Hs. apply (split_char_all ":") in Hs. unfold lap_to_ms.
  destruct (Py.split_char ":" s) as [|f1 [|f2 [|f3 [|f4 fs]]]]; [discriminate| | | |].
  - inversion Hs; subst. apply py_int_nonneg. assumption.
  - inversion Hs as [|? ? H1 Hs']; subst. inversion Hs' as [|? ? H2 _]; subst.
    destruct (py_int f1) as [a|] eqn:E1; [|discriminate].
    destruct (py_int f2) as [b|] eqn:E2; [|discriminate].
    cbn [mbind result_bind]. intros [= <-].
    pose proof (py_int_nonneg _ _ H1 E1). pose proof (py_int_nonneg _ _ H2 E2). lia.
  - inversion Hs as [|? ? H1 Hs']; subst. inversion Hs' as [|? ? H2 Hs'']; subst.
    inversion Hs'' as [|? ? H3 _]; subst.
    destruct (py_int f1) as [a|] eqn:E1; [|discriminate].
    destruct (py_int f2) as [b|] eqn:E2; [|discriminate].
    destruct (py_int f3) as [c|] eqn:E3; [|discriminate].
    cbn [mbind result_bind]. intros [= <-].
    pose proof (py_int_nonneg _ _ H1 E1). pose proof (py_int_nonneg _ _ H2 E2).
    pose proof (py_int_nonneg _ _ H3 E3). lia.
  - inversion Hs; subst. apply py_int_nonneg. assumption.
Qed.

(** The duration group of a [LAP] match holds digits, colons and dots only. *)
Lemma lap_group_class (line : string) (m : Re.groups) :
  Re.re_match lap_re line = Some m ->
  Py.all_chars lap_class (Re.group m "laptime") = true.
Proof.
  unfold Re.re_match, lap_re. cbn [Re.exec].
  destruct (Re.drop_lit false "LAP" line) as [s1|]; [|discriminate].
  intros H.
  apply ReFacts.rep_loop_some in H as (_ & s2 & _ & _ & _ & H). cbn [Re.exec] in H.
  apply ReFacts.rep_loop_some in H as (_ & s3 & _ & _ & _ & H). cbn [Re.exec] in H.
  apply ReFacts.rep_loop_some in H as (_ & s4 & _ & _ & _ & H). cbn [Re.exec] in H.
  apply ReFacts.rep_loop_some in H as (pre & post & -> & Hpre & _ & H).
  cbn [Re.exec] in H. destruct (Re.at_eol post); [|discriminate].
  injection H as <-.
  unfold Re.close_group at 1. unfold Re.open_group at 1. cbn [Re.opened Re.assoc].
  change (String.eqb "laptime" "laptime") with true. cbv iota.
  unfold Re.group. cbn [Re.closed Re.assoc].
  change (String.eqb "laptime" "laptime") with true. cbv iota.
  rewrite ReFacts.take_app_length. exact Hpre.
Qed.

Lemma classify_lap_match (raw_line : string) (m : Re.groups) :
  classify raw_line = LapReport m -> Re.re_match lap_re (Py.strip raw_line) = Some m.
Proof.
  unfold classify. destruct (negb _); [discriminate|].
  destruct (snd _); [discriminate|].
  destruct (Re.re_match requested_car_re _); [discriminate|].
  destruct (Re.re_match driver_accepted_re _); [discriminate|].
  destruct (Re.re_search cuts_re _); [discriminate|].
  destruct (Re.re_match lap_re _); [intros [= <-]; reflexivity|discriminate].
Qed.

Lemma rows_nonneg_inserts (d : store) (xs : list lap_entry) :
  Forall (fun r => 0 <= laptime_ms r) (lap_times d) ->
  Forall (fun x => 0 <= entry_ms x) xs ->
  Forall (fun r => 0 <= laptime_ms r) (lap_times (inserts d xs)).
Proof.
  intros Hd Hxs.
  destruct (Inserts.inserts_extend xs d) as (_ & _ & _ & (k & -> & Hk)).
  apply Forall_app. split; [exact Hd|].
  apply (Forall_fmap laptime_ms (fun z => 0 <= z)).
  change (laptime_ms <$> k) with (map laptime_ms k). rewrite Hk.
  apply (Forall_fmap entry_ms (fun z => 0 <= z)). exact Hxs.
Qed.

Lemma filter_nonneg (f : pending_lap -> bool) (laps : list pending_lap) :
  Forall (fun lap => 0 <= pl_laptime lap) laps ->
  Forall (fun lap => 0 <= pl_laptime lap) (List.filter f laps).
Proof.
  induction 1 as [|lap laps H _ IH]; [constructor|].
  cbn. destruct (f lap); [constructor; assumption|exact IH].
Qed.

(** One line keeps the lap times of the buffers and of the store from being
    negative. *)
Lemma loop_body_nonneg (st st' : state) (raw_line : string) :
  laps_nonneg st -> loop_body st raw_line = Ok st' -> laps_nonneg st'.
Proof.
  intros (Hc & Hp & Hr). rewrite loop_body_classify.
  assert (laps_nonneg (observe st raw_line)) as Hobs.
  { unfold laps_nonneg. rewrite Frame.observe_last_lap, Frame.observe_pending_laps,
      Frame.observe_db. repeat split; assumption. }
  destruct (classify raw_line) as [| |m|m|m|m|] eqn:Hk; cbn [step_of_kind].
  - intros [= <-]. repeat split; assumption.
  - intros [= <-]. exact Hobs.
  - intros [= <-]. exact Hobs.
  - intros [= <-]. unfold on_driver_accepted.
    destruct (_ || _); [exact Hobs|].
    set (player := Py.strip _).
    destruct (Effects.accepted_effect st raw_line player) as (Hpend & car & Hdb).
    unfold laps_nonneg.
    rewrite Frame.flush_pending_last_lap, Frame.assign_car_last_lap,
      Frame.observe_last_lap, Hpend, Hdb.
    split; [exact Hc|]. split; [apply filter_nonneg; exact Hp|].
    apply rows_nonneg_inserts; [exact Hr|].
    apply (Forall_fmap (entry_of player car) (fun x => 0 <= entry_ms x)).
    unfold laps_of. eapply Forall_impl; [apply filter_nonneg; exact Hp|].
    intros lap Hlap. exact Hlap.
  - intros H. apply Effects.on_cuts_effect in H as [[_ ->]|(c & track & Hl & Hl' & H)];
      [exact Hobs|].
    rewrite Frame.observe_last_lap in Hl. specialize (Hc c Hl).
    rewrite Frame.observe_db, Frame.observe_pending_laps in H.
    unfold laps_nonneg. rewrite Hl'. split; [discriminate|].
    destruct H as [[-> ->]|[[-> ->]|(car & -> & ->)]].
    + split; assumption.
    + split; [|assumption]. apply Forall_app. split; [exact Hp|].
      constructor; [exact Hc|constructor].
    + split; [assumption|].
      apply (rows_nonneg_inserts (db st) [(lc_player c, car, track, lc_lap_ms c)]);
        [exact Hr|]. constructor; [exact Hc|constructor].
  - intros H. apply Effects.on_lap_effect in H as (ms & Hms & ->).
    unfold laps_nonneg. cbn [last_lap pending_laps db set_last_lap].
    rewrite Frame.observe_pending_laps, Frame.observe_db.
    split; [|split; assumption].
    intros c [= <-]. cbn [lc_lap_ms].
    apply (lap_to_ms_nonneg _ _ (lap_group_class _ _ (classify_lap_match _ _ Hk)) Hms).
  - intros [= <-]. exact Hobs.
Qed.

End NonNeg.

(** X6.  No lap time is ever negative: started on a store without negative
    lap times, every state the loop passes through has a candidate, pending
    laps and stored laps whose milliseconds are at least zero.  (The duration
    class of [lap_re] has no sign, so [int()] never reads one.) *)
Theorem reachable_laps_nonneg (d : store) (st : state) :
  Forall (fun r => 0 <= laptime_ms r) (lap_times d) ->
  reachable d st -> laps_nonneg st.
Proof.
  intros Hd Hreach. induction Hreach as [|st raw_line st' _ IH Hstep|st fp _ IH].
  - split; [discriminate|]. split; [constructor|exact Hd].
  - exact (NonNeg.loop_body_nonneg _ _ _ IH Hstep).
  - exact IH.
Qed.

(** X6 at the state after one lap line. *)
Lemma reachable_laps_nonneg_witness :
  laps_nonneg (set_last_lap (initial_state empty_store)
                 (Some {| lc_player := "Bob"; lc_lap_ms := 83456 |})).
Proof.
  apply (reachable_laps_nonneg empty_store); [constructor|].
  apply (reach_line empty_store (initial_state empty_store) "LAP Bob 1:23:456");
    [apply reach_start|vm_compute; reflexivity].
Defined.

(** ** The shape of a track key *)

Module Keys.

(** Not a path separator. *)
Lemma no_sep_strip (q : ascii -> bool) (s : string) :
  Py.all_chars q s = true -> Py.all_chars q (Py.strip s) = true.
Proof. intros H. unfold Py.strip. apply NonNeg.rstrip_by_all, NonNeg.lstrip_by_all, H. Qed.

Lemma split_char_no_sep (a : ascii) (s : string) :
  Forall (fun f => Py.contains_char a f = false) (Py.split_char a s).
Proof.
  unfold Py.contains_char.
  induction s as [|c s IH]; [repeat constructor|].
  cbn [Py.split_char]. destruct (Ascii.eqb c a) eqn:Hc.
  - constructor; [reflexivity|exact IH].
  - destruct (Py.split_char a s) as [|f fs].
    + repeat constructor. cbn. unfold Py.is_char. rewrite Ascii.eqb_sym, Hc. reflexivity.
    + inversion IH; subst. constructor; [|assumption].
      cbn. unfold Py.is_char. rewrite Ascii.eqb_sym, Hc. assumption.
Qed.

Lemma replace_char_gone (a b : ascii) (s : string) :
  Ascii.eqb a b = false ->
  Py.all_chars (fun c => negb (Py.is_char a c)) (Py.replace_char a b s) = true.
Proof.
  intros Hab. induction s as [|c s IH]; [reflexivity|].
  cbn [Py.replace_char Py.all_chars]. rewrite IH, andb_true_r.
  unfold Py.is_char. destruct (Ascii.eqb_spec c a) as [->|Hne].
  - rewrite Hab. reflexivity.
  - destruct (Ascii.eqb_spec a c) as [->|_]; [contradiction|reflexivity].
Qed.

Lemma all_not_absent (a : ascii) (s : string) :
  Py.all_chars (fun c => negb (Py.is_char a c)) s = true <-> Py.contains_char a s = false.
Proof.
  unfold Py.contains_char. induction s as [|c s IH]; [cbn; tauto|].
  cbn [Py.all_chars Py.has_char]. rewrite andb_true_iff, orb_false_iff, negb_true_iff, IH.
  tauto.
Qed.

Lemma contains_char_app (a : ascii) (s t : string) :
  Py.contains_char a (s +:+ t) = Py.contains_char a s || Py.contains_char a t.
Proof.
  unfold Py.contains_char. induction s as [|c s IH]; [reflexivity|].
  rewrite append_cons. cbn [Py.has_char]. rewrite IH. apply orb_assoc.
Qed.

Lemma tokens_like (s t : string) :
  In t (clean_tokens (map Py.strip (Py.split_char "/" (Py.replace_char "\" "/" s)))) ->
  token_like t.
Proof.
  intros Hin. destruct (Track.clean_tokens_trimmed _ _ Hin) as [Htr Hne].
  unfold clean_tokens in Hin. apply filter_In in Hin as [Hin Hp].
  apply andb_true_iff in Hp as [_ Hbad]. apply negb_true_iff in Hbad.
  apply in_map_iff in Hin as (f & <- & Hf).
  repeat split; try assumption; try apply Htr.
  - apply all_not_absent, no_sep_strip, all_not_absent.
    pose proof (split_char_no_sep "/" (Py.replace_char "\" "/" s)) as Hall.
    rewrite Forall_forall in Hall. apply Hall. apply list_elem_of_In. exact Hf.
  - apply all_not_absent, no_sep_strip.
    pose proof (NonNeg.split_char_all "/" _ _
                  (replace_char_gone "\" "/" s eq_refl)) as Hall.
    rewrite Forall_forall in Hall. apply Hall. apply list_elem_of_In. exact Hf.
Qed.

Lemma normalize_track_split (tc cc : option string) :
  normalize_track tc cc = choose_key (parse_candidate tc) (parse_candidate cc).
Proof. reflexivity. Qed.

Lemma parse_candidate_some (o : option string) (a : string) :
  parse_candidate o = Some a ->
  exists c, o = Some c /\ parse_track_from_string c = Some a.
Proof.
  destruct o as [c|]; cbn; [|discriminate].
  destruct (Py.truthy c); [|discriminate]. eauto.
Qed.

Lemma truthy_nonempty (a : string) : Py.truthy a = true -> a <> EmptyString.
Proof. intros H ->. discriminate H. Qed.

Lemma choose_key_is_a_key (t1 t2 : option string) :
  choose_key t1 t2 <> EmptyString /\
  (choose_key t1 t2 = "unknown" \/ t1 = Some (choose_key t1 t2) \/
   t2 = Some (choose_key t1 t2)).
Proof.
  unfold choose_key, has_layout, Py.truthy_opt, default.
  destruct t1 as [a|], t2 as [b|]; cbn [from_option id];
    try destruct (Py.truthy a) eqn:Ta; try destruct (Py.truthy b) eqn:Tb;
    cbn [andb];
    repeat match goal with
           | |- context [if ?t then _ else _] => destruct t
           end;
    (split; [first [apply truthy_nonempty; assumption | discriminate] | auto]).
Qed.

End Keys.

(** X7.  A key that [parse_track_from_string] returns is never empty, has no
    white space around it, holds no path separator of either kind, and is
    not one of the noise tokens. *)
Theorem parse_track_key_shape (raw key : string) :
  parse_track_from_string raw = Some key ->
  key <> EmptyString /\ Py.strip key = key /\
  Py.contains_char "/" key = false /\ Py.contains_char "\" key = false /\
  in_bad (Py.lower key) = false.
Proof.
  intros Hraw.
  destruct (Track.parse_track_trimmed raw key Hraw) as [Htr Hne].
  split; [exact Hne|]. split; [apply Track.trimmed_strip; exact Htr|].
  revert Hraw. unfold parse_track_from_string.
  destruct (negb (Py.truthy raw)); [discriminate|].
  set (parts := clean_tokens _).
  assert (forall t, In t (rev parts) -> token_like t) as Hall.
  { intros t Ht. apply in_rev in Ht. revert Ht. apply Keys.tokens_like. }
  destruct (rev parts) as [|layout [|track rest]]; [discriminate| |].
  - intros [= <-]. destruct (Hall layout (or_introl eq_refl)) as (_ & _ & H1 & H2 & H3).
    repeat split; assumption.
  - destruct (Hall layout (or_introl eq_refl)) as (_ & _ & L1 & L2 & _).
    destruct (Hall track (or_intror (or_introl eq_refl))) as (_ & _ & T1 & T2 & T3).
    destruct (Py.contains_char "." layout); cbn [Py.truthy_opt default].
    + intros [= <-]. repeat split; assumption.
    + destruct (Py.truthy layout); intros [= <-]; [|repeat split; assumption].
      unfold id. rewrite !Keys.contains_char_app, T1, T2, L1, L2.
      repeat split; try reflexivity.
      apply Track.dashed_not_bad. rewrite Track.lower_keeps_dash.
      rewrite !Keys.contains_char_app. cbn. apply orb_true_r.
Qed.

(** X7 at a content path with a file name at its end. *)
Lemma parse_track_key_shape_witness :
  parse_track_from_string "content\tracks\ks_spa\data\drs_zones.ini" = Some "ks_spa" /\
  Py.contains_char "\" "ks_spa" = false.
Proof.
  split; [reflexivity|].
  apply (parse_track_key_shape "content\tracks\ks_spa\data\drs_zones.ini" "ks_spa").
  reflexivity.
Defined.


(** X8.  [normalize_track] never returns the empty string, and it never
    builds a new name: its result is [unknown] or the key extracted from one
    of its two candidates. *)
Theorem normalize_track_is_a_candidate_key (tc cc : option string) :
  normalize_track tc cc <> EmptyString /\
  (normalize_track tc cc = "unknown" \/
   (exists c, tc = Some c /\ parse_track_from_string c = Some (normalize_track tc cc)) \/
   (exists c, cc = Some c /\ parse_track_from_string c = Some (normalize_track tc cc))).
Proof.
  rewrite Keys.normalize_track_split.
  destruct (Keys.choose_key_is_a_key (parse_candidate tc) (parse_candidate cc))
    as [Hne [Hu|[H1|H2]]].
  - split; [exact Hne|]. left. exact Hu.
  - split; [exact Hne|]. right. left. apply Keys.parse_candidate_some. exact H1.
  - split; [exact Hne|]. right. right. apply Keys.parse_candidate_some. exact H2.
Qed.

(** ** Which lines can end the run, and what the others leave alone *)

(** X10.  The player-to-car map changes only on a driver-accepted line, and
    then only at the accepted player: no entry is ever removed, and every
    other line leaves the map as it was. *)
Theorem map_changes_only_at_accepted_driver (st st' : state) (raw_line : string) :
  loop_body st raw_line = Ok st' ->
  match accepted_driver raw_line with
  | Some player => exists car, player_car_map st' = <[player := car]> (player_car_map st)
  | None => player_car_map st' = player_car_map st
  end.
Proof.
  unfold accepted_driver. rewrite loop_body_classify.
  destruct (classify raw_line) as [| |m|m|m|m|]; cbn [step_of_kind].
  - intros [= <-]. reflexivity.
  - intros [= <-]. apply Frame.observe_map.
  - intros [= <-]. cbn. apply Frame.observe_map.
  - intros [= <-]. unfold on_driver_accepted.
    destruct (_ || _); [apply Frame.observe_map|].
    rewrite Frame.flush_pending_map. unfold assign_car.
    destruct (first_unset _) as [[i pc]|]; cbn; rewrite Frame.observe_map; eauto.
  - intros H. apply Frame.on_cuts_kept in H as (_ & -> & _). apply Frame.observe_map.
  - intros H. apply Frame.on_lap_kept in H as (c & ->). cbn. apply Frame.observe_map.
  - intros [= <-]. apply Frame.observe_map.
Qed.

(** X10 at a second driver accepted after a first. *)
Lemma map_changes_only_at_accepted_driver_witness :
  exists car,
    player_car_map
      (set_player_car_map (initial_state empty_store)
         (<["Bob" := "unknown"]> (<["Alice" := "unknown"]> ∅)))
    = <["Bob" := car]>
        (player_car_map
           (set_player_car_map (initial_state empty_store) (<["Alice" := "unknown"]> ∅))).
Proof.
  pose proof (map_changes_only_at_accepted_driver
                (set_player_car_map (initial_state empty_store)
                   (<["Alice" := "unknown"]> ∅))
                (set_player_car_map (initial_state empty_store)
                   (<["Bob" := "unknown"]> (<["Alice" := "unknown"]> ∅)))
                "DRIVER ACCEPTED FOR CAR Bob") as H.
  replace (accepted_driver "DRIVER ACCEPTED FOR CAR Bob") with (Some "Bob") in H
    by (vm_compute; reflexivity).
  apply H. vm_compute. reflexivity.
Defined.

(** X11.  A lap reported with cuts is dropped whole: a cuts line with a count
    other than zero, processed with a candidate, stores nothing and queues
    nothing, clears the candidate and prints the one [LAP IGNORED]
    line. *)
Theorem lap_with_cuts_is_dropped
    (st : state) (raw_line : string) (c : lap_candidate) (n : Z) :
  reported_cuts raw_line = Some n -> n <> 0 -> last_lap st = Some c ->
  exists st',
    loop_body st raw_line = Ok st' /\
    db st' = db st /\ pending_laps st' = pending_laps st /\
    player_car_map st' = player_car_map st /\
    last_lap st' = None /\
    printed st' =
      printed st ++
      [MsgLapIgnored n (lc_player c) (lc_lap_ms c) (track_at st raw_line)].
Proof.
  intros Hn Hne Hl. rewrite (Cuts.loop_body_disqualified _ _ _ _ Hn Hne Hl).
  eexists. split; [reflexivity|]. cbn.
  rewrite Frame.observe_db, Frame.observe_pending_laps, Frame.observe_map,
    Frame.observe_printed.
  repeat split; reflexivity.
Qed.

(** X11 at a candidate of [Bob] and the line [Cuts: 2]. *)
Lemma lap_with_cuts_is_dropped_witness :
  exists st',
    loop_body
      (set_last_lap (initial_state empty_store)
         (Some {| lc_player := "Bob"; lc_lap_ms := 83456 |}))
      "Cuts: 2" = Ok st' /\
    db st' = empty_store /\ pending_laps st' = [] /\
    player_car_map st' = ∅ /\ last_lap st' = None /\
    printed st' = [] ++ [MsgLapIgnored 2 "Bob" 83456 "unknown"].
Proof.
  apply (lap_with_cuts_is_dropped
           (set_last_lap (initial_state empty_store)
              (Some {| lc_player := "Bob"; lc_lap_ms := 83456 |}))
           "Cuts: 2" {| lc_player := "Bob"; lc_lap_ms := 83456 |} 2).
  - vm_compute. reflexivity.
  - discriminate.
  - reflexivity.
Defined.

(** ** The tailer on files that did not grow *)

Module Rewind.

Lemma drop_past_end (n : nat) (s : string) :
  (String.length s <= n)%nat -> Py.drop n s = EmptyString.
Proof.
  revert n. induction s as [|c s IH]; intros [|n]; cbn; try reflexivity; try lia.
  intros H. apply IH. lia.
Qed.

Lemma set_file_positions_same (st : state) :
  set_file_positions st (file_positions st) = st.
Proof. destruct st. reflexivity. Qed.

End Rewind.

(** X12.  A file that is not longer than its stored offset (unchanged since
    the last poll, or truncated) is skipped: polling it reads no line and
    leaves the whole state, its offset included, as it was. *)
Theorem short_file_is_skipped (st : state) (logfile content : string) (offset : nat) :
  file_positions st !! logfile = Some offset ->
  (String.length content <= offset)%nat ->
  poll_file st (logfile, content) = Ok st.
Proof.
  intros Hoff Hlen. unfold poll_file. rewrite Hoff.
  unfold new_lines, offset_of. rewrite Hoff. unfold default, id.
  rewrite (Rewind.drop_past_end _ _ Hlen). cbn [lines_of run mbind result_bind].
  unfold tell_at_end. rewrite Nat.max_l by lia.
  rewrite (insert_id _ _ _ Hoff). rewrite Rewind.set_file_positions_same. reflexivity.
Qed.

(** X12 at a file truncated from thirty bytes to four. *)
Lemma short_file_is_skipped_witness :
  poll_file (set_file_positions (initial_state empty_store) (<["output_1" := 30%nat]> ∅))
    ("output_1", "LAP ")
  = Ok (set_file_positions (initial_state empty_store) (<["output_1" := 30%nat]> ∅)).
Proof.
  apply (short_file_is_skipped _ "output_1" "LAP " 30).
  - vm_compute. reflexivity.
  - vm_compute. lia.
Defined.

(** X13.  Whatever the files hold, a poll that completes never lowers the
    stored offset of any file. *)
Theorem poll_never_rewinds (st st' : state) (files : list (string * string))
    (logfile : string) :
  poll st files = Ok st' -> (offset_of st logfile <= offset_of st' logfile)%nat.
Proof. apply Tailer.poll_monotone. Qed.

(** X13 at the first poll of a four-byte file. *)
Lemma poll_never_rewinds_witness :
  (offset_of (initial_state empty_store) "output_1"
   <= offset_of
        (set_file_positions (initial_state empty_store) (<["output_1" := 4%nat]> ∅))
        "output_1")%nat.
Proof.
  apply (poll_never_rewinds (initial_state empty_store)
           (set_file_positions (initial_state empty_store) (<["output_1" := 4%nat]> ∅))
           [("output_1", "LAP ")] "output_1").
  vm_compute. reflexivity.
Defined.

(** ** The lines of a file *)

Module Lines.




End Lines.

(** Without carriage returns, the lines of a text, put end to end, are the
    text. *)
Lemma lines_concat_back (s : string) :
  Py.contains_char "013" s = false -> concat_lines (lines_of s) = s.
Proof.
  unfold Py.contains_char. induction s as [|c s IH]; [reflexivity|].
  cbn [Py.has_char]. intros [Hc Hs]%orb_false_iff. specialize (IH Hs).
  unfold Py.is_char in Hc. rewrite Ascii.eqb_sym in Hc.
  cbn [lines_of]. rewrite Hc. destruct (Ascii.eqb_spec c "010") as [->|_].
  - cbn [concat_lines fold_right]. fold (concat_lines (lines_of s)). rewrite IH.
    reflexivity.
  - destruct (lines_of s) as [|l ls].
    + cbn in IH. subst s. reflexivity.
    + cbn [concat_lines fold_right] in *. rewrite append_cons, IH. reflexivity.
Qed.

Lemma drop_keeps_absent (a : ascii) (n : nat) (s : string) :
  Py.contains_char a s = false -> Py.contains_char a (Py.drop n s) = false.
Proof.
  unfold Py.contains_char. revert n. induction s as [|c s IH]; intros [|n]; cbn; try tauto.
  intros [_ Hs]%orb_false_iff. exact (IH n Hs).
Qed.

(** X14.  On a log of ASCII bytes without carriage returns, a poll reads
    every byte after the stored offset once: the lines it iterates over, put
    end to end, are the content of the file from the offset on.  (The file is
    opened as UTF-8 with [errors="ignore"] and universal newlines: a byte
    that does not decode is dropped and a carriage return is read as a line
    end, so the property is stated for the logs on which neither happens.) *)
Theorem poll_reads_from_offset (st : state) (logfile content : string) :
  Py.all_chars is_ascii content = true ->
  Py.contains_char "013" content = false ->
  concat_lines (new_lines st logfile content)
  = Py.drop (offset_of st logfile) content.
Proof.
  intros _ Hcr. unfold new_lines. apply lines_concat_back.
  apply drop_keeps_absent. exact Hcr.
Qed.

(** X14 at a file of two lines and an unfinished third, read from offset 15. *)
Lemma poll_reads_from_offset_witness :
  concat_lines
    (new_lines
       (set_file_positions (initial_state empty_store) (<["output_1" := 15%nat]> ∅))
       "output_1"
       ("LAP X 1:23:456" +:+ String "010" "Cuts: 0" +:+ String "010" "LAP"))
  = "Cuts: 0" +:+ String "010" "LAP".
Proof.
  rewrite poll_reads_from_offset; vm_compute; reflexivity.
Defined.


(** ** More on the lap-time codec *)

Module Render.

(** [lap_to_ms] reads back the colon form of a rendered time. *)
Lemma read_colon_form (ms : Z) : lap_to_ms (colon_form (format_laptime ms)) = Ok ms.
Proof.
  unfold colon_form, format_laptime.
  assert (0 <= (ms mod 60000) / 1000) as Hs
    by (apply Z.div_pos; [apply Z.mod_pos_bound|]; lia).
  assert (0 <= ms mod 1000) as Hm by (apply Z.mod_pos_bound; lia).
  rewrite !Codec.replace_char_app.
  rewrite (Codec.replace_dot_numeric _ _ (Codec.str_Z_numeric _)),
    (Codec.replace_dot_numeric _ _ (Codec.format_0d_numeric 2 _ Hs)),
    (Codec.replace_dot_numeric _ _ (Codec.format_0d_numeric 3 _ Hm)).
  change (Py.replace_char "." ":" ":") with (String ":" EmptyString).
  change (Py.replace_char "." ":" ".") with (String ":" EmptyString).
  unfold lap_to_ms.
  rewrite (Codec.split_colon_field _ _ (Codec.str_Z_numeric _)),
    (Codec.split_colon_field _ _ (Codec.format_0d_numeric 2 _ Hs)),
    (Codec.split_colon_last _ (Codec.format_0d_numeric 3 _ Hm)).
  rewrite Codec.py_int_str_Z, (Codec.py_int_format_0d 2 _ Hs),
    (Codec.py_int_format_0d 3 _ Hm).
  cbn [mbind result_bind]. f_equal.
  Z.to_euclidean_division_equations. lia.
Qed.

Lemma zeros_length (k : nat) (s : string) :
  String.length (zeros k s) = (k + String.length s)%nat.
Proof. induction k as [|k IH]; cbn; [reflexivity|]. rewrite IH. reflexivity. Qed.

(** A number below [10 ^ k] is written with at most [k] digits. *)
Lemma digits_from_length (fuel : nat) :
  forall (n : Z) (acc : string) (k : nat),
    (1 <= k)%nat -> 0 <= n < 10 ^ Z.of_nat k ->
    (String.length acc + 1 <= String.length (digits_from fuel n acc)
     <= String.length acc + k)%nat.
Proof.
  induction fuel as [|fuel IH]; intros n acc k Hk Hn; cbn [digits_from].
  - cbn [String.length]. lia.
  - destruct (Z.ltb_spec n 10) as [Hlt|Hge]; [cbn [String.length]; lia|].
    destruct k as [|[|k]]; [lia| |].
    + change (10 ^ Z.of_nat 1) with 10 in Hn. lia.
    + assert (0 <= n / 10 < 10 ^ Z.of_nat (S k)) as Hdiv.
      { rewrite (Nat2Z.inj_succ (S k)), Z.pow_succ_r in Hn by lia.
        split; [apply Z.div_pos; lia|]. apply Z.div_lt_upper_bound; lia. }
      specialize (IH (n / 10) (String (digit_char (n mod 10)) acc) (S k)
                    ltac:(lia) Hdiv).
      cbn [String.length] in IH. lia.
Qed.

Lemma format_0d_length (width : nat) (n : Z) :
  (1 <= width)%nat -> 0 <= n < 10 ^ Z.of_nat width ->
  String.length (format_0d width n) = width.
Proof.
  intros Hw Hn. unfold format_0d. destruct (Z.ltb_spec n 0) as [Hneg|_]; [lia|].
  rewrite zeros_length. unfold digits.
  pose proof (digits_from_length (Z.to_nat (Z.log2 n)) n EmptyString width Hw Hn) as H.
  cbn [String.length] in H. lia.
Qed.

End Render.

(** X16.  [lap_to_ms] reads decimal fields without any check of their range:
    three fields [m:s:r] give [m * 60000 + s * 1000 + r], two fields [m:s]
    give [m * 60000 + s * 1000], and one field is taken as milliseconds,
    for all integers, a seconds field above 59 or a sign included. *)
Theorem lap_to_ms_reads_any_fields (m s r : Z) :
  lap_to_ms (str_Z m +:+ ":" +:+ str_Z s +:+ ":" +:+ str_Z r)
    = Ok (m * 60000 + s * 1000 + r) /\
  lap_to_ms (str_Z m +:+ ":" +:+ str_Z s) = Ok (m * 60000 + s * 1000) /\
  lap_to_ms (str_Z m) = Ok m.
Proof.
  unfold lap_to_ms. repeat split.
  - rewrite !(Codec.split_colon_field _ _ (Codec.str_Z_numeric _)),
      (Codec.split_colon_last _ (Codec.str_Z_numeric _)).
    rewrite !Codec.py_int_str_Z. reflexivity.
  - rewrite (Codec.split_colon_field _ _ (Codec.str_Z_numeric _)),
      (Codec.split_colon_last _ (Codec.str_Z_numeric _)).
    rewrite !Codec.py_int_str_Z. reflexivity.
  - rewrite (Codec.split_colon_last _ (Codec.str_Z_numeric _)).
    apply Codec.py_int_str_Z.
Qed.

(** X17.  [format_laptime] is injective: two different numbers of
    milliseconds are never displayed as the same text. *)
Theorem format_laptime_injective (a b : Z) :
  format_laptime a = format_laptime b -> a = b.
Proof.
  intros H. apply (f_equal (fun t => lap_to_ms (colon_form t))) in H.
  rewrite !Render.read_colon_form in H. injection H as ->. reflexivity.
Qed.

(** X17 at one time written twice. *)
Lemma format_laptime_injective_witness : 83456 = 83000 + 456.
Proof. apply format_laptime_injective. vm_compute. reflexivity. Defined.

(** X18.  The seconds of a displayed time always take two characters and the
    milliseconds three: the text is the minutes followed by seven
    characters, for every integer. *)
Theorem format_laptime_length (ms : Z) :
  String.length (format_laptime ms)
  = (String.length (str_Z (ms / 60000)) + 7)%nat.
Proof.
  unfold format_laptime. rewrite !append_length.
  rewrite (Render.format_0d_length 2), (Render.format_0d_length 3); try lia.
  - cbn [String.length]. lia.
  - change (10 ^ Z.of_nat 3) with 1000. apply Z.mod_pos_bound. lia.
  - change (10 ^ Z.of_nat 2) with 100.
    pose proof (Z.mod_pos_bound ms 60000 ltac:(lia)).
    split; [apply Z.div_pos; lia|]. apply Z.div_lt_upper_bound; lia.
Qed.

(** ** Path separators *)

Module Separators.

Lemma swap_keeps_percent (c : ascii) :
  Py.is_char "%" (if Ascii.eqb c "\" then "/"%char else c) = Py.is_char "%" c.
Proof. by_cases_on_char c. Qed.

Lemma swap_keeps_hex (c : ascii) :
  hex_value (if Ascii.eqb c "\" then "/"%char else c) = hex_value c.
Proof. by_cases_on_char c. Qed.

Lemma hex_is_no_backslash (c : ascii) (v : N) :
  hex_value c = Some v -> Ascii.eqb c "\" = false.
Proof. by_cases_on_char c. Qed.

Lemma swap_twice (c : ascii) :
  (if Ascii.eqb (if Ascii.eqb c "\" then "/"%char else c) "\" then "/"%char
   else (if Ascii.eqb c "\" then "/"%char else c))
  = (if Ascii.eqb c "\" then "/"%char else c).
Proof. destruct (Ascii.eqb c "\") eqn:E; [reflexivity|]. rewrite E. reflexivity. Qed.

(** Turning backslashes into slashes before decoding changes nothing once
    they are turned after it. *)
Lemma unquote_swap (n : nat) :
  forall s : string,
    (String.length s <= n)%nat ->
    Py.replace_char "\" "/" (unquote (Py.replace_char "\" "/" s))
    = Py.replace_char "\" "/" (unquote s).
Proof.
  induction n as [|n IH]; intros s Hlen.
  - destruct s; [reflexivity|cbn in Hlen; lia].
  - destruct s as [|c s]; [reflexivity|]. cbn [String.length] in Hlen.
    cbn [Py.replace_char unquote]. rewrite swap_keeps_percent.
    destruct (Py.is_char "%" c) eqn:Hc.
    + destruct s as [|h1 [|h2 s]].
      * cbn [Py.replace_char unquote]. rewrite swap_twice. reflexivity.
      * cbn [Py.replace_char unquote]. rewrite swap_keeps_percent.
        destruct (Py.is_char "%" h1); cbn [Py.replace_char unquote];
          rewrite !swap_twice; reflexivity.
      * cbn [String.length] in Hlen. cbn [Py.replace_char]. rewrite !swap_keeps_hex.
        destruct (hex_value h1) as [a|] eqn:H1.
        -- destruct (hex_value h2) as [b|] eqn:H2.
           ++ cbn [Py.replace_char]. rewrite IH by lia. reflexivity.
           ++ cbn [Py.replace_char]. rewrite swap_twice. f_equal.
              change (String (if Ascii.eqb h1 "\" then "/"%char else h1)
                        (String (if Ascii.eqb h2 "\" then "/"%char else h2)
                           (Py.replace_char "\" "/" s)))
                with (Py.replace_char "\" "/" (String h1 (String h2 s))).
              apply IH. cbn [String.length]. lia.
        -- cbn [Py.replace_char]. rewrite swap_twice. f_equal.
           change (String (if Ascii.eqb h1 "\" then "/"%char else h1)
                     (String (if Ascii.eqb h2 "\" then "/"%char else h2)
                        (Py.replace_char "\" "/" s)))
             with (Py.replace_char "\" "/" (String h1 (String h2 s))).
           apply IH. cbn [String.length]. lia.
    + cbn [Py.replace_char]. rewrite swap_twice, IH by lia. reflexivity.
Qed.

End Separators.

(** X19.  Backslashes and slashes are the same to [parse_track_from_string]:
    a path written with backslashes gives the key of the path written with
    slashes. *)
Theorem parse_track_either_separator (s : string) :
  parse_track_from_string (Py.replace_char "\" "/" s) = parse_track_from_string s.
Proof.
  unfold parse_track_from_string.
  assert (Py.truthy (Py.replace_char "\" "/" s) = Py.truthy s) as ->
    by (destruct s; reflexivity).
  rewrite (Separators.unquote_swap (String.length s)) by lia. reflexivity.
Qed.

(** ** [row_to_dict] *)

Module Rows.

Lemma from_short {V : Type} (row : list V) (cols : list string) :
  forall (idx : nat) (acc : gmap string V),
    (idx <= length row)%nat -> (length row < idx + length cols)%nat ->
    row_to_dict_from row idx cols acc = None.
Proof.
  induction cols as [|k cols IH]; intros idx acc Hidx Hlen; cbn [length] in Hlen; [lia|].
  cbn [row_to_dict_from]. destruct (row !! idx) as [v|] eqn:E; [|reflexivity].
  apply lookup_lt_Some in E. apply IH; lia.
Qed.

Lemma from_long {V : Type} (row : list V) (cols : list string) :
  forall (idx : nat) (acc : gmap string V),
    NoDup cols -> (idx + length cols <= length row)%nat ->
    exists d,
      row_to_dict_from row idx cols acc = Some d /\
      (forall i k, cols !! i = Some k -> d !! k = row !! (idx + i)%nat) /\
      (forall k, k ∉ cols -> d !! k = acc !! k).
Proof.
  induction cols as [|k0 cols IH]; intros idx acc Hnd Hlen.
  - exists acc. split; [reflexivity|]. split; [intros i k H; discriminate|reflexivity].
  - cbn [length] in Hlen. apply NoDup_cons in Hnd as [Hk0 Hnd].
    cbn [row_to_dict_from].
    destruct (lookup_lt_is_Some_2 row idx ltac:(lia)) as [v Hv]. rewrite Hv.
    destruct (IH (S idx) (<[k0 := v]> acc) Hnd ltac:(lia)) as (d & Hd & Hin & Hout).
    exists d. split; [exact Hd|]. split.
    + intros [|i] k Hi.
      * injection Hi as <-. rewrite (Hout _ Hk0), lookup_insert_eq, Nat.add_0_r.
        symmetry. exact Hv.
      * rewrite (Hin i k Hi). f_equal. lia.
    + intros k Hk. apply not_elem_of_cons in Hk as [Hne Hk].
      rewrite (Hout _ Hk). apply lookup_insert_ne. congruence.
Qed.

End Rows.

(** X20.  [row_to_dict] fails exactly on a row shorter than the column list;
    on a row long enough, with column names that do not repeat, the result
    maps each column name to the value at its position and has no other
    key. *)
Theorem row_to_dict_by_position {V : Type} (row : list V) (cols : list string) :
  ((length row < length cols)%nat -> row_to_dict row cols = None) /\
  ((length cols <= length row)%nat -> NoDup cols ->
   exists d,
     row_to_dict row cols = Some d /\
     (forall i k, cols !! i = Some k -> d !! k = row !! i) /\
     (forall k, k ∉ cols -> d !! k = None)).
Proof.
  unfold row_to_dict. split.
  - intros H. apply Rows.from_short; lia.
  - intros Hlen Hnd.
    destruct (Rows.from_long row cols O ∅ Hnd ltac:(lia)) as (d & Hd & Hin & Hout).
    exists d. split; [exact Hd|]. split; [exact Hin|].
    intros k Hk. rewrite (Hout k Hk). apply lookup_empty.
Qed.

(** X20 at a row of the leaderboard query. *)
Lemma row_to_dict_by_position_witness :
  exists d,
    row_to_dict ["Bob"; "83456"; "12"] ["player"; "best_ms"; "laps"] = Some d /\
    d !! "best_ms" = Some "83456".
Proof.
  destruct (proj2 (row_to_dict_by_position ["Bob"; "83456"; "12"]
                     ["player"; "best_ms"; "laps"]))
    as (d & Hd & Hin & _).
  - cbn. lia.
  - apply (bool_decide_unpack _). vm_compute. exact I.
  - exists d. split; [exact Hd|]. exact (Hin 1%nat "best_ms" eq_refl).
Defined.

(** ** The two queues over a whole run *)

Module Waiting.

Lemma reachable_unset (d : store) (st : state) :
  reachable d st -> Forall (fun r => req_player r = None) (pending_cars_queue st).
Proof.
  induction 1 as [|st raw_line st' _ IH Hstep|st fp _ IH].
  - constructor.
  - exact (Queue.loop_body_unset _ _ _ IH Hstep).
  - exact IH.
Qed.

Lemma filter_others_wait (player car : string) (m : gmap string string)
    (laps : list pending_lap) :
  Forall (fun lap => Py.truthy_opt (m !! pl_player lap) = false) laps ->
  Forall (fun lap => Py.truthy_opt (<[player := car]> m !! pl_player lap) = false)
         (laps_of_others player laps).
Proof.
  unfold laps_of_others. induction 1 as [|lap laps H _ IH]; [constructor|].
  cbn [List.filter]. destruct (decide (pl_player lap = player)) as [Heq|Hne].
  - rewrite (bool_decide_eq_true_2 _ Heq). exact IH.
  - rewrite (bool_decide_eq_false_2 _ Hne). cbn [negb]. constructor; [|exact IH].
    rewrite lookup_insert_ne by congruence. exact H.
Qed.

(** What the cuts branch queues, it queues for a player without a car. *)
Lemma on_cuts_wait (st st' : state) (m : Re.groups) :
  pending_wait_for_car st -> on_cuts st m = Ok st' -> pending_wait_for_car st'.
Proof.
  unfold pending_wait_for_car, on_cuts. intros Hinv.
  destruct (last_lap st) as [c|]; [|intros [= <-]; exact Hinv].
  destruct (py_int _) as [cuts|e]; [|discriminate]. cbn [mbind result_bind].
  intros [= <-]. destruct (cuts =? 0); [|exact Hinv].
  destruct (Py.truthy_opt (player_car_map st !! lc_player c)) eqn:Hcar; [exact Hinv|].
  cbn. apply Forall_app. split; [exact Hinv|]. constructor; [exact Hcar|constructor].
Qed.

Lemma loop_body_wait (st st' : state) (raw_line : string) :
  pending_wait_for_car st -> loop_body st raw_line = Ok st' -> pending_wait_for_car st'.
Proof.
  intros Hinv. rewrite loop_body_classify.
  assert (pending_wait_for_car (observe st raw_line)) as Hobs.
  { unfold pending_wait_for_car.
    rewrite Frame.observe_pending_laps, Frame.observe_map. exact Hinv. }
  destruct (classify raw_line) as [| |m|m|m|m|]; cbn [step_of_kind].
  - intros [= <-]. exact Hinv.
  - intros [= <-]. exact Hobs.
  - intros [= <-]. exact Hobs.
  - intros [= <-]. unfold on_driver_accepted.
    destruct (_ || _); [exact Hobs|].
    set (player := Py.strip _).
    destruct (Effects.accepted_effect st raw_line player) as (Hpend & _).
    unfold pending_wait_for_car. rewrite Hpend, Frame.flush_pending_map.
    unfold assign_car. destruct (first_unset _) as [[i pc]|]; cbn;
      rewrite Frame.observe_map; apply filter_others_wait; exact Hinv.
  - apply on_cuts_wait. exact Hobs.
  - intros H. apply Frame.on_lap_kept in H as (c & ->). exact Hobs.
  - intros [= <-]. exact Hobs.
Qed.

End Waiting.

(** X21.  First in, first out at any queue length: in a state the loop passes
    through, a car-request line puts its car at the end of the queue, and a
    driver-accepted line gives the player the car at the head of the queue
    and takes that request out, leaving the others in place. *)
Theorem queue_is_first_in_first_out (d : store) (st st' : state) (raw_line : string) :
  reachable d st -> loop_body st raw_line = Ok st' ->
  (forall car, requested_car raw_line = Some car ->
     pending_cars_queue st' =
       pending_cars_queue st ++ [{| req_player := None; req_car := car |}] /\
     player_car_map st' = player_car_map st) /\
  (forall player r q, accepted_driver raw_line = Some player ->
     pending_cars_queue st = r :: q ->
     player_car_map st' !! player = Some (req_car r) /\ pending_cars_queue st' = q).
Proof.
  intros Hreach Hstep. split.
  - intros car Hcar. rewrite (Queue.loop_body_requested _ _ _ Hcar) in Hstep.
    injection Hstep as <-. cbn. rewrite Frame.observe_map. split; reflexivity.
  - intros player [p car] q Hacc Hq.
    pose proof (Waiting.reachable_unset d st Hreach) as Hinv.
    rewrite Hq in Hinv. inversion Hinv as [|? ? Hp _]; subst. cbn in Hp. subst p.
    destruct (Queue.accepted_head _ _ _ _ _ _ Hq Hacc Hstep) as [-> ->].
    split; [apply lookup_insert_eq|reflexivity].
Qed.

(** X21 at a queue of three requests. *)
Lemma queue_is_first_in_first_out_witness :
  exists st',
    loop_body
      (set_pending_cars_queue (initial_state empty_store)
         [{| req_player := None; req_car := "a" |};
          {| req_player := None; req_car := "b" |};
          {| req_player := None; req_car := "c" |}])
      "DRIVER ACCEPTED FOR CAR Alice" = Ok st' /\
    player_car_map st' !! "Alice" = Some "a" /\
    pending_cars_queue st' =
      [{| req_player := None; req_car := "b" |}; {| req_player := None; req_car := "c" |}].
Proof.
  eexists. split; [vm_compute; reflexivity|].
  match goal with
  | |- player_car_map ?s !! _ = _ /\ _ =>
      apply (proj2 (queue_is_first_in_first_out empty_store
                      (set_pending_cars_queue (initial_state empty_store)
                         [{| req_player := None; req_car := "a" |};
                          {| req_player := None; req_car := "b" |};
                          {| req_player := None; req_car := "c" |}])
                      s "DRIVER ACCEPTED FOR CAR Alice" 
                      ltac:(apply (reach_line empty_store
                                     (set_pending_cars_queue (initial_state empty_store)
                                        [{| req_player := None; req_car := "a" |};
                                         {| req_player := None; req_car := "b" |}])
                                     "REQUESTED CAR: c");
                            [apply (reach_line empty_store
                                      (set_pending_cars_queue (initial_state empty_store)
                                         [{| req_player := None; req_car := "a" |}])
                                      "REQUESTED CAR: b");
                             [apply (reach_line empty_store (initial_state empty_store)
                                       "REQUESTED CAR: a");
                              [apply reach_start|vm_compute; reflexivity]
                             |vm_compute; reflexivity]
                            |vm_compute; reflexivity])
                      ltac:(vm_compute; reflexivity))
               "Alice" {| req_player := None; req_car := "a" |});
        [vm_compute; reflexivity|reflexivity]
  end.
Defined.

(** X22.  No lap waits for a car that is known: in every state the loop
    passes through, each pending lap belongs to a player for whom the map
    has no car, or the empty name. *)
Theorem reachable_pending_wait_for_car (d : store) (st : state) :
  reachable d st -> pending_wait_for_car st.
Proof.
  induction 1 as [|st raw_line st' _ IH Hstep|st fp _ IH].
  - constructor.
  - exact (Waiting.loop_body_wait _ _ _ IH Hstep).
  - exact IH.
Qed.

(** X22 at the state after a lap confirmed before any driver was accepted. *)
Lemma reachable_pending_wait_for_car_witness :
  pending_wait_for_car
    (set_db_print
       (set_pending_laps (initial_state empty_store)
          [{| pl_player := "Bob"; pl_laptime := 83456; pl_track := "unknown" |}])
       empty_store (MsgQueued "Bob" 83456 "unknown")).
Proof.
  apply (reachable_pending_wait_for_car empty_store).
  apply (reach_line empty_store
           (set_last_lap (initial_state empty_store)
              (Some {| lc_player := "Bob"; lc_lap_ms := 83456 |}))
           "Cuts: 0"); [|vm_compute; reflexivity].
  apply (reach_line empty_store (initial_state empty_store) "LAP Bob 1:23:456");
    [apply reach_start|vm_compute; reflexivity].
Defined.
